(** * SceneManager: scene composition and shader-parameter binding

    A shallow embedding of [Source/SceneManager.cpp] (texture registry,
    material registry, transform builder, shader-parameter pushes and the
    fixed render sequence), together with the properties of the written
    specification that can be stated over it.

    Conventions of the embedding.

    - C++ [float] is IEEE 754 binary32.  Values are the Standard
      Library's [spec_float] (sign, mantissa, exponent, with signed
      zeros, infinities and NaN); [+], [-], [*], [/] and [sqrt] are its
      operations at precision 24 and exponent bound 128, each rounding to
      nearest, ties to even.  A literal [0.2] is the binary32 value
      nearest to the decimal, as [0.2f] is in the source.
    - [cosf] and [sinf] belong to the C library, which is not part of the
      sources: they are parameters of the embedding ([Libm]).
    - [int] values are [Z]; the only place where a width matters is the
      conversion of a 32-bit texture name to [int] in [FindTextureID].
    - The OpenGL driver, the image decoder, the shader manager and the mesh
      library are external: every call into them is recorded as an [event],
      and the two answers the code depends on (the decoded image, the
      texture name handed out by [glGenTextures]) come from an [Env].
    - Behaviour that C++ leaves undefined (null dereference, array index
      out of range, reading a member never written) is an explicit
      [Undefined] outcome. *)

From Stdlib Require Import Reals Lra Lia ZArith List String Bool Arith.
From Stdlib Require Import SpecFloat.
Import ListNotations.

Set Implicit Arguments.

(* ================================================================== *)
(** ** Floating-point numbers *)
(* ================================================================== *)

(** Decimal literals.  A literal with digits [n] and [k] digits after the
    point denotes [n / 10^k]; the quotient is rounded once, to the format
    with precision [p] and exponent bound [e]. *)
Module Literal.

Definition ratio (p e : Z) (s : bool) (n d : positive) : spec_float :=
  SFdiv p e (S754_finite s n 0%Z) (S754_finite false d 0%Z).

Definition sign (i : Decimal.int) : bool :=
  match i with Decimal.Pos _ => false | Decimal.Neg _ => true end.

Definition digits (i : Decimal.int) (f : Decimal.uint) : Z :=
  Z.abs (Z.of_int (Decimal.app_int i f)).

(** [i.f] and [i.fEx]: the digits [i f] as an integer, scaled by ten to
    the power [x] minus the number of digits of [f]. *)
Definition scaled (p e : Z) (i : Decimal.int) (f : Decimal.uint) (x : Z)
  : spec_float :=
  match digits i f with
  | Zpos m =>
      match (x - Z.of_nat (Decimal.nb_digits f))%Z with
      | Zneg k => ratio p e (sign i) m (Z.to_pos (10 ^ Zpos k))
      | k => ratio p e (sign i) (m * Z.to_pos (10 ^ k)) 1
      end
  | _ => S754_zero (sign i)
  end.

Definition of_decimal (p e : Z) (n : Number.number) : option spec_float :=
  match n with
  | Number.Decimal (Decimal.Decimal i f) => Some (scaled p e i f 0)
  | Number.Decimal (Decimal.DecimalExp i f x) => Some (scaled p e i f (Z.of_int x))
  | Number.Hexadecimal _ => None
  end.

End Literal.

(** [float]: binary32. *)
Module Binary32.

Definition prec : Z := 24.
Definition emax : Z := 128.

Definition float := spec_float.

Definition add : float -> float -> float := SFadd prec emax.
Definition sub : float -> float -> float := SFsub prec emax.
Definition mul : float -> float -> float := SFmul prec emax.
Definition div : float -> float -> float := SFdiv prec emax.
Definition sqrt : float -> float := SFsqrt prec emax.

Definition parse : Number.number -> option spec_float := Literal.of_decimal prec emax.
Definition print (x : spec_float) : option Number.number := None.

(** A value of the format: mantissa and exponent in range and in
    canonical form. *)
Definition binary32 (x : float) : Prop := valid_binary prec emax x = true.

(** Neither infinite nor NaN. *)
Definition finite (x : float) : bool :=
  match x with
  | S754_zero _ | S754_finite _ _ _ => true
  | S754_infinity _ | S754_nan => false
  end.

Definition is_zero (x : float) : bool :=
  match x with S754_zero _ => true | _ => false end.

(** The same value, bit for bit. *)
Definition same_bits (x y : float) : bool :=
  match x, y with
  | S754_zero s, S754_zero s' => Bool.eqb s s'
  | S754_infinity s, S754_infinity s' => Bool.eqb s s'
  | S754_nan, S754_nan => true
  | S754_finite s m e, S754_finite s' m' e' =>
      Bool.eqb s s' && Pos.eqb m m' && Z.eqb e e'
  | _, _ => false
  end.

(** The real number a finite value stands for (0 for the others). *)
Definition real (x : float) : R :=
  match x with
  | S754_finite s m e =>
      ((if s then -1 else 1) * IZR (Zpos m) * powerRZ 2 e)%R
  | _ => 0%R
  end.

End Binary32.

Declare Scope binary32_scope.
Delimit Scope binary32_scope with f32.
Number Notation spec_float Binary32.parse Binary32.print : binary32_scope.
Bind Scope binary32_scope with Binary32.float.
Infix "+" := Binary32.add : binary32_scope.
Infix "-" := Binary32.sub : binary32_scope.
Infix "*" := Binary32.mul : binary32_scope.
Infix "/" := Binary32.div : binary32_scope.

(** [double]: binary64, met only as the type of literals without the [f]
    suffix, which C++ converts to [float] where they are used. *)
Module Binary64.

Definition prec : Z := 53.
Definition emax : Z := 1024.

Variant double := Double (bits : spec_float).

Definition parse (n : Number.number) : option double :=
  option_map Double (Literal.of_decimal prec emax n).
Definition print (x : double) : option Number.number := None.

(** Conversion to [float]: one more rounding. *)
Definition to_float (d : double) : Binary32.float :=
  match d with
  | Double (S754_finite s m e) => binary_round Binary32.prec Binary32.emax s m e
  | Double x => x
  end.

End Binary64.

Declare Scope binary64_scope.
Delimit Scope binary64_scope with f64.
Number Notation Binary64.double Binary64.parse Binary64.print : binary64_scope.
Bind Scope binary64_scope with Binary64.double.

(** The two functions of the C library that GLM calls. *)
Class Libm := {
  cosf : Binary32.float -> Binary32.float;
  sinf : Binary32.float -> Binary32.float }.

(* ================================================================== *)
(** ** The parts of GLM the scene manager calls *)
(* ================================================================== *)

Module GLM.
Import Binary32.
Local Open Scope binary32_scope.

Record vec2 := Vec2 { x2 : float; y2 : float }.
Record vec3 := Vec3 { x3 : float; y3 : float; z3 : float }.
Record vec4 := Vec4 { x4 : float; y4 : float; z4 : float; w4 : float }.

(** [glm::mat4] is column-major: [m[i]] is the i-th column. *)
Record mat4 := Mat4 { col0 : vec4; col1 : vec4; col2 : vec4; col3 : vec4 }.

(** [vec4 * scalar] and [vec4 + vec4], component-wise. *)
Definition vscale (v : vec4) (k : float) : vec4 :=
  Vec4 (x4 v * k) (y4 v * k) (z4 v * k) (w4 v * k).

Definition vadd (a b : vec4) : vec4 :=
  Vec4 (x4 a + x4 b) (y4 a + y4 b) (z4 a + z4 b) (w4 a + w4 b).

(** [glm::mat4(1f)]. *)
Definition identity : mat4 :=
  Mat4 (Vec4 1 0 0 0) (Vec4 0 1 0 0) (Vec4 0 0 1 0) (Vec4 0 0 0 1).

(** [operator*(mat4 const& m1, mat4 const& m2)]: every column of the
    result is the combination of the columns of [m1] weighted by the
    matching column of [m2], summed from left to right. *)
Definition mul_col (m1 : mat4) (b : vec4) : vec4 :=
  vadd (vadd (vadd (vscale (col0 m1) (x4 b)) (vscale (col1 m1) (y4 b)))
             (vscale (col2 m1) (z4 b)))
       (vscale (col3 m1) (w4 b)).

Definition mul (m1 m2 : mat4) : mat4 :=
  Mat4 (mul_col m1 (col0 m2)) (mul_col m1 (col1 m2))
       (mul_col m1 (col2 m2)) (mul_col m1 (col3 m2)).

(** [glm::radians]: degrees times the [float] nearest to the [double]
    literal of pi/180. *)
Definition radians (degrees : float) : float :=
  degrees * Binary64.to_float 0.01745329251994329576923690768489.

(** [glm::dot], [glm::inversesqrt], [glm::normalize] on [vec3]. *)
Definition dot (a b : vec3) : float := x3 a * x3 b + y3 a * y3 b + z3 a * z3 b.

Definition inversesqrt (x : float) : float := 1 / sqrt x.

Definition normalize (v : vec3) : vec3 :=
  let k := inversesqrt (dot v v) in Vec3 (x3 v * k) (y3 v * k) (z3 v * k).

(** [glm::scale(m, v)]. *)
Definition scale_m (m : mat4) (v : vec3) : mat4 :=
  Mat4 (vscale (col0 m) (x3 v)) (vscale (col1 m) (y3 v))
       (vscale (col2 m) (z3 v)) (col3 m).

(** [glm::translate(m, v)]. *)
Definition translate_m (m : mat4) (v : vec3) : mat4 :=
  Mat4 (col0 m) (col1 m) (col2 m)
       (vadd (vadd (vadd (vscale (col0 m) (x3 v)) (vscale (col1 m) (y3 v)))
                   (vscale (col2 m) (z3 v)))
             (col3 m)).

(** [glm::rotate(m, angle, v)]: Rodrigues' matrix of the normalised axis,
    multiplied onto [m]. *)
Definition rotate_m {libm : Libm} (m : mat4) (angle : float) (v : vec3) : mat4 :=
  let a := angle in
  let c := cosf a in
  let s := sinf a in
  let axis := normalize v in
  let temp := Vec3 ((1 - c) * x3 axis) ((1 - c) * y3 axis) ((1 - c) * z3 axis) in
  let r00 := c + x3 temp * x3 axis in
  let r01 := x3 temp * y3 axis + s * z3 axis in
  let r02 := x3 temp * z3 axis - s * y3 axis in
  let r10 := y3 temp * x3 axis - s * z3 axis in
  let r11 := c + y3 temp * y3 axis in
  let r12 := y3 temp * z3 axis + s * x3 axis in
  let r20 := z3 temp * x3 axis + s * y3 axis in
  let r21 := z3 temp * y3 axis - s * x3 axis in
  let r22 := c + z3 temp * z3 axis in
  Mat4 (vadd (vadd (vscale (col0 m) r00) (vscale (col1 m) r01)) (vscale (col2 m) r02))
       (vadd (vadd (vscale (col0 m) r10) (vscale (col1 m) r11)) (vscale (col2 m) r12))
       (vadd (vadd (vscale (col0 m) r20) (vscale (col1 m) r21)) (vscale (col2 m) r22))
       (col3 m).

(** The one-argument forms of [<glm/gtx/transform.hpp>] start from the
    identity matrix. *)
Definition scale (v : vec3) : mat4 := scale_m identity v.
Definition translate (v : vec3) : mat4 := translate_m identity v.
Definition rotate {libm : Libm} (angle : float) (v : vec3) : mat4 :=
  rotate_m identity angle v.

(** Entry in row [i], column [j]. *)
Definition comp (v : vec4) (i : nat) : float :=
  match i with
  | 0%nat => x4 v | 1%nat => y4 v | 2%nat => z4 v | _ => w4 v
  end.

Definition column (m : mat4) (j : nat) : vec4 :=
  match j with
  | 0%nat => col0 m | 1%nat => col1 m | 2%nat => col2 m | _ => col3 m
  end.

Definition entry (m : mat4) (i j : nat) : float := comp (column m j) i.

End GLM.

(* ================================================================== *)
(** ** Matrices as the specification writes them *)
(* ================================================================== *)

(** The written specification names the factors [Translate], [RotateX],
    [RotateY], [RotateZ], [Scale] and their product.  They are given here
    over the real numbers, row by row, independently of GLM's code, so
    that the matrix the transform builder pushes can be compared with
    them. *)

Module MatrixSpec.
Local Open Scope R_scope.

(** A 4 x 4 real matrix: the entry in row [i], column [j]. *)
Definition matrix := nat -> nat -> R.









End MatrixSpec.

(* ================================================================== *)
(** ** Data model *)
(* ================================================================== *)

Local Open Scope string_scope.
Local Open Scope list_scope.
Local Open Scope Z_scope.

(** [GLuint]: a 32-bit unsigned texture name, kept as its value. *)
Definition GLuint := Z.

(** Conversion of an [int] to [GLuint] and back, both modulo 2^32. *)
Definition GLuint_of_int (i : Z) : GLuint := i mod 2 ^ 32.

Definition int_of_GLuint (u : GLuint) : Z := (u + 2 ^ 31) mod 2 ^ 32 - 2 ^ 31.

(** One slot of [m_textureIDs]. *)
Module TEXTURE_INFO.
Record t := make { tag : string; ID : GLuint }.
End TEXTURE_INFO.

(** One element of [m_objectMaterials]. *)
Module OBJECT_MATERIAL.
Record t := make {
  ambientColor : GLM.vec3;
  ambientStrength : Binary32.float;
  diffuseColor : GLM.vec3;
  specularColor : GLM.vec3;
  shininess : Binary32.float;
  tag : string }.

(** An [OBJECT_MATERIAL] object seen through a reference.  A local
    declared without initialiser has an empty [tag] and numeric members
    that hold no value until they are assigned. *)
Record ref := make_ref {
  r_ambientColor : option GLM.vec3;
  r_ambientStrength : option Binary32.float;
  r_diffuseColor : option GLM.vec3;
  r_specularColor : option GLM.vec3;
  r_shininess : option Binary32.float;
  r_tag : string }.

Definition declared : ref := make_ref None None None None None "".
End OBJECT_MATERIAL.

(** What [stbi_load] reports about a decoded file; the pixels themselves
    play no role in the logic. *)
Record Image := { width : Z; height : Z; colorChannels : Z }.

Inductive mesh :=
| Box | Plane | Cylinder | Cone | Prism | Pyramid4 | Sphere
| TaperedCylinder | Torus | HalfTorus.

Inductive wrap_axis := GL_TEXTURE_WRAP_S | GL_TEXTURE_WRAP_T.
Inductive filter_kind := GL_TEXTURE_MIN_FILTER | GL_TEXTURE_MAG_FILTER.
Inductive pixel_format := GL_RGB | GL_RGBA.

Inductive console :=
| loaded_image (filename : string) (img : Image)
| channels_not_handled (channels : Z)
| could_not_load (filename : string).

(** Calls that leave the scene manager: image decoder, console, OpenGL,
    shader manager, mesh library. *)
Inductive event :=
| stbi_set_flip_vertically_on_load (flag : bool)
| stbi_image_free
| cout (line : console)
| glGenTextures (name : GLuint)
| glDeleteTextures (name : GLuint)
| glBindTexture (name : GLuint)
| glWrapRepeat (axis : wrap_axis)
| glFilterLinear (which : filter_kind)
| glTexImage2D (format : pixel_format) (w h : Z)
| glGenerateMipmap
| glActiveTexture (unit : Z)
| setMat4Value (name : string) (m : GLM.mat4)
| setIntValue (name : string) (v : Z)
| setBoolValue (name : string) (v : bool)
| setFloatValue (name : string) (v : Binary32.float)
| setVec2Value (name : string) (v : GLM.vec2)
| setVec3Value (name : string) (v : GLM.vec3)
| setVec4Value (name : string) (v : GLM.vec4)
| setSampler2DValue (name : string) (slot : Z)
| LoadMesh (m : mesh)
| DrawMesh (m : mesh).

(** The file-scope name constants. *)
Definition g_ModelName := "model".
Definition g_ColorValueName := "objectColor".
Definition g_TextureValueName := "objectTexture".
Definition g_UseTextureName := "bUseTexture".
Definition g_UseLightingName := "bUseLighting".

(** Pointers to the two collaborators: [None] is [NULL]. *)
Definition pointer := option positive.

Record SceneManager := {
  m_pShaderManager : pointer;
  m_basicMeshes : pointer;
  m_textureIDs : list TEXTURE_INFO.t;
  m_loadedTextures : Z;
  m_objectMaterials : list OBJECT_MATERIAL.t }.

(** The scene manager together with the one piece of driver state the
    code observes: how many texture names were handed out so far. *)
Record World := { this : SceneManager; gl_generated : nat }.

(** Answers of the outside world. *)
Record Env := {
  stbi_load : string -> option Image;
  gl_fresh : nat -> GLuint }.

(* ================================================================== *)
(** ** Outcomes and the monad of scene-manager methods *)
(* ================================================================== *)

Inductive fault := NullPointerDereference | IndexOutOfRange | IndeterminateRead.

Inductive outcome (A : Type) :=
| Done (a : A)
| Undefined (f : fault).
Arguments Undefined {A} f.

(** A method runs on a world and either finishes with a value, a new
    world and the calls it issued, or hits undefined behaviour. *)
Definition M (A : Type) := World -> outcome (A * World * list event).

Definition ret {A} (a : A) : M A := fun w => Done (a, w, []).

Definition bind {A B} (c : M A) (k : A -> M B) : M B :=
  fun w =>
    match c w with
    | Undefined f => Undefined f
    | Done (a, w1, t1) =>
        match k a w1 with
        | Undefined f => Undefined f
        | Done (b, w2, t2) => Done (b, w2, t1 ++ t2)
        end
    end.

Notation "x <- c ;; k" := (bind c (fun x => k))
  (at level 61, c at next level, right associativity).
Notation "c ;; k" := (bind c (fun _ => k))
  (at level 61, right associativity).

Definition emit (e : event) : M unit := fun w => Done (tt, w, [e]).

Definition undefined {A} (f : fault) : M A := fun _ => Undefined f.

Definition self : M SceneManager := fun w => Done (this w, w, []).

Definition update_self (f : SceneManager -> SceneManager) : M unit :=
  fun w => Done (tt, {| this := f (this w); gl_generated := gl_generated w |}, []).

(** A read-only computation that may be undefined. *)
Definition lift {A} (r : SceneManager -> outcome A) : M A :=
  fun w =>
    match r (this w) with
    | Done a => Done (a, w, [])
    | Undefined f => Undefined f
    end.

(** [m_pShaderManager->...]: dereferences the pointer. *)
Definition shader (e : event) : M unit :=
  s <- self ;;
  match m_pShaderManager s with
  | Some _ => emit e
  | None => undefined NullPointerDereference
  end.

(** [m_basicMeshes->...]. *)
Definition meshes (e : event) : M unit :=
  s <- self ;;
  match m_basicMeshes s with
  | Some _ => emit e
  | None => undefined NullPointerDereference
  end.

(** Reading a member that may never have been written. *)
Definition read {A} (v : option A) : M A :=
  match v with
  | Some a => ret a
  | None => undefined IndeterminateRead
  end.

(** Array element replacement, [l[n] = x] for [n] in range. *)
Fixpoint store {A} (l : list A) (n : nat) (x : A) : list A :=
  match l, n with
  | [], _ => []
  | _ :: l', O => x :: l'
  | a :: l', S n' => a :: store l' n' x
  end.

Definition set_textures (ts : list TEXTURE_INFO.t) (n : Z) (s : SceneManager) :=
  {| m_pShaderManager := m_pShaderManager s;
     m_basicMeshes := m_basicMeshes s;
     m_textureIDs := ts;
     m_loadedTextures := n;
     m_objectMaterials := m_objectMaterials s |}.

Definition push_back (m : OBJECT_MATERIAL.t) (s : SceneManager) :=
  {| m_pShaderManager := m_pShaderManager s;
     m_basicMeshes := m_basicMeshes s;
     m_textureIDs := m_textureIDs s;
     m_loadedTextures := m_loadedTextures s;
     m_objectMaterials := m_objectMaterials s ++ [m] |}.

(** [m_textureIDs[i]] as an lvalue: out of range is undefined. *)
Definition slot (i : Z) : M TEXTURE_INFO.t :=
  s <- self ;;
  if i <? 0 then undefined IndexOutOfRange
  else match nth_error (m_textureIDs s) (Z.to_nat i) with
       | Some e => ret e
       | None => undefined IndexOutOfRange
       end.

(* ================================================================== *)
(** ** The methods of [SceneManager] *)
(* ================================================================== *)

(** [SceneManager::SceneManager]: [new ShapeMeshes()] yields the object at
    [pMeshes]; the sixteen texture slots are blanked. *)
Definition SceneManager_ctor (pShaderManager : pointer) (pMeshes : positive)
  : SceneManager :=
  {| m_pShaderManager := pShaderManager;
     m_basicMeshes := Some pMeshes;
     m_textureIDs := repeat (TEXTURE_INFO.make "/0" (GLuint_of_int (-1))) 16;
     m_loadedTextures := 0;
     m_objectMaterials := [] |}.

(** *** Lookups (they only read the object) *)

(** The [while] loop of [FindTextureID] with [n] iterations left before
    [index] reaches [m_loadedTextures]. *)
Fixpoint FindTextureID_from (n index : nat) (tag : string) (s : SceneManager)
  : outcome Z :=
  match n with
  | O => Done (-1)
  | S n' =>
      match nth_error (m_textureIDs s) index with
      | None => Undefined IndexOutOfRange
      | Some e =>
          if (TEXTURE_INFO.tag e =? tag)%string
          then Done (int_of_GLuint (TEXTURE_INFO.ID e))
          else FindTextureID_from n' (S index) tag s
      end
  end.

Definition FindTextureID (tag : string) (s : SceneManager) : outcome Z :=
  FindTextureID_from (Z.to_nat (m_loadedTextures s)) 0 tag s.

Fixpoint FindTextureSlot_from (n index : nat) (tag : string) (s : SceneManager)
  : outcome Z :=
  match n with
  | O => Done (-1)
  | S n' =>
      match nth_error (m_textureIDs s) index with
      | None => Undefined IndexOutOfRange
      | Some e =>
          if (TEXTURE_INFO.tag e =? tag)%string
          then Done (Z.of_nat index)
          else FindTextureSlot_from n' (S index) tag s
      end
  end.

Definition FindTextureSlot (tag : string) (s : SceneManager) : outcome Z :=
  FindTextureSlot_from (Z.to_nat (m_loadedTextures s)) 0 tag s.

(** The five assignments made on a match. *)
Definition copy_into (material : OBJECT_MATERIAL.ref) (m : OBJECT_MATERIAL.t)
  : OBJECT_MATERIAL.ref :=
  {| OBJECT_MATERIAL.r_ambientColor := Some (OBJECT_MATERIAL.ambientColor m);
     OBJECT_MATERIAL.r_ambientStrength := Some (OBJECT_MATERIAL.ambientStrength m);
     OBJECT_MATERIAL.r_diffuseColor := Some (OBJECT_MATERIAL.diffuseColor m);
     OBJECT_MATERIAL.r_specularColor := Some (OBJECT_MATERIAL.specularColor m);
     OBJECT_MATERIAL.r_shininess := Some (OBJECT_MATERIAL.shininess m);
     OBJECT_MATERIAL.r_tag := OBJECT_MATERIAL.r_tag material |}.

(** The [while] loop of [FindMaterial] over the elements from [index] on. *)
Fixpoint FindMaterial_from (rest : list OBJECT_MATERIAL.t) (tag : string)
    (material : OBJECT_MATERIAL.ref) : OBJECT_MATERIAL.ref :=
  match rest with
  | [] => material
  | m :: rest' =>
      if (OBJECT_MATERIAL.tag m =? tag)%string
      then copy_into material m
      else FindMaterial_from rest' tag material
  end.

(** [FindMaterial(tag, material)]: the returned flag and the referenced
    object after the call. *)
Definition FindMaterial (tag : string) (material : OBJECT_MATERIAL.ref)
    (s : SceneManager) : bool * OBJECT_MATERIAL.ref :=
  match m_objectMaterials s with
  | [] => (false, material)
  | _ :: _ => (true, FindMaterial_from (m_objectMaterials s) tag material)
  end.

(** *** Shader pushes *)

Definition SetTransformations {libm : Libm} (scaleXYZ : GLM.vec3)
    (XrotationDegrees YrotationDegrees ZrotationDegrees : Binary32.float)
    (positionXYZ : GLM.vec3) : M unit :=
  let scale := GLM.scale scaleXYZ in
  let rotationX := GLM.rotate (GLM.radians XrotationDegrees) (GLM.Vec3 1 0 0) in
  let rotationY := GLM.rotate (GLM.radians YrotationDegrees) (GLM.Vec3 0 1 0) in
  let rotationZ := GLM.rotate (GLM.radians ZrotationDegrees) (GLM.Vec3 0 0 1) in
  let translation := GLM.translate positionXYZ in
  let modelView :=
    GLM.mul (GLM.mul (GLM.mul (GLM.mul translation rotationX) rotationY) rotationZ)
            scale in
  s <- self ;;
  match m_pShaderManager s with
  | Some _ => shader (setMat4Value g_ModelName modelView)
  | None => ret tt
  end.

Definition SetShaderColor
    (redColorValue greenColorValue blueColorValue alphaValue : Binary32.float)
  : M unit :=
  let currentColor :=
    GLM.Vec4 redColorValue greenColorValue blueColorValue alphaValue in
  s <- self ;;
  match m_pShaderManager s with
  | Some _ =>
      shader (setIntValue g_UseTextureName 0) ;;
      shader (setVec4Value g_ColorValueName currentColor)
  | None => ret tt
  end.

Definition SetShaderTexture (textureTag : string) : M unit :=
  s <- self ;;
  match m_pShaderManager s with
  | Some _ =>
      shader (setIntValue g_UseTextureName 1) ;;
      textureID <- lift (FindTextureSlot textureTag) ;;
      shader (setSampler2DValue g_TextureValueName textureID)
  | None => ret tt
  end.

Definition SetTextureUVScale (u v : Binary32.float) : M unit :=
  s <- self ;;
  match m_pShaderManager s with
  | Some _ => shader (setVec2Value "UVscale" (GLM.Vec2 u v))
  | None => ret tt
  end.

(** [SetShaderMaterial] has no null check, and its local [material] is
    declared without initialiser. *)
Definition SetShaderMaterial (materialTag : string) : M unit :=
  s <- self ;;
  if (0 <? List.length (m_objectMaterials s))%nat then
    let material := OBJECT_MATERIAL.declared in
    let '(bReturn, material) := FindMaterial materialTag material s in
    if bReturn then
      v <- read (OBJECT_MATERIAL.r_ambientColor material) ;;
      shader (setVec3Value "material.ambientColor" v) ;;
      v <- read (OBJECT_MATERIAL.r_ambientStrength material) ;;
      shader (setFloatValue "material.ambientStrength" v) ;;
      v <- read (OBJECT_MATERIAL.r_diffuseColor material) ;;
      shader (setVec3Value "material.diffuseColor" v) ;;
      v <- read (OBJECT_MATERIAL.r_specularColor material) ;;
      shader (setVec3Value "material.specularColor" v) ;;
      v <- read (OBJECT_MATERIAL.r_shininess material) ;;
      shader (setFloatValue "material.shininess" v)
    else ret tt
  else ret tt.

(** *** Texture registry *)

Section Driver.
Variable env : Env.

(** [glGenTextures(1, &name)]: the driver hands out its next name. *)
Definition gen_texture : M GLuint :=
  fun w =>
    let name := gl_fresh env (gl_generated w) in
    Done (name, {| this := this w; gl_generated := S (gl_generated w) |},
          [glGenTextures name]).

(** The three statements that register a loaded texture. *)
Definition register (textureID : GLuint) (tag : string) : M unit :=
  s <- self ;;
  _ <- slot (m_loadedTextures s) ;;
  update_self
    (set_textures
       (store (m_textureIDs s) (Z.to_nat (m_loadedTextures s))
              (TEXTURE_INFO.make tag textureID))
       (m_loadedTextures s + 1)).

Definition CreateGLTexture (filename : string) (tag : string) : M bool :=
  emit (stbi_set_flip_vertically_on_load true) ;;
  match stbi_load env filename with
  | Some image =>
      emit (cout (loaded_image filename image)) ;;
      textureID <- gen_texture ;;
      emit (glBindTexture textureID) ;;
      emit (glWrapRepeat GL_TEXTURE_WRAP_S) ;;
      emit (glWrapRepeat GL_TEXTURE_WRAP_T) ;;
      emit (glFilterLinear GL_TEXTURE_MIN_FILTER) ;;
      emit (glFilterLinear GL_TEXTURE_MAG_FILTER) ;;
      let rest : M bool :=
        emit glGenerateMipmap ;;
        emit stbi_image_free ;;
        emit (glBindTexture 0) ;;
        register textureID tag ;;
        ret true in
      if colorChannels image =? 3 then
        emit (glTexImage2D GL_RGB (width image) (height image)) ;; rest
      else if colorChannels image =? 4 then
        emit (glTexImage2D GL_RGBA (width image) (height image)) ;; rest
      else
        emit (cout (channels_not_handled (colorChannels image))) ;;
        ret false
  | None =>
      emit (cout (could_not_load filename)) ;;
      ret false
  end.

(** The [for] loop of [BindGLTextures] with [n] iterations left. *)
Fixpoint BindGLTextures_from (n : nat) (i : Z) : M unit :=
  match n with
  | O => ret tt
  | S n' =>
      emit (glActiveTexture i) ;;
      e <- slot i ;;
      emit (glBindTexture (TEXTURE_INFO.ID e)) ;;
      BindGLTextures_from n' (i + 1)
  end.

Definition BindGLTextures : M unit :=
  s <- self ;;
  BindGLTextures_from (Z.to_nat (m_loadedTextures s)) 0.

(** The [for] loop of [DestroyGLTextures]: each pass asks the driver for a
    new name and writes it over the stored one. *)
Fixpoint DestroyGLTextures_from (n : nat) (i : Z) : M unit :=
  match n with
  | O => ret tt
  | S n' =>
      e <- slot i ;;
      name <- gen_texture ;;
      s <- self ;;
      update_self
        (set_textures
           (store (m_textureIDs s) (Z.to_nat i)
                  (TEXTURE_INFO.make (TEXTURE_INFO.tag e) name))
           (m_loadedTextures s)) ;;
      DestroyGLTextures_from n' (i + 1)
  end.

Definition DestroyGLTextures : M unit :=
  s <- self ;;
  DestroyGLTextures_from (Z.to_nat (m_loadedTextures s)) 0.

(** *** Scene preparation *)

Definition LoadSceneTextures : M unit :=
  bReturn <- CreateGLTexture "../../Utilities/textures/marble.jpg" "marble" ;;
  bReturn <- CreateGLTexture "../../Utilities/textures/superhero-face.jpg" "face" ;;
  bReturn <- CreateGLTexture "../../Utilities/textures/superhero-body.jpg" "body" ;;
  bReturn <- CreateGLTexture "../../Utilities/textures/superhero-arm.jpg" "arm" ;;
  bReturn <- CreateGLTexture "../../Utilities/textures/superhero-leg.jpg" "leg" ;;
  bReturn <- CreateGLTexture "../../Utilities/textures/soda-can.jpg" "can" ;;
  BindGLTextures.

End Driver.

Definition plasticMaterial :=
  OBJECT_MATERIAL.make (GLM.Vec3 0.2 0.2 0.2) 0.3 (GLM.Vec3 0.2 0.2 0.2)
                       (GLM.Vec3 0.4 0.4 0.4) 12 "plastic".

Definition metalMaterial :=
  OBJECT_MATERIAL.make (GLM.Vec3 0.2 0.2 0.2) 0.3 (GLM.Vec3 0.2 0.2 0.2)
                       (GLM.Vec3 0.5 0.5 0.5) 22 "metal".

Definition clothMaterial :=
  OBJECT_MATERIAL.make (GLM.Vec3 0.1 0.1 0.1) 0.2 (GLM.Vec3 0.3 0.3 0.3)
                       (GLM.Vec3 0.1 0.1 0.1) 0.3 "cloth".

Definition glassMaterial :=
  OBJECT_MATERIAL.make (GLM.Vec3 0.4 0.4 0.4) 0.3 (GLM.Vec3 0.3 0.3 0.3)
                       (GLM.Vec3 0.6 0.6 0.6) 85 "glass".

Definition matteMaterial :=
  OBJECT_MATERIAL.make (GLM.Vec3 0.2 0.2 0.2) 0.2 (GLM.Vec3 0.1 0.1 0.1)
                       (GLM.Vec3 0 0 0) 0 "matteFinish".

Definition DefineObjectMaterials : M unit :=
  update_self (push_back plasticMaterial) ;;
  update_self (push_back metalMaterial) ;;
  update_self (push_back clothMaterial) ;;
  update_self (push_back glassMaterial) ;;
  update_self (push_back matteMaterial).

(** [SetupSceneLights] uses the shader manager without a null check. *)
Definition SetupSceneLights : M unit :=
  shader (setBoolValue g_UseLightingName true) ;;
  shader (setVec3Value "lightSources[0].position" (GLM.Vec3 7.75 10 (-17.75))) ;;
  shader (setVec3Value "lightSources[0].ambientColor" (GLM.Vec3 0.1 0.1 0.1)) ;;
  shader (setVec3Value "lightSources[0].diffuseColor" (GLM.Vec3 0.5 0.5 0.5)) ;;
  shader (setVec3Value "lightSources[0].specularColor" (GLM.Vec3 0.4 0.4 0.4)) ;;
  shader (setFloatValue "lightSources[0].focalStrength" 32) ;;
  shader (setFloatValue "lightSources[0].specularIntensity" 0.7) ;;
  shader (setVec3Value "lightSources[1].position" (GLM.Vec3 13 10 6)) ;;
  shader (setVec3Value "lightSources[1].ambientColor" (GLM.Vec3 0 0 0)) ;;
  shader (setVec3Value "lightSources[1].diffuseColor" (GLM.Vec3 0.5 0.5 0.5)) ;;
  shader (setVec3Value "lightSources[1].specularColor" (GLM.Vec3 0.2 0.2 0.2)) ;;
  shader (setFloatValue "lightSources[1].focalStrength" 32) ;;
  shader (setFloatValue "lightSources[1].specularIntensity" 0.2) ;;
  shader (setVec3Value "lightSources[2].position" (GLM.Vec3 (-20) 10 2)) ;;
  shader (setVec3Value "lightSources[2].ambientColor" (GLM.Vec3 0 0 0)) ;;
  shader (setVec3Value "lightSources[2].diffuseColor" (GLM.Vec3 0 0 0)) ;;
  shader (setVec3Value "lightSources[2].specularColor" (GLM.Vec3 0 0 0)) ;;
  shader (setFloatValue "lightSources[2].focalStrength" 12) ;;
  shader (setFloatValue "lightSources[2].specularIntensity" 0.2) ;;
  shader (setVec3Value "lightSources[3].position" (GLM.Vec3 0 32 32)) ;;
  shader (setVec3Value "lightSources[3].ambientColor" (GLM.Vec3 0.2 0.2 0.2)) ;;
  shader (setVec3Value "lightSources[3].diffuseColor" (GLM.Vec3 0.5 0.5 0.5)) ;;
  shader (setVec3Value "lightSources[3].specularColor" (GLM.Vec3 0.6 0.6 0.1)) ;;
  shader (setFloatValue "lightSources[3].focalStrength" 3) ;;
  shader (setFloatValue "lightSources[3].specularIntensity" 0.5).

Definition PrepareScene (env : Env) : M unit :=
  LoadSceneTextures env ;;
  DefineObjectMaterials ;;
  SetupSceneLights ;;
  meshes (LoadMesh Box) ;;
  meshes (LoadMesh Plane) ;;
  meshes (LoadMesh Cylinder) ;;
  meshes (LoadMesh Cone) ;;
  meshes (LoadMesh Prism) ;;
  meshes (LoadMesh Pyramid4) ;;
  meshes (LoadMesh Sphere) ;;
  meshes (LoadMesh TaperedCylinder) ;;
  meshes (LoadMesh Torus).

(* ================================================================== *)
(** ** The render phase *)
(* ================================================================== *)

(** The render routines are straight-line sequences of calls with constant
    arguments (every part re-assigns all five transform variables before
    it calls [SetTransformations]).  Each routine is kept as the list of
    its calls, in source order, and run by [perform]. *)
Inductive call :=
| call_SetTransformations (scaleXYZ : GLM.vec3)
    (XrotationDegrees YrotationDegrees ZrotationDegrees : Binary32.float)
    (positionXYZ : GLM.vec3)
| call_SetShaderColor (r g b a : Binary32.float)
| call_SetShaderTexture (textureTag : string)
| call_SetTextureUVScale (u v : Binary32.float)
| call_SetShaderMaterial (materialTag : string)
| call_Draw (m : mesh).

Definition exec {libm : Libm} (c : call) : M unit :=
  match c with
  | call_SetTransformations s rx ry rz p => SetTransformations s rx ry rz p
  | call_SetShaderColor r g b a => SetShaderColor r g b a
  | call_SetShaderTexture t => SetShaderTexture t
  | call_SetTextureUVScale u v => SetTextureUVScale u v
  | call_SetShaderMaterial t => SetShaderMaterial t
  | call_Draw m => meshes (DrawMesh m)
  end.

Fixpoint perform {libm : Libm} (cs : list call) : M unit :=
  match cs with
  | [] => ret tt
  | c :: cs' => exec c ;; perform cs'
  end.

Definition RenderDesktop_calls : list call :=
  [ call_SetTransformations (GLM.Vec3 20 1 30) 0 (-25) 0
                            (GLM.Vec3 10 (-1) 0);
    call_SetShaderTexture "marble";
    call_SetTextureUVScale 1 1;
    call_SetShaderTexture "glass";
    call_Draw Plane ].

Definition RenderLegoMan_calls : list call :=
  [ (* L Leg *)
    call_SetTransformations (GLM.Vec3 1.75 2.7 1.5) 0 0 0
                            (GLM.Vec3 (-0.2) 0.4 0);
    call_SetShaderMaterial "cloth";
    call_SetShaderTexture "leg";
    call_Draw Box;
    (* R Leg *)
    call_SetTransformations (GLM.Vec3 1.75 2.7 1.5) 0 0 0
                            (GLM.Vec3 (-2.2) 0.4 0);
    call_SetShaderMaterial "cloth";
    call_SetShaderTexture "leg";
    call_Draw Box;
    (* Hip *)
    call_SetTransformations (GLM.Vec3 4.2 1 1.7) 180 0 0
                            (GLM.Vec3 (-1.25) 2.05 0);
    call_SetShaderMaterial "cloth";
    call_SetShaderTexture "leg";
    call_Draw Box;
    (* Body *)
    call_SetTransformations (GLM.Vec3 2.25 4 1.25) 0 180 0
                            (GLM.Vec3 (-1.25) 2.5 0);
    call_SetShaderMaterial "cloth";
    call_SetShaderTexture "body";
    call_Draw Cylinder;
    (* Neck *)
    call_SetTransformations (GLM.Vec3 2.25 0.1 1.25) 0 0 0
                            (GLM.Vec3 (-1.25) 6.5 0);
    call_SetShaderColor 0.2 0.2 0.2 1;
    call_SetShaderMaterial "plastic";
    call_Draw Cylinder;
    (* Shoulders *)
    call_SetTransformations (GLM.Vec3 0.5 0.5 0.5) 0 0 0
                            (GLM.Vec3 (-1.25) 6.5 0);
    call_SetShaderColor 0.2 0.2 0.2 1;
    call_SetShaderMaterial "plastic";
    call_Draw Cylinder;
    (* Head *)
    call_SetTransformations (GLM.Vec3 1.5 1.75 1.5) 0 0 0
                            (GLM.Vec3 (-1.25) 8.5 0);
    call_SetShaderMaterial "cloth";
    call_SetShaderTexture "face";
    call_Draw Sphere;
    (* L Arm *)
    call_SetTransformations (GLM.Vec3 0.5 3.5 0.5) 0 180 (-10)
                            (GLM.Vec3 1.5 3 0);
    call_SetShaderTexture "arm";
    call_Draw Cylinder;
    (* R Arm *)
    call_SetTransformations (GLM.Vec3 0.5 3.5 0.5) (-30) 0 (-10)
                            (GLM.Vec3 (-4) 3 1.7);
    call_SetShaderTexture "arm";
    call_Draw Cylinder;
    (* L Hand *)
    call_SetTransformations (GLM.Vec3 0.7 0.7 0.7) 0 0 0
                            (GLM.Vec3 1.6 2.5 0);
    call_SetShaderColor 0.2 0.2 0.2 1;
    call_SetShaderMaterial "plastic";
    call_Draw Sphere;
    (* R Hand *)
    call_SetTransformations (GLM.Vec3 0.7 0.7 0.7) 0 0 0
                            (GLM.Vec3 (-4.1) 2.5 2.1);
    call_SetShaderColor 0.2 0.2 0.2 1;
    call_Draw Sphere ].

Definition RenderSodaCan_calls : list call :=
  [ (* Soda body *)
    call_SetTransformations (GLM.Vec3 3.5 9 3.5) 0 0 0
                            (GLM.Vec3 10 (-0.9) 10);
    call_SetShaderColor 1 1 0 1;
    call_SetShaderMaterial "plastic";
    call_SetShaderTexture "can";
    call_Draw Cylinder;
    (* Soda rim *)
    call_SetTransformations (GLM.Vec3 3.5 0.1 3.5) 0 0 0
                            (GLM.Vec3 10 8.1 10);
    call_SetShaderColor 0.7 0.7 0.7 1;
    call_SetShaderMaterial "metal";
    call_Draw TaperedCylinder ].

Definition RenderHeadPhones_calls : list call :=
  [ (* Headphone body *)
    call_SetTransformations (GLM.Vec3 5 16 7) 90 (-7.5) 255
                            (GLM.Vec3 10 2.75 (-3));
    call_SetShaderColor 1 1 1 1;
    call_SetShaderMaterial "matteFinish";
    call_Draw HalfTorus;
    (* L earpiece *)
    call_SetTransformations (GLM.Vec3 3.15 3.15 3.15) 0 90 90
                            (GLM.Vec3 9 2.25 (-0.25));
    call_SetShaderColor 1 1 1 1;
    call_SetShaderMaterial "matteFinish";
    call_Draw Cylinder;
    (* R earpiece *)
    call_SetTransformations (GLM.Vec3 3.15 3.15 3.15) 0 115 90
                            (GLM.Vec3 6 2.25 (-7.75));
    call_SetShaderColor 1 1 1 1;
    call_SetShaderMaterial "matteFinish";
    call_Draw Cylinder ].

Definition RenderLampBase_calls : list call :=
  [ (* base of the base *)
    call_SetTransformations (GLM.Vec3 15 1.5 10.5) 0 0 0
                            (GLM.Vec3 7.75 0 (-17.75));
    call_SetShaderColor 0.1 0.1 0.2 1;
    call_SetShaderMaterial "plastic";
    call_Draw Box;
    (* upper box *)
    call_SetTransformations (GLM.Vec3 4.5 4.5 8.25) 0 0 0
                            (GLM.Vec3 2.5 1.5 (-18.9));
    call_SetShaderColor 0.1 0.1 0.2 1;
    call_SetShaderMaterial "plastic";
    call_Draw Box;
    (* triangular part *)
    call_SetTransformations (GLM.Vec3 4.5 4.5 4.5) (-90) 0 90
                            (GLM.Vec3 2.5 1.5 (-14.77));
    call_SetShaderColor 0.1 0.1 0.2 1;
    call_SetShaderMaterial "plastic";
    call_Draw Prism ].

Definition RenderDesktop {libm : Libm} : M unit := perform RenderDesktop_calls.
Definition RenderLegoMan {libm : Libm} : M unit := perform RenderLegoMan_calls.
Definition RenderSodaCan {libm : Libm} : M unit := perform RenderSodaCan_calls.
Definition RenderHeadPhones {libm : Libm} : M unit := perform RenderHeadPhones_calls.
Definition RenderLampBase {libm : Libm} : M unit := perform RenderLampBase_calls.

Definition RenderScene {libm : Libm} : M unit :=
  RenderDesktop ;;
  RenderLegoMan ;;
  RenderSodaCan ;;
  RenderHeadPhones ;;
  RenderLampBase.

(** All calls of one [RenderScene] invocation, in order. *)
Definition RenderScene_calls : list call :=
  RenderDesktop_calls ++ RenderLegoMan_calls ++ RenderSodaCan_calls ++
  RenderHeadPhones_calls ++ RenderLampBase_calls.

(* ================================================================== *)
(** ** Vocabulary of the properties *)
(* ================================================================== *)

(** No material of the list carries the tag. *)
Definition undefined_tag (tag : string) (l : list OBJECT_MATERIAL.t) : Prop :=
  forall m, In m l -> OBJECT_MATERIAL.tag m <> tag.

(** The registered part of the texture array: its first
    [m_loadedTextures] slots. *)
Definition registered (s : SceneManager) : list TEXTURE_INFO.t :=
  firstn (Z.to_nat (m_loadedTextures s)) (m_textureIDs s).

(** The counter stays within the array. *)
Definition registry_ok (s : SceneManager) : Prop :=
  0 <= m_loadedTextures s <= Z.of_nat (List.length (m_textureIDs s)).

(** No registered texture carries the tag. *)
Definition absent_tag (tag : string) (s : SceneManager) : Prop :=
  forall e, In e (registered s) -> TEXTURE_INFO.tag e <> tag.

(** First entry of a list carrying the tag, with its position. *)
Fixpoint first_match (tag : string) (l : list TEXTURE_INFO.t)
  : option (nat * TEXTURE_INFO.t) :=
  match l with
  | [] => None
  | e :: l' =>
      if (TEXTURE_INFO.tag e =? tag)%string then Some (O, e)
      else match first_match tag l' with
           | Some (j, e') => Some (S j, e')
           | None => None
           end
  end.

(** The state after the three registering statements of a successful
    [CreateGLTexture]. *)
Definition registered_state (tag : string) (h : GLuint) (s : SceneManager)
  : SceneManager :=
  set_textures
    (store (m_textureIDs s) (Z.to_nat (m_loadedTextures s)) (TEXTURE_INFO.make tag h))
    (m_loadedTextures s + 1) s.

(** A sequence of [CreateGLTexture] calls, given as (file, tag) pairs,
    with the flags they return. *)
Fixpoint load_all (env : Env) (loads : list (string * string)) : M (list bool) :=
  match loads with
  | [] => ret []
  | (filename, tag) :: rest =>
      b <- CreateGLTexture env filename tag ;;
      bs <- load_all env rest ;;
      ret (b :: bs)
  end.

(** The entries that successive successful loads write when the driver
    has handed out [g] names before. *)
Fixpoint loaded_entries (env : Env) (g : nat) (loads : list (string * string))
  : list TEXTURE_INFO.t :=
  match loads with
  | [] => []
  | (_, tag) :: rest =>
      TEXTURE_INFO.make tag (gl_fresh env g) :: loaded_entries env (S g) rest
  end.

(** The world a computation ends in ([w0] when it does not end). *)
Definition final_world {A} (o : outcome (A * World * list event)) (w0 : World)
  : World :=
  match o with
  | Done (_, w, _) => w
  | Undefined _ => w0
  end.

(** The calls a computation issued (none when it does not end). *)
Definition issued {A} (o : outcome (A * World * list event)) : list event :=
  match o with
  | Done (_, _, tr) => tr
  | Undefined _ => []
  end.

(** A small outside world for examples: "gray.png" decodes to one
    channel, "missing.png" does not decode, every other file is RGB; the
    driver numbers its textures 1, 2, 3, ... *)
Definition example_env : Env :=
  {| stbi_load := fun filename =>
       if (filename =? "gray.png")%string
       then Some {| width := 8; height := 8; colorChannels := 1 |}
       else if (filename =? "missing.png")%string then None
       else Some {| width := 64; height := 64; colorChannels := 3 |};
     gl_fresh := fun n => Z.of_nat n + 1 |}.

(** A C library for examples.  At the angles the render routines pass,
    converted by [GLM.radians], and at a few more, [cosf] and [sinf]
    answer with the float nearest to the cosine and the sine, as the C
    library does there; the examples use no other argument, where both
    answer NaN. *)
Definition at_degrees (degrees c s : Binary32.float)
  : Binary32.float * (Binary32.float * Binary32.float) :=
  (GLM.radians degrees, (c, s)).

Definition libm_table : list (Binary32.float * (Binary32.float * Binary32.float)) :=
  [ at_degrees 0 1 0;
    at_degrees (-25) 0.906307757 (-0.42261827);
    at_degrees 180 (-1) (-8.74227766e-08);
    at_degrees (-10) 0.98480773 (-0.173648179);
    at_degrees (-30) 0.866025388 (-0.5);
    at_degrees 90 (-4.37113883e-08) 1;
    at_degrees (-7.5) 0.991444886 (-0.1305262);
    at_degrees 255 (-0.258818984) (-0.965925872);
    at_degrees 115 (-0.42261833) 0.906307757;
    at_degrees (-90) (-4.37113883e-08) (-1);
    at_degrees 45 0.707106769 0.707106769;
    at_degrees 360 1 1.74845553e-07 ].

Fixpoint tabulated (l : list (Binary32.float * (Binary32.float * Binary32.float)))
    (x : Binary32.float) : Binary32.float * Binary32.float :=
  match l with
  | [] => (S754_nan, S754_nan)
  | (a, cs) :: l' => if Binary32.same_bits a x then cs else tabulated l' x
  end.

Definition example_libm : Libm :=
  {| cosf := fun x => fst (tabulated libm_table x);
     sinf := fun x => snd (tabulated libm_table x) |}.

Definition example_start : World :=
  {| this := SceneManager_ctor (Some 1%positive) 1%positive; gl_generated := 0 |}.

Definition example_loads : list (string * string) :=
  [("marble.jpg", "marble"); ("glass.jpg", "glass"); ("can.jpg", "can")].

(** Some material of the list carries the tag. *)
Definition defined_tag (tag : string) (l : list OBJECT_MATERIAL.t) : Prop :=
  exists m, In m l /\ OBJECT_MATERIAL.tag m = tag.

(** A render call whose material tag, if it names one, is defined. *)
Definition call_ok (s : SceneManager) (c : call) : Prop :=
  match c with
  | call_SetShaderMaterial tag => defined_tag tag (m_objectMaterials s)
  | _ => True
  end.

(** A prepared scene: both collaborators are attached, the texture
    counter is within the array, and every material the render phase asks
    for is defined.  [PrepareScene] establishes it. *)
Definition prepared (w : World) : Prop :=
  m_pShaderManager (this w) <> None /\
  m_basicMeshes (this w) <> None /\
  registry_ok (this w) /\
  Forall (call_ok (this w)) RenderScene_calls.

(** The tags [LoadSceneTextures] may register. *)
Definition scene_texture_tags : list string :=
  ["marble"; "face"; "body"; "arm"; "leg"; "can"].

(** *** The draw-preparation invariant *)

(** What a step of a render trace is, as far as the invariant goes. *)
Inductive step_kind := TransformPush | SurfacePush | DrawStep | OtherStep.

(** Calls of the composer: [SetTransformations] is the transform push;
    [SetShaderMaterial], [SetShaderTexture], [SetShaderColor] are the
    material, texture and flat-colour pushes. *)
Definition call_kind (c : call) : step_kind :=
  match c with
  | call_SetTransformations _ _ _ _ _ => TransformPush
  | call_SetShaderColor _ _ _ _ => SurfacePush
  | call_SetShaderTexture _ => SurfacePush
  | call_SetShaderMaterial _ => SurfacePush
  | call_SetTextureUVScale _ _ => OtherStep
  | call_Draw _ => DrawStep
  end.

(** Calls that reach the shader manager and the mesh library: the write
    of the "model" matrix is the transform push; the writes of the
    material members, of the texture sampler and of the object colour are
    the material, texture and flat-colour pushes. *)
Definition event_kind (e : event) : step_kind :=
  match e with
  | setMat4Value name _ =>
      if (name =? g_ModelName)%string then TransformPush else OtherStep
  | setVec3Value name _ =>
      if String.prefix "material." name then SurfacePush else OtherStep
  | setFloatValue name _ =>
      if String.prefix "material." name then SurfacePush else OtherStep
  | setSampler2DValue name _ =>
      if (name =? g_TextureValueName)%string then SurfacePush else OtherStep
  | setVec4Value name _ =>
      if (name =? g_ColorValueName)%string then SurfacePush else OtherStep
  | DrawMesh _ => DrawStep
  | _ => OtherStep
  end.

(** The kinds of the calls a render call issues in a prepared scene. *)
Definition emitted_kinds (c : call) : list step_kind :=
  match c with
  | call_SetTransformations _ _ _ _ _ => [TransformPush]
  | call_SetShaderColor _ _ _ _ => [OtherStep; SurfacePush]
  | call_SetShaderTexture _ => [OtherStep; SurfacePush]
  | call_SetShaderMaterial _ =>
      [SurfacePush; SurfacePush; SurfacePush; SurfacePush; SurfacePush]
  | call_SetTextureUVScale _ _ => [OtherStep]
  | call_Draw _ => [DrawStep]
  end.

(** Every draw is preceded, since the previous draw (or the start), by a
    transform push and, after it, by a material, texture or colour push. *)
Definition draw_prepared (ks : list step_kind) : Prop :=
  forall i, nth_error ks i = Some DrawStep ->
    exists j k, (j < k < i)%nat /\
      nth_error ks j = Some TransformPush /\
      nth_error ks k = Some SurfacePush /\
      forall d, (j <= d < i)%nat -> nth_error ks d <> Some DrawStep.

(** A one-pass check of the invariant: what has been seen since the last
    draw. *)
Inductive phase := Fresh | Transformed | Ready.

Fixpoint scan (st : phase) (ks : list step_kind) : bool :=
  match ks with
  | [] => true
  | k :: ks' =>
      match k, st with
      | TransformPush, Fresh => scan Transformed ks'
      | TransformPush, _ => scan st ks'
      | SurfacePush, Transformed => scan Ready ks'
      | SurfacePush, _ => scan st ks'
      | DrawStep, Ready => scan Fresh ks'
      | DrawStep, _ => false
      | OtherStep, _ => scan st ks'
      end
  end.

(** The parts of the state the render phase reads. *)
Definition registries (w : World)
  : list TEXTURE_INFO.t * Z * list OBJECT_MATERIAL.t :=
  (m_textureIDs (this w), m_loadedTextures (this w), m_objectMaterials (this w)).

(** While [LoadSceneTextures] runs on a scene manager that started as
    [s0]: at most [k] textures are registered, all with tags from
    [allowed], and nothing else has changed. *)
Definition loading (allowed : list string) (s0 : SceneManager) (k : Z)
    (s : SceneManager) : Prop :=
  m_pShaderManager s = m_pShaderManager s0 /\
  m_basicMeshes s = m_basicMeshes s0 /\
  m_objectMaterials s = m_objectMaterials s0 /\
  List.length (m_textureIDs s) = List.length (m_textureIDs s0) /\
  0 <= m_loadedTextures s <= k /\
  forall e, In e (registered s) -> In (TEXTURE_INFO.tag e) allowed.

(** The example world after [PrepareScene]. *)
Definition example_prepared : World :=
  final_world (PrepareScene example_env example_start) example_start.

(** The sampler indices a trace binds, in order. *)
Fixpoint samplers (tr : list event) : list Z :=
  match tr with
  | [] => []
  | setSampler2DValue _ i :: tr' => i :: samplers tr'
  | _ :: tr' => samplers tr'
  end.

(** The meshes a trace draws, in order. *)
Fixpoint drawn (tr : list event) : list mesh :=
  match tr with
  | [] => []
  | DrawMesh m :: tr' => m :: drawn tr'
  | _ :: tr' => drawn tr'
  end.

(* ================================================================== *)
(** ** Vocabulary of the further properties *)
(* ================================================================== *)

(** The driver calls of [BindGLTextures] for the entries [l], the first
    of them going to texture unit [i]. *)
Fixpoint binding_calls (i : Z) (l : list TEXTURE_INFO.t) : list event :=
  match l with
  | [] => []
  | e :: l' =>
      glActiveTexture i :: glBindTexture (TEXTURE_INFO.ID e)
        :: binding_calls (i + 1) l'
  end.

(** The file decodes at all. *)
Definition decodes (env : Env) (filename : string) : bool :=
  match stbi_load env filename with
  | Some _ => true
  | None => false
  end.

(** The file decodes to an RGB or RGBA image: the case in which
    [CreateGLTexture] goes on to register it. *)
Definition loadable (env : Env) (filename : string) : bool :=
  match stbi_load env filename with
  | Some img => (colorChannels img =? 3) || (colorChannels img =? 4)
  | None => false
  end.

Definition loadable_load (env : Env) (l : string * string) : bool :=
  loadable env (fst l).

(** The entries a sequence of loads writes, failed loads included, when
    the driver has handed out [g] names before: an image with an
    unsupported channel count still takes a name. *)
Fixpoint written_entries (env : Env) (g : nat) (loads : list (string * string))
  : list TEXTURE_INFO.t :=
  match loads with
  | [] => []
  | (filename, tag) :: rest =>
      if loadable env filename
      then TEXTURE_INFO.make tag (gl_fresh env g) :: written_entries env (S g) rest
      else if decodes env filename then written_entries env (S g) rest
      else written_entries env g rest
  end.

(** The names the driver has handed out after the sequence. *)
Fixpoint names_after (env : Env) (g : nat) (loads : list (string * string)) : nat :=
  match loads with
  | [] => g
  | (filename, _) :: rest =>
      names_after env (if decodes env filename then S g else g) rest
  end.

(** The six calls of [LoadSceneTextures]. *)
Definition scene_loads : list (string * string) :=
  [("../../Utilities/textures/marble.jpg", "marble");
   ("../../Utilities/textures/superhero-face.jpg", "face");
   ("../../Utilities/textures/superhero-body.jpg", "body");
   ("../../Utilities/textures/superhero-arm.jpg", "arm");
   ("../../Utilities/textures/superhero-leg.jpg", "leg");
   ("../../Utilities/textures/soda-can.jpg", "can")].

(** The five materials of [DefineObjectMaterials], in definition order. *)
Definition scene_materials : list OBJECT_MATERIAL.t :=
  [plasticMaterial; metalMaterial; clothMaterial; glassMaterial; matteMaterial].

(** The entries of the registered part after [DestroyGLTextures]: same
    tags, names replaced by the driver's next ones. *)
Fixpoint renamed (env : Env) (g : nat) (l : list TEXTURE_INFO.t)
  : list TEXTURE_INFO.t :=
  match l with
  | [] => []
  | e :: l' =>
      TEXTURE_INFO.make (TEXTURE_INFO.tag e) (gl_fresh env g) :: renamed env (S g) l'
  end.

(** The names [glGenTextures] returned in a trace. *)
Fixpoint generated (tr : list event) : list GLuint :=
  match tr with
  | [] => []
  | glGenTextures name :: tr' => name :: generated tr'
  | _ :: tr' => generated tr'
  end.

(** The meshes a trace loads, in order. *)
Fixpoint loaded_meshes (tr : list event) : list mesh :=
  match tr with
  | [] => []
  | LoadMesh m :: tr' => m :: loaded_meshes tr'
  | _ :: tr' => loaded_meshes tr'
  end.

(** *** What a frame sets before each draw *)

(** A shader write or a draw, as far as the per-draw state goes. *)
Inductive frame_step :=
| ModelWrite
| ModeWrite (textured : Z)
| SamplerWrite (index : Z)
| ColorWrite
| MaterialWrite
| UVWrite
| MeshDraw (m : mesh)
| Unrelated.

Definition frame_step_of (e : event) : frame_step :=
  match e with
  | setMat4Value name _ =>
      if (name =? g_ModelName)%string then ModelWrite else Unrelated
  | setIntValue name v =>
      if (name =? g_UseTextureName)%string then ModeWrite v else Unrelated
  | setSampler2DValue name i =>
      if (name =? g_TextureValueName)%string then SamplerWrite i else Unrelated
  | setVec4Value name _ =>
      if (name =? g_ColorValueName)%string then ColorWrite else Unrelated
  | setVec3Value name _ =>
      if String.prefix "material." name then MaterialWrite else Unrelated
  | setFloatValue name _ =>
      if String.prefix "material." name then MaterialWrite else Unrelated
  | setVec2Value name _ =>
      if (name =? "UVscale")%string then UVWrite else Unrelated
  | DrawMesh m => MeshDraw m
  | _ => Unrelated
  end.

(** The slot [SetShaderTexture] pushes for a tag. *)
Definition pushed_slot (s : SceneManager) (tag : string) : Z :=
  match FindTextureSlot tag s with
  | Done i => i
  | Undefined _ => -1
  end.

(** The steps a render call issues in a prepared scene. *)
Definition issued_steps (s : SceneManager) (c : call) : list frame_step :=
  match c with
  | call_SetTransformations _ _ _ _ _ => [ModelWrite]
  | call_SetShaderColor _ _ _ _ => [ModeWrite 0; ColorWrite]
  | call_SetShaderTexture tag => [ModeWrite 1; SamplerWrite (pushed_slot s tag)]
  | call_SetTextureUVScale _ _ => [UVWrite]
  | call_SetShaderMaterial _ =>
      [MaterialWrite; MaterialWrite; MaterialWrite; MaterialWrite; MaterialWrite]
  | call_Draw m => [MeshDraw m]
  end.

(** The texture mode in force at each draw: the last value written to
    "bUseTexture" since the previous draw, [None] when the draw relies on
    what an earlier part left. *)
Fixpoint modes_at_draws (since : option Z) (l : list frame_step)
  : list (option Z) :=
  match l with
  | [] => []
  | ModeWrite v :: l' => modes_at_draws (Some v) l'
  | MeshDraw _ :: l' => since :: modes_at_draws None l'
  | _ :: l' => modes_at_draws since l'
  end.

(** For each draw, whether a material member was written since the
    previous draw. *)
Fixpoint material_at_draws (since : bool) (l : list frame_step) : list bool :=
  match l with
  | [] => []
  | MaterialWrite :: l' => material_at_draws true l'
  | MeshDraw _ :: l' => since :: material_at_draws false l'
  | _ :: l' => material_at_draws since l'
  end.

(** The meshes drawn by a sequence of steps. *)
Fixpoint step_draws (l : list frame_step) : list mesh :=
  match l with
  | [] => []
  | MeshDraw m :: l' => m :: step_draws l'
  | _ :: l' => step_draws l'
  end.

(** *** The model matrix *)


(** A [mat4] equals a real matrix exactly: each of its sixteen entries
    is finite and stands for the entry of the real matrix. *)
Definition exact (m : GLM.mat4) (E : MatrixSpec.matrix) : Prop :=
  forall i j, (i < 4)%nat -> (j < 4)%nat ->
    Binary32.finite (GLM.entry m i j) = true /\
    Binary32.real (GLM.entry m i j) = E i j.

(** A finite [float] value of the format, and a vector of three. *)
Definition fin (x : Binary32.float) : Prop :=
  Binary32.binary32 x /\ Binary32.finite x = true.

Definition finite3 (v : GLM.vec3) : Prop :=
  fin (GLM.x3 v) /\ fin (GLM.y3 v) /\ fin (GLM.z3 v).

(** Two [float] values that are equal, or both zero: the sign of a zero
    does not show in the number it stands for. *)
Definition same (x y : Binary32.float) : Prop :=
  x = y \/ (Binary32.is_zero x = true /\ Binary32.is_zero y = true).

Definition same4 (a b : GLM.vec4) : Prop :=
  same (GLM.x4 a) (GLM.x4 b) /\ same (GLM.y4 a) (GLM.y4 b) /\
  same (GLM.z4 a) (GLM.z4 b) /\ same (GLM.w4 a) (GLM.w4 b).

Definition same_matrix (A B : GLM.mat4) : Prop :=
  same4 (GLM.col0 A) (GLM.col0 B) /\ same4 (GLM.col1 A) (GLM.col1 B) /\
  same4 (GLM.col2 A) (GLM.col2 B) /\ same4 (GLM.col3 A) (GLM.col3 B).

Definition fin4 (a : GLM.vec4) : Prop :=
  fin (GLM.x4 a) /\ fin (GLM.y4 a) /\ fin (GLM.z4 a) /\ fin (GLM.w4 a).

Definition fin_matrix (A : GLM.mat4) : Prop :=
  fin4 (GLM.col0 A) /\ fin4 (GLM.col1 A) /\ fin4 (GLM.col2 A) /\ fin4 (GLM.col3 A).

(** *** The shape of the model matrix *)

(** The value [SetTransformations] computes for [modelView]. *)
Definition model_matrix {libm : Libm} (scaleXYZ : GLM.vec3)
    (XrotationDegrees YrotationDegrees ZrotationDegrees : Binary32.float)
    (positionXYZ : GLM.vec3) : GLM.mat4 :=
  GLM.mul
    (GLM.mul
       (GLM.mul
          (GLM.mul (GLM.translate positionXYZ)
                   (GLM.rotate (GLM.radians XrotationDegrees) (GLM.Vec3 1 0 0)))
          (GLM.rotate (GLM.radians YrotationDegrees) (GLM.Vec3 0 1 0)))
       (GLM.rotate (GLM.radians ZrotationDegrees) (GLM.Vec3 0 0 1)))
    (GLM.scale scaleXYZ).

(** No entry is infinite or NaN. *)
Definition finite4 (v : GLM.vec4) : bool :=
  Binary32.finite (GLM.x4 v) && Binary32.finite (GLM.y4 v) &&
  Binary32.finite (GLM.z4 v) && Binary32.finite (GLM.w4 v).

Definition finite_matrix (A : GLM.mat4) : bool :=
  finite4 (GLM.col0 A) && finite4 (GLM.col1 A) &&
  finite4 (GLM.col2 A) && finite4 (GLM.col3 A).

(** Nothing overflows on the way to [modelView]: the three rotation
    matrices and the products [translation * rotationX],
    [.. * rotationY], [.. * rotationZ] have finite entries. *)
Definition no_overflow {libm : Libm}
    (XrotationDegrees YrotationDegrees ZrotationDegrees : Binary32.float)
    (positionXYZ : GLM.vec3) : bool :=
  let rotationX := GLM.rotate (GLM.radians XrotationDegrees) (GLM.Vec3 1 0 0) in
  let rotationY := GLM.rotate (GLM.radians YrotationDegrees) (GLM.Vec3 0 1 0) in
  let rotationZ := GLM.rotate (GLM.radians ZrotationDegrees) (GLM.Vec3 0 0 1) in
  let translation := GLM.translate positionXYZ in
  finite_matrix rotationX && finite_matrix rotationY && finite_matrix rotationZ &&
  finite_matrix (GLM.mul translation rotationX) &&
  finite_matrix (GLM.mul (GLM.mul translation rotationX) rotationY) &&
  finite_matrix (GLM.mul (GLM.mul (GLM.mul translation rotationX) rotationY)
                         rotationZ).

(** Bottom row 0 0 0 1 (the zeros of either sign), and last column [t]
    above it. *)
Definition bottom_row (A : GLM.mat4) : Prop :=
  Binary32.is_zero (GLM.w4 (GLM.col0 A)) = true /\
  Binary32.is_zero (GLM.w4 (GLM.col1 A)) = true /\
  Binary32.is_zero (GLM.w4 (GLM.col2 A)) = true /\
  GLM.w4 (GLM.col3 A) = 1%f32.

Definition last_column (A : GLM.mat4) (t : GLM.vec3) : Prop :=
  same (GLM.x4 (GLM.col3 A)) (GLM.x3 t) /\
  same (GLM.y4 (GLM.col3 A)) (GLM.y3 t) /\
  same (GLM.z4 (GLM.col3 A)) (GLM.z3 t).

(** *** Orders of the rotation factors *)

(** [SetTransformations] multiplies the rotations about X, Y and Z in
    that order.  To compare it with the other five orders, the same
    product is written for an arbitrary order of the three axes. *)
Module Composition.
Import GLM.

Inductive axis := X | Y | Z.

Definition unit (a : axis) : vec3 :=
  match a with
  | X => Vec3 1 0 0
  | Y => Vec3 0 1 0
  | Z => Vec3 0 0 1
  end.

Definition angle (rx ry rz : Binary32.float) (a : axis) : Binary32.float :=
  match a with X => rx | Y => ry | Z => rz end.










(** The arguments of the [SetTransformations] calls of a call list. *)
Fixpoint transformations (cs : list call)
  : list (vec3 * Binary32.float * Binary32.float * Binary32.float * vec3) :=
  match cs with
  | [] => []
  | call_SetTransformations s rx ry rz t :: cs' =>
      (s, rx, ry, rz, t) :: transformations cs'
  | _ :: cs' => transformations cs'
  end.






End Composition.

(** Sixteen files that all load, for a registry filled to capacity. *)
Definition sixteen_loads : list (string * string) :=
  map (fun tag => ("texture.jpg", tag))
      ["t0"; "t1"; "t2"; "t3"; "t4"; "t5"; "t6"; "t7";
       "t8"; "t9"; "t10"; "t11"; "t12"; "t13"; "t14"; "t15"].

Definition example_full : World :=
  final_world (load_all example_env sixteen_loads example_start) example_start.

(* ================================================================== *)
(** * Properties *)
(* ================================================================== *)

Unset Implicit Arguments.

(** ** Literals and known values *)

Module Literals.
Import GLM.

(** The literals written without the [f] suffix in the source (the
    [shininess] of the five materials and the arguments of
    [SetShaderColor]) are [double]s that C++ converts to [float] where
    they are used.  The conversion gives the values the embedding writes
    as [float] literals. *)
Lemma double_literals :
  Binary64.to_float 12 = 12%f32 /\ Binary64.to_float 22 = 22%f32 /\
  Binary64.to_float 0.3 = 0.3%f32 /\ Binary64.to_float 85 = 85%f32 /\
  Binary64.to_float 0 = 0%f32 /\ Binary64.to_float 0.2 = 0.2%f32 /\
  Binary64.to_float 1 = 1%f32 /\ Binary64.to_float 0.7 = 0.7%f32 /\
  Binary64.to_float 0.1 = 0.1%f32.
Proof. repeat split; reflexivity. Qed.

(** The literals of the scene are values of the format. *)
Lemma scene_literals_binary32 :
  forallb (fun '(s, rx, ry, rz, t) =>
     forallb (valid_binary Binary32.prec Binary32.emax)
             [x3 s; y3 s; z3 s; rx; ry; rz; x3 t; y3 t; z3 t])
    (Composition.transformations RenderScene_calls) = true.
Proof. reflexivity. Qed.

(** The C library of the examples has an entry for every angle of the
    scene. *)
Lemma scene_angles_tabulated :
  forallb (fun '(_, rx, ry, rz, _) =>
     forallb (fun d => existsb (fun a => Binary32.same_bits a (radians d))
                               (map fst libm_table))
             [rx; ry; rz])
    (Composition.transformations RenderScene_calls) = true.
Proof. reflexivity. Qed.

(** [glm::radians] in binary32: 90 degrees are 1.5707964 radians, and a
    thousand million degrees are 17453292 radians. *)
Example radians_90 : radians 90 = 1.5707964%f32.
Proof. reflexivity. Qed.

Example radians_1e9 : radians 1e9 = 17453292%f32.
Proof. reflexivity. Qed.

(** The rotation by 90 degrees about X as GLM builds it: the cosine of
    1.5707964 is -4.371139e-8, one minus it rounds to 1, and their sum,
    the entry on the axis, is 0.99999994. *)
Example quarter_turn_about_X :
  @rotate example_libm (radians 90) (Vec3 1 0 0) =
  Mat4 (Vec4 0.99999994 0 0 0)
       (Vec4 0 (-4.371139e-8) 1 0)
       (Vec4 0 (-1) (-4.371139e-8) 0)
       (Vec4 0 0 0 1).
Proof. reflexivity. Qed.

(** The matrix of the desk plane (scale 20, 1, 30, turned by -25 degrees
    about Y, moved to 10, -1, 0), entry by entry. *)
Example desk_plane_matrix :
  @model_matrix example_libm (Vec3 20 1 30) 0 (-25) 0 (Vec3 10 (-1) 0) =
  Mat4 (Vec4 18.1261559 0 8.45236588 0)
       (Vec4 0 1 0 0)
       (Vec4 (-12.6785479) 0 27.1892319 0)
       (Vec4 10 (-1) 0 1).
Proof. reflexivity. Qed.

End Literals.

(** ** Transform builder *)

Module TransformBuilder.
Import Binary32 GLM MatrixSpec.

(** *** Exact cases of binary32 arithmetic *)

(** Multiplying by 1 returns the other factor: its mantissa is shifted
    left by the 23 zero bits of the mantissa of 1 and back. *)
Lemma mul_one_l_finite (s : bool) (m : positive) (e : Z) :
  bounded prec emax m e = true ->
  (1 * S754_finite s m e)%f32 = S754_finite s m e.
Proof.
  intros Hb. unfold bounded, canonical_mantissa in Hb.
  apply andb_prop in Hb. destruct Hb as [Hc He].
  apply Z.eqb_eq in Hc.
  unfold Binary32.mul. cbn [SFmul xorb Pos.mul].
  unfold binary_round_aux. unfold shr_fexp at 1.
  assert (Hd : forall p, Zdigits2 (Z.pos p~0) = Zdigits2 (Z.pos p) + 1)
    by (intros p; cbn; lia).
  rewrite !Hd. cbn [Zdigits2].
  replace (Z.pos (digits2_pos m) + 1 + 1 + 1 + 1 + 1 + 1 + 1 + 1 + 1 + 1 + 1 + 1
           + 1 + 1 + 1 + 1 + 1 + 1 + 1 + 1 + 1 + 1 + 1 + (-23 + e))
    with (Z.pos (digits2_pos m) + e) by lia.
  rewrite Hc.
  replace (e - (-23 + e)) with 23 by lia.
  cbn [shr shr_record_of_loc iter_pos shr_1 orb shr_m loc_of_shr_record
       round_nearest_even].
  replace (-23 + e + 23) with e by lia.
  unfold shr_fexp. cbn [Zdigits2]. rewrite Hc, Z.sub_diag.
  cbn [shr shr_record_of_loc shr_m]. rewrite He. reflexivity.
Qed.

Lemma mul_one_l (x : float) : binary32 x -> (1 * x)%f32 = x.
Proof.
  destruct x as [s | s | | s m e]; intros Hx; try reflexivity.
  apply mul_one_l_finite. exact Hx.
Qed.

Lemma mul_one_r (x : float) : binary32 x -> (x * 1)%f32 = x.
Proof.
  destruct x as [s | s | | s m e]; intros Hx;
    try (destruct s; reflexivity); try reflexivity.
  rewrite <- (mul_one_l_finite s m e Hx) at 2.
  unfold Binary32.mul. cbn [SFmul]. rewrite xorb_false_r, Pos.mul_comm, Z.add_comm.
  reflexivity.
Qed.

Lemma mul_zero_r (x z : float) :
  finite x = true -> is_zero z = true -> is_zero (x * z)%f32 = true.
Proof. destruct x, z; cbn; intros; congruence. Qed.

Lemma mul_zero_l (x z : float) :
  finite x = true -> is_zero z = true -> is_zero (z * x)%f32 = true.
Proof. destruct x, z; cbn; intros; congruence. Qed.

Lemma add_zeros (a b : float) :
  is_zero a = true -> is_zero b = true -> is_zero (a + b)%f32 = true.
Proof.
  destruct a as [[] | | |], b as [[] | | |]; cbn; intros; congruence.
Qed.

(** *** Equality up to the sign of zero *)

Lemma same_refl (x : float) : same x x.
Proof. left. reflexivity. Qed.


Lemma same_trans (x y z : float) : same x y -> same y z -> same x z.
Proof.
  intros [-> | [H1 H2]] [-> | [H3 H4]]; try (left; reflexivity);
    right; split; assumption.
Qed.

Lemma same_zeros (a b : float) :
  is_zero a = true -> is_zero b = true -> same a b.
Proof. intros; right; split; assumption. Qed.


Lemma same_mul (a a' b b' : float) :
  same a a' -> same b b' -> same (a * b)%f32 (a' * b')%f32.
Proof.
  intros [-> | [H1 H2]] [-> | [H3 H4]]; [left; reflexivity | | |].
  - destruct b as [[] | | |], b' as [[] | | |]; try discriminate;
      destruct a' as [[] | [] | | []]; cbn;
      first [left; reflexivity | right; split; reflexivity].
  - destruct a as [[] | | |], a' as [[] | | |]; try discriminate;
      destruct b' as [[] | [] | | []]; cbn;
      first [left; reflexivity | right; split; reflexivity].
  - destruct a as [[] | | |], a' as [[] | | |]; try discriminate;
      destruct b as [[] | | |], b' as [[] | | |]; try discriminate; cbn;
      first [left; reflexivity | right; split; reflexivity].
Qed.

Lemma add_zero_r (x v z : float) :
  same x v -> is_zero z = true -> same (x + z)%f32 v.
Proof.
  intros Hx Hz. apply same_trans with (y := x); [| exact Hx].
  destruct z as [sz | | |]; try discriminate.
  destruct x as [[] | [] | | ], sz; cbn;
    first [left; reflexivity | right; split; reflexivity].
Qed.

Lemma add_zero_l (x v z : float) :
  is_zero z = true -> same x v -> same (z + x)%f32 v.
Proof.
  intros Hz Hx. apply same_trans with (y := x); [| exact Hx].
  destruct z as [sz | | |]; try discriminate.
  destruct x as [[] | [] | | ], sz; cbn;
    first [left; reflexivity | right; split; reflexivity].
Qed.

Lemma same_finite (x y : float) : same x y -> finite x = finite y.
Proof.
  intros [-> | [H1 H2]]; [reflexivity |].
  destruct x, y; try discriminate; reflexivity.
Qed.


(** *** Sums of four products of which at most one is not zero *)

Lemma sum4_0 (p0 p1 p2 p3 v : float) :
  same p0 v -> is_zero p1 = true -> is_zero p2 = true -> is_zero p3 = true ->
  same (p0 + p1 + p2 + p3)%f32 v.
Proof. intros. repeat apply add_zero_r; assumption. Qed.

Lemma sum4_1 (p0 p1 p2 p3 v : float) :
  is_zero p0 = true -> same p1 v -> is_zero p2 = true -> is_zero p3 = true ->
  same (p0 + p1 + p2 + p3)%f32 v.
Proof. intros. do 2 (apply add_zero_r; [| assumption]). apply add_zero_l; assumption. Qed.

Lemma sum4_2 (p0 p1 p2 p3 v : float) :
  is_zero p0 = true -> is_zero p1 = true -> same p2 v -> is_zero p3 = true ->
  same (p0 + p1 + p2 + p3)%f32 v.
Proof.
  intros. apply add_zero_r; [| assumption].
  apply add_zero_l; [apply add_zeros |]; assumption.
Qed.

Lemma sum4_3 (p0 p1 p2 p3 v : float) :
  is_zero p0 = true -> is_zero p1 = true -> is_zero p2 = true -> same p3 v ->
  same (p0 + p1 + p2 + p3)%f32 v.
Proof.
  intros. apply add_zero_l; [repeat apply add_zeros |]; assumption.
Qed.

Lemma sum4_zero (p0 p1 p2 p3 v : float) :
  is_zero p0 = true -> is_zero p1 = true -> is_zero p2 = true ->
  is_zero p3 = true -> is_zero v = true ->
  same (p0 + p1 + p2 + p3)%f32 v.
Proof. intros. apply same_zeros; [repeat apply add_zeros |]; assumption. Qed.

Ltac zero :=
  first [ reflexivity
        | apply mul_zero_r; [assumption | reflexivity]
        | apply mul_zero_l; [assumption | reflexivity] ].

Ltac one :=
  first [ rewrite mul_one_l by assumption; apply same_refl
        | rewrite mul_one_r by assumption; apply same_refl
        | left; reflexivity ].

Ltac sum4 :=
  first [ apply sum4_0; [one | zero | zero | zero]
        | apply sum4_1; [zero | one | zero | zero]
        | apply sum4_2; [zero | zero | one | zero]
        | apply sum4_3; [zero | zero | zero | one]
        | apply sum4_zero; [zero | zero | zero | zero | reflexivity]
        | one
        | apply same_zeros; [zero | reflexivity] ].

(** *** The factors and the product when nothing rounds *)

(** Evaluate the matrix operations, leaving the arithmetic alone. *)
Ltac crunch :=
  cbv [same_matrix same4 fin_matrix fin4
       identity vadd vscale mul mul_col
       scale scale_m translate translate_m
       x3 y3 z3 x4 y4 z4 w4 col0 col1 col2 col3].





(** [glm::translate] and [glm::scale] of finite vectors are the
    translation and the scaling matrix. *)
Lemma translate_finite (tx ty tz : float) :
  fin tx -> fin ty -> fin tz ->
  same_matrix (translate (Vec3 tx ty tz))
              (Mat4 (Vec4 1 0 0 0) (Vec4 0 1 0 0) (Vec4 0 0 1 0) (Vec4 tx ty tz 1)).
Proof.
  intros [] [] []. crunch. repeat split; sum4.
Qed.











(** *** No float is the cosine of 45 degrees *)






(** What [SetTransformations] does with a shader manager attached, in
    GLM's own terms. *)
Lemma SetTransformations_attached {libm : Libm}
    (s : vec3) (rx ry rz : Binary32.float) (t : vec3) (w : World) (p : positive) :
  m_pShaderManager (this w) = Some p ->
  SetTransformations s rx ry rz t w =
    Done (tt, w,
          [setMat4Value g_ModelName
             (mul (mul (mul (mul (translate t) (rotate (radians rx) (Vec3 1 0 0)))
                            (rotate (radians ry) (Vec3 0 1 0)))
                       (rotate (radians rz) (Vec3 0 0 1)))
                  (scale s))]).
Proof.
  intros Hp. unfold SetTransformations.
  unfold bind, self, shader, bind, self, emit. rewrite Hp. cbn. rewrite Hp.
  reflexivity.
Qed.

(** *** What [SetTransformations] pushes *)




(** *** Bottom row and last column *)

(** A finite sum of three products with zero is zero. *)
Lemma zero_products (a b c : float) :
  finite (0 * a + 0 * b + 0 * c)%f32 = true ->
  is_zero (0 * a + 0 * b + 0 * c)%f32 = true.
Proof.
  destruct a as [[] | [] | | []], b as [[] | [] | | []], c as [[] | [] | | []];
    cbn; intros H; first [reflexivity | discriminate H].
Qed.

Lemma finite4_components (v : vec4) :
  finite4 v = true ->
  finite (x4 v) = true /\ finite (y4 v) = true /\
  finite (z4 v) = true /\ finite (w4 v) = true.
Proof.
  unfold finite4. intros H.
  apply andb_prop in H. destruct H as [H Hw].
  apply andb_prop in H. destruct H as [H Hz].
  apply andb_prop in H. destruct H as [Hx Hy]. repeat split; assumption.
Qed.

Lemma finite_matrix_columns (A : mat4) :
  finite_matrix A = true ->
  finite4 (col0 A) = true /\ finite4 (col1 A) = true /\
  finite4 (col2 A) = true /\ finite4 (col3 A) = true.
Proof.
  unfold finite_matrix. intros H.
  apply andb_prop in H. destruct H as [H H3].
  apply andb_prop in H. destruct H as [H H2].
  apply andb_prop in H. destruct H as [H0 H1]. repeat split; assumption.
Qed.

Ltac split_andb :=
  repeat match goal with
         | H : (_ && _)%bool = true |- _ => apply andb_prop in H; destruct H
         end.

(** Unpack the finiteness of a matrix given by its sixteen entries. *)
Ltac finite_entries H :=
  apply finite_matrix_columns in H; cbn [col0 col1 col2 col3] in H;
  let H0 := fresh in let H1 := fresh in let H2 := fresh in let H3 := fresh in
  destruct H as (H0 & H1 & H2 & H3);
  apply finite4_components in H0, H1, H2, H3;
  cbn [x4 y4 z4 w4] in H0, H1, H2, H3;
  decompose [and] H0; decompose [and] H1; decompose [and] H2; decompose [and] H3;
  clear H0 H1 H2 H3.

Lemma zero_binary32 (x : float) : is_zero x = true -> binary32 x.
Proof. destruct x; try discriminate. reflexivity. Qed.

Lemma add_zero_one (z : float) : is_zero z = true -> (z + 1)%f32 = 1%f32.
Proof. destruct z; try discriminate. reflexivity. Qed.

(** The bottom row 0 0 0 1 is kept by a product with a finite matrix
    that has it. *)
Lemma mul_bottom_row (A B : mat4) :
  bottom_row A -> bottom_row B -> finite_matrix B = true ->
  bottom_row (mul A B).
Proof.
  destruct A as [[a00 a10 a20 a30] [a01 a11 a21 a31]
                 [a02 a12 a22 a32] [a03 a13 a23 a33]],
           B as [[b00 b10 b20 b30] [b01 b11 b21 b31]
                 [b02 b12 b22 b32] [b03 b13 b23 b33]].
  unfold bottom_row. cbn [col0 col1 col2 col3 w4].
  intros (Ha0 & Ha1 & Ha2 & ->) (Hb0 & Hb1 & Hb2 & ->) HB.
  finite_entries HB.
  cbv [mul mul_col vadd vscale x4 y4 z4 w4 col0 col1 col2 col3].
  repeat split.
  - repeat apply add_zeros; try (apply mul_zero_l; assumption).
    rewrite mul_one_l by (apply zero_binary32; assumption). assumption.
  - repeat apply add_zeros; try (apply mul_zero_l; assumption).
    rewrite mul_one_l by (apply zero_binary32; assumption). assumption.
  - repeat apply add_zeros; try (apply mul_zero_l; assumption).
    rewrite mul_one_l by (apply zero_binary32; assumption). assumption.
  - apply add_zero_one.
    repeat apply add_zeros; apply mul_zero_l; assumption.
Qed.

(** The last column is kept by a product of a finite matrix with a
    matrix whose last column is 0 0 0 1. *)
Lemma mul_last_column (A B : mat4) (t : vec3) :
  last_column A t -> finite3 t -> finite_matrix A = true ->
  col3 B = Vec4 0 0 0 1 ->
  last_column (mul A B) t.
Proof.
  destruct A as [[a00 a10 a20 a30] [a01 a11 a21 a31]
                 [a02 a12 a22 a32] [a03 a13 a23 a33]],
           B as [B0 B1 B2 B3], t as [tx ty tz].
  unfold last_column, finite3, fin. cbn [col0 col1 col2 col3 x4 y4 z4 x3 y3 z3].
  intros (Hx & Hy & Hz) ((Vx & Fx) & (Vy & Fy) & (Vz & Fz)) HA ->.
  finite_entries HA.
  cbv [mul mul_col vadd vscale x4 y4 z4 w4 col0 col1 col2 col3].
  repeat split;
    (apply sum4_3; [zero | zero | zero |]);
    [ rewrite <- (mul_one_r tx Vx) | rewrite <- (mul_one_r ty Vy)
    | rewrite <- (mul_one_r tz Vz) ];
    (apply same_mul; [assumption | apply same_refl]).
Qed.

(** The translation matrix of a finite vector. *)
Lemma translate_shape (t : vec3) :
  finite3 t ->
  bottom_row (translate t) /\ last_column (translate t) t /\
  finite_matrix (translate t) = true.
Proof.
  destruct t as [tx ty tz]. intros Ht.
  pose proof Ht as ((Vx & Fx) & (Vy & Fy) & (Vz & Fz)).
  cbn [x3 y3 z3] in *.
  destruct (translate_finite tx ty tz) as (_ & _ & _ & Sx & Sy & Sz & Sw);
    try (split; assumption).
  cbn [col3 x4 y4 z4 w4] in Sx, Sy, Sz, Sw.
  split; [| split].
  - unfold bottom_row. repeat split; try reflexivity.
    destruct Sw as [Sw | [Sw _]]; [exact Sw |].
    cbv [translate translate_m identity vadd vscale x3 y3 z3 x4 y4 z4 w4
         col0 col1 col2 col3] in Sw |- *.
    rewrite add_zero_one; [reflexivity |].
    repeat apply add_zeros; apply mul_zero_l; first [assumption | reflexivity].
  - repeat split; assumption.
  - unfold finite_matrix, finite4.
    rewrite (same_finite _ _ Sx), (same_finite _ _ Sy), (same_finite _ _ Sz),
      (same_finite _ _ Sw), Fx, Fy, Fz. reflexivity.
Qed.

(** A rotation matrix has last column 0 0 0 1, and bottom row 0 0 0 1 if
    its entries are finite. *)
Lemma rotate_shape {libm : Libm} (a : float) (v : vec3) :
  col3 (rotate a v) = Vec4 0 0 0 1 /\
  (finite_matrix (rotate a v) = true -> bottom_row (rotate a v)).
Proof.
  split; [reflexivity |].
  unfold rotate, rotate_m. intros H.
  cbv zeta in H |- *.
  unfold bottom_row.
  cbv [identity vadd vscale x4 y4 z4 w4 col0 col1 col2 col3] in H |- *.
  unfold finite_matrix, finite4 in H.
  cbv [x4 y4 z4 w4 col0 col1 col2 col3] in H.
  split_andb.
  repeat split; try reflexivity; apply zero_products; assumption.
Qed.

(** The scaling matrix of a finite vector. *)
Lemma scale_shape (s : vec3) :
  finite3 s ->
  col3 (scale s) = Vec4 0 0 0 1 /\ bottom_row (scale s) /\
  finite_matrix (scale s) = true.
Proof.
  destruct s as [sx sy sz]. intros ((Vx & Fx) & (Vy & Fy) & (Vz & Fz)).
  cbn [x3 y3 z3] in *.
  split; [reflexivity |]. split.
  - unfold bottom_row.
    cbv [scale scale_m identity vscale x3 y3 z3 x4 y4 z4 w4 col0 col1 col2 col3].
    repeat split; try reflexivity; apply mul_zero_l; first [assumption | reflexivity].
  - unfold finite_matrix, finite4.
    cbv [scale scale_m identity vscale x3 y3 z3 x4 y4 z4 w4 col0 col1 col2 col3].
    rewrite !mul_one_l by assumption.
    destruct sx, sy, sz; try discriminate; reflexivity.
Qed.

(** *** Zero scale *)




(** *** Orders of the rotation factors *)















End TransformBuilder.



(** ** Null shader manager *)

Module NullGuard.

(** (C10) With a null shader-manager pointer, [SetTransformations],
    [SetShaderColor], [SetShaderTexture] and [SetTextureUVScale] finish
    normally (no null dereference), issue no call at all, in particular no
    shader-parameter write, and leave the whole state as it was. *)
Theorem null_shader_manager_guard {libm : Libm} (w : World) :
  m_pShaderManager (this w) = None ->
  (forall s rx ry rz t, SetTransformations s rx ry rz t w = Done (tt, w, [])) /\
  (forall r g b a, SetShaderColor r g b a w = Done (tt, w, [])) /\
  (forall tag, SetShaderTexture tag w = Done (tt, w, [])) /\
  (forall u v, SetTextureUVScale u v w = Done (tt, w, [])).
Proof.
  intros Hnull. repeat split; intros;
    unfold SetTransformations, SetShaderColor, SetShaderTexture,
      SetTextureUVScale, bind, self;
    rewrite Hnull; reflexivity.
Qed.

Lemma null_shader_manager_guard_witness :
  let w := {| this := SceneManager_ctor None 1%positive; gl_generated := 0 |} in
  SetShaderTexture "marble" w = Done (tt, w, []).
Proof.
  intros w.
  apply (proj1 (proj2 (proj2 (@null_shader_manager_guard example_libm w eq_refl)))).
Defined.

(** [SetShaderMaterial] is not guarded: once a material is defined, a null
    shader manager is dereferenced. *)
Lemma SetShaderMaterial_null_dereference :
  SetShaderMaterial "plastic"
    {| this := push_back plasticMaterial (SceneManager_ctor None 1%positive);
       gl_generated := 0 |}
  = Undefined NullPointerDereference.
Proof. reflexivity. Qed.

End NullGuard.

(** ** Material registry *)

Module MaterialRegistry.

Lemma FindMaterial_from_miss tag l material :
  undefined_tag tag l -> FindMaterial_from l tag material = material.
Proof.
  induction l as [| m l IH]; intros Hno; cbn; [reflexivity |].
  destruct (String.eqb_spec (OBJECT_MATERIAL.tag m) tag) as [E | _].
  - exfalso. apply (Hno m); [left; reflexivity | exact E].
  - apply IH. intros m' Hin. apply Hno. right. exact Hin.
Qed.

Lemma FindMaterial_from_first tag before m after material :
  undefined_tag tag before -> OBJECT_MATERIAL.tag m = tag ->
  FindMaterial_from (before ++ m :: after) tag material = copy_into material m.
Proof.
  induction before as [| m0 l IH]; intros Hno Htag; cbn.
  - rewrite (proj2 (String.eqb_eq _ _) Htag). reflexivity.
  - destruct (String.eqb_spec (OBJECT_MATERIAL.tag m0) tag) as [E | _].
    + exfalso. apply (Hno m0); [left; reflexivity | exact E].
    + apply IH; [| exact Htag]. intros m' Hin. apply Hno. right. exact Hin.
Qed.

(** With nothing defined, the lookup reports not-found. *)
Lemma FindMaterial_empty tag material s :
  m_objectMaterials s = [] -> FindMaterial tag material s = (false, material).
Proof. intros H. unfold FindMaterial. rewrite H. reflexivity. Qed.

(** A defined tag is found, and the five values of the first material
    carrying it are copied into the output. *)
Lemma FindMaterial_found tag material s before m after :
  m_objectMaterials s = before ++ m :: after ->
  undefined_tag tag before -> OBJECT_MATERIAL.tag m = tag ->
  FindMaterial tag material s = (true, copy_into material m).
Proof.
  intros H Hno Htag. unfold FindMaterial. rewrite H.
  rewrite FindMaterial_from_first by assumption.
  destruct before; reflexivity.
Qed.

(** In a non-empty registry, a tag that no material carries is reported
    as found all the same, and the output is left as it was. *)
Lemma FindMaterial_miss_nonempty tag material s :
  m_objectMaterials s <> [] -> undefined_tag tag (m_objectMaterials s) ->
  FindMaterial tag material s = (true, material).
Proof.
  intros Hne Hno. unfold FindMaterial.
  destruct (m_objectMaterials s) as [| m l] eqn:E; [congruence |].
  rewrite FindMaterial_from_miss by exact Hno. reflexivity.
Qed.

(** (C1) The lookup at a failing input: only "plastic" is defined and
    "wood" is looked up.  No material carries the tag, yet [FindMaterial]
    returns true and writes nothing to the output; [SetShaderMaterial]
    then goes on to read the members of its uninitialised local. *)
Theorem FindMaterial_reports_found_for_undefined_tag :
  let s := push_back plasticMaterial (SceneManager_ctor (Some 1%positive) 1%positive) in
  undefined_tag "wood" (m_objectMaterials s) /\
  FindMaterial "wood" OBJECT_MATERIAL.declared s = (true, OBJECT_MATERIAL.declared) /\
  SetShaderMaterial "wood" {| this := s; gl_generated := 0 |}
  = Undefined IndeterminateRead.
Proof.
  cbn zeta. split; [| split].
  - intros m [<- | []]. cbn. discriminate.
  - reflexivity.
  - reflexivity.
Qed.

End MaterialRegistry.

(** ** Texture registry *)

Module TextureRegistry.

(** *** Array facts *)

Lemma store_length {A} (l : list A) n x : List.length (store l n x) = List.length l.
Proof.
  revert n; induction l as [| a l IH]; intros [| n]; cbn; auto.
Qed.

Lemma firstn_store_same {A} (l : list A) n x :
  firstn n (store l n x) = firstn n l.
Proof.
  revert n; induction l as [| a l IH]; intros [| n]; cbn; auto.
  f_equal. apply IH.
Qed.

Lemma firstn_succ_store {A} (l : list A) n x :
  (n < List.length l)%nat ->
  firstn (S n) (store l n x) = firstn n l ++ [x].
Proof.
  revert n; induction l as [| a l IH]; intros [| n] H; cbn in *; try lia.
  - reflexivity.
  - f_equal. apply IH. lia.
Qed.

Lemma nth_error_store_same {A} (l : list A) n x :
  (n < List.length l)%nat -> nth_error (store l n x) n = Some x.
Proof.
  revert n; induction l as [| a l IH]; intros [| n] H; cbn in *; try lia.
  - reflexivity.
  - apply IH. lia.
Qed.

Lemma skipn_nth_error {A} (l : list A) n e :
  nth_error l n = Some e -> skipn n l = e :: skipn (S n) l.
Proof.
  revert n; induction l as [| a l IH]; intros [| n] H; cbn in *; try discriminate.
  - congruence.
  - apply IH. exact H.
Qed.

(** *** The two lookups are a first-match search of the registered part *)

Lemma FindTextureSlot_from_spec n idx tag s :
  (idx + n <= List.length (m_textureIDs s))%nat ->
  FindTextureSlot_from n idx tag s =
  Done (match first_match tag (firstn n (skipn idx (m_textureIDs s))) with
        | Some (j, _) => Z.of_nat (idx + j)
        | None => -1
        end).
Proof.
  revert idx; induction n as [| n IH]; intros idx Hle; cbn [FindTextureSlot_from].
  - reflexivity.
  - destruct (nth_error (m_textureIDs s) idx) as [e |] eqn:E.
    2:{ apply nth_error_None in E. lia. }
    rewrite (skipn_nth_error _ _ _ E). cbn [firstn first_match].
    destruct (TEXTURE_INFO.tag e =? tag)%string.
    + rewrite Nat.add_0_r. reflexivity.
    + rewrite IH by lia.
      destruct (first_match tag (firstn n (skipn (S idx) (m_textureIDs s))))
        as [[j e'] |]; [| reflexivity].
      do 2 f_equal. lia.
Qed.

Lemma FindTextureID_from_spec n idx tag s :
  (idx + n <= List.length (m_textureIDs s))%nat ->
  FindTextureID_from n idx tag s =
  Done (match first_match tag (firstn n (skipn idx (m_textureIDs s))) with
        | Some (_, e) => int_of_GLuint (TEXTURE_INFO.ID e)
        | None => -1
        end).
Proof.
  revert idx; induction n as [| n IH]; intros idx Hle; cbn [FindTextureID_from].
  - reflexivity.
  - destruct (nth_error (m_textureIDs s) idx) as [e |] eqn:E.
    2:{ apply nth_error_None in E. lia. }
    rewrite (skipn_nth_error _ _ _ E). cbn [firstn first_match].
    destruct (TEXTURE_INFO.tag e =? tag)%string.
    + reflexivity.
    + rewrite IH by lia.
      destruct (first_match tag (firstn n (skipn (S idx) (m_textureIDs s))))
        as [[j e'] |]; reflexivity.
Qed.

Lemma FindTextureSlot_spec tag s :
  registry_ok s ->
  FindTextureSlot tag s =
  Done (match first_match tag (registered s) with
        | Some (j, _) => Z.of_nat j
        | None => -1
        end).
Proof.
  intros [H0 H1]. unfold FindTextureSlot, registered.
  rewrite FindTextureSlot_from_spec by (cbn; lia). reflexivity.
Qed.

Lemma FindTextureID_spec tag s :
  registry_ok s ->
  FindTextureID tag s =
  Done (match first_match tag (registered s) with
        | Some (_, e) => int_of_GLuint (TEXTURE_INFO.ID e)
        | None => -1
        end).
Proof.
  intros [H0 H1]. unfold FindTextureID, registered.
  rewrite FindTextureID_from_spec by (cbn; lia). reflexivity.
Qed.

Lemma first_match_absent tag l :
  (forall e, In e l -> TEXTURE_INFO.tag e <> tag) -> first_match tag l = None.
Proof.
  induction l as [| e l IH]; intros H; cbn; [reflexivity |].
  destruct (String.eqb_spec (TEXTURE_INFO.tag e) tag) as [E | _].
  - exfalso. apply (H e); [left; reflexivity | exact E].
  - rewrite IH; [reflexivity |]. intros e' Hin. apply H. right. exact Hin.
Qed.

(** With pairwise-distinct tags, the first match of the i-th tag is the
    i-th entry. *)
Lemma first_match_nth tag l i e :
  NoDup (map TEXTURE_INFO.tag l) ->
  nth_error l i = Some e -> TEXTURE_INFO.tag e = tag ->
  first_match tag l = Some (i, e).
Proof.
  revert i; induction l as [| a l IH]; intros [| i] Hnd Hnth Htag;
    cbn in *; try discriminate.
  - injection Hnth as ->. rewrite (proj2 (String.eqb_eq _ _) Htag). reflexivity.
  - inversion Hnd as [| ? ? Hnotin Hnd']; subst.
    destruct (String.eqb_spec (TEXTURE_INFO.tag a) (TEXTURE_INFO.tag e)) as [E | _].
    + exfalso. apply Hnotin. rewrite E. apply in_map.
      eapply nth_error_In; eassumption.
    + rewrite (IH i Hnd' Hnth eq_refl). reflexivity.
Qed.


(** *** Loading *)

Ltac run :=
  unfold CreateGLTexture, register, slot, gen_texture, update_self, lift,
    shader, meshes, emit, undefined, ret, self, bind; cbn.

(** The file cannot be decoded: failure, and nothing changes at all. *)
Lemma CreateGLTexture_undecodable env f tag w :
  stbi_load env f = None ->
  CreateGLTexture env f tag w =
  Done (false, w, [stbi_set_flip_vertically_on_load true; cout (could_not_load f)]).
Proof. intros H. unfold CreateGLTexture. rewrite H. reflexivity. Qed.

(** Neither 3 nor 4 channels: failure after a texture name was taken
    from the driver; the scene manager itself is untouched. *)
Lemma CreateGLTexture_bad_channels env f tag w img :
  stbi_load env f = Some img ->
  colorChannels img <> 3 -> colorChannels img <> 4 ->
  CreateGLTexture env f tag w =
  Done (false, {| this := this w; gl_generated := S (gl_generated w) |},
        [stbi_set_flip_vertically_on_load true;
         cout (loaded_image f img);
         glGenTextures (gl_fresh env (gl_generated w));
         glBindTexture (gl_fresh env (gl_generated w));
         glWrapRepeat GL_TEXTURE_WRAP_S; glWrapRepeat GL_TEXTURE_WRAP_T;
         glFilterLinear GL_TEXTURE_MIN_FILTER; glFilterLinear GL_TEXTURE_MAG_FILTER;
         cout (channels_not_handled (colorChannels img))]).
Proof.
  intros H H3 H4. unfold CreateGLTexture. rewrite H.
  apply Z.eqb_neq in H3, H4. rewrite H3, H4. reflexivity.
Qed.

(** A decodable RGB or RGBA file with a free slot: success, and the
    entry is written at the slot the counter points to. *)
Lemma CreateGLTexture_success env f tag w img :
  stbi_load env f = Some img ->
  colorChannels img = 3 \/ colorChannels img = 4 ->
  0 <= m_loadedTextures (this w) < Z.of_nat (List.length (m_textureIDs (this w))) ->
  exists tr,
    CreateGLTexture env f tag w =
    Done (true,
          {| this := registered_state tag (gl_fresh env (gl_generated w)) (this w);
             gl_generated := S (gl_generated w) |},
          tr).
Proof.
  intros H Hc [H0 H1]. unfold CreateGLTexture. rewrite H.
  assert (Hslot : exists e, nth_error (m_textureIDs (this w))
                     (Z.to_nat (m_loadedTextures (this w))) = Some e).
  { destruct (nth_error (m_textureIDs (this w)) (Z.to_nat (m_loadedTextures (this w))))
      as [e |] eqn:E; [eauto |]. apply nth_error_None in E. lia. }
  destruct Hslot as [e He].
  assert (Hneg : (m_loadedTextures (this w) <? 0) = false) by (apply Z.ltb_ge; lia).
  destruct Hc as [Hc | Hc]; rewrite Hc; run; rewrite Hneg, He; cbn;
    eexists; reflexivity.
Qed.

(** Conversely a call that returned true found a free slot and wrote
    exactly that entry. *)
Lemma CreateGLTexture_true env f tag w w' tr :
  CreateGLTexture env f tag w = Done (true, w', tr) ->
  0 <= m_loadedTextures (this w) < Z.of_nat (List.length (m_textureIDs (this w))) /\
  w' = {| this := registered_state tag (gl_fresh env (gl_generated w)) (this w);
          gl_generated := S (gl_generated w) |}.
Proof.
  unfold CreateGLTexture.
  destruct (stbi_load env f) as [img |]; [| discriminate].
  destruct (colorChannels img =? 3) eqn:E3;
    [| destruct (colorChannels img =? 4) eqn:E4; [| discriminate]];
    run;
    (destruct (m_loadedTextures (this w) <? 0) eqn:Hneg; [discriminate |]);
    (destruct (nth_error (m_textureIDs (this w)) (Z.to_nat (m_loadedTextures (this w))))
       as [e |] eqn:He; [| discriminate]);
    cbn; intros Heq; injection Heq as <- _;
    (split; [| reflexivity]);
    apply Z.ltb_ge in Hneg;
    (assert (Hlt : (Z.to_nat (m_loadedTextures (this w))
                    < List.length (m_textureIDs (this w)))%nat)
       by (apply nth_error_Some; congruence));
    lia.
Qed.


(** (C5) A load that fails, because the file cannot be decoded or because
    the image has neither 3 nor 4 channels, returns false and leaves the
    scene manager unchanged: same loaded-texture count, same slots. *)
Theorem failed_load_leaves_registry env filename tag w :
  (stbi_load env filename = None \/
   exists img, stbi_load env filename = Some img /\
               colorChannels img <> 3 /\ colorChannels img <> 4) ->
  exists w' tr,
    CreateGLTexture env filename tag w = Done (false, w', tr) /\
    this w' = this w /\
    m_loadedTextures (this w') = m_loadedTextures (this w) /\
    m_textureIDs (this w') = m_textureIDs (this w).
Proof.
  intros [Hnone | (img & Himg & H3 & H4)].
  - rewrite (CreateGLTexture_undecodable _ _ tag w Hnone).
    do 2 eexists. repeat split.
  - rewrite (CreateGLTexture_bad_channels _ _ tag w _ Himg H3 H4).
    do 2 eexists. repeat split.
Qed.

Lemma failed_load_leaves_registry_witness :
  exists w' tr,
    CreateGLTexture example_env "gray.png" "gray" example_start = Done (false, w', tr) /\
    this w' = this example_start /\
    m_loadedTextures (this w') = m_loadedTextures (this example_start) /\
    m_textureIDs (this w') = m_textureIDs (this example_start).
Proof.
  apply (@failed_load_leaves_registry example_env "gray.png" "gray" example_start).
  right. exists {| width := 8; height := 8; colorChannels := 1 |}.
  repeat split; cbn; lia.
Defined.

(** *** Sequences of loads *)

Lemma bind_Done {A B} (c : M A) (k : A -> M B) w b w2 tr :
  bind c k w = Done (b, w2, tr) ->
  exists a w1 t1 t2,
    c w = Done (a, w1, t1) /\ k a w1 = Done (b, w2, t2) /\ tr = t1 ++ t2.
Proof.
  unfold bind. destruct (c w) as [[[a w1] t1] | f]; [| discriminate].
  destruct (k a w1) as [[[b' w2'] t2] | f] eqn:Hk; [| discriminate].
  intros H. injection H as -> -> <-.
  exists a, w1, t1, t2. auto.
Qed.

Lemma registered_state_registered tag h s :
  0 <= m_loadedTextures s < Z.of_nat (List.length (m_textureIDs s)) ->
  registered (registered_state tag h s) = registered s ++ [TEXTURE_INFO.make tag h].
Proof.
  intros H. unfold registered, registered_state; cbn.
  replace (Z.to_nat (m_loadedTextures s + 1)) with (S (Z.to_nat (m_loadedTextures s)))
    by lia.
  apply firstn_succ_store. lia.
Qed.

Lemma registered_state_ok tag h s :
  0 <= m_loadedTextures s < Z.of_nat (List.length (m_textureIDs s)) ->
  registry_ok (registered_state tag h s).
Proof.
  intros H. unfold registry_ok, registered_state; cbn.
  rewrite store_length. lia.
Qed.

(** After a run of loads that all returned true, the registered part has
    grown by exactly their entries, in call order. *)
Lemma load_all_successful env loads :
  forall w results w' tr,
    load_all env loads w = Done (results, w', tr) ->
    Forall (fun b => b = true) results ->
    registry_ok (this w) ->
    registry_ok (this w') /\
    registered (this w') =
      registered (this w) ++ loaded_entries env (gl_generated w) loads.
Proof.
  induction loads as [| [f tag] rest IH]; intros w results w' tr Hrun Hall Hok.
  - cbn in Hrun. injection Hrun as <- <- <-. cbn. rewrite app_nil_r. auto.
  - cbn [load_all] in Hrun.
    apply bind_Done in Hrun as (b & w1 & t1 & t2 & H1 & Hrun & ->).
    apply bind_Done in Hrun as (bs & w2 & t3 & t4 & H2 & Hret & ->).
    cbn in Hret. injection Hret as <- <- <-.
    inversion Hall as [| ? ? Hb Hbs]; subst.
    apply CreateGLTexture_true in H1 as [Hrange ->].
    destruct (IH _ _ _ _ H2 Hbs (registered_state_ok _ _ _ Hrange)) as [Hok' Hreg].
    split; [exact Hok' |].
    rewrite Hreg. cbn [this gl_generated loaded_entries].
    rewrite registered_state_registered by exact Hrange.
    rewrite <- app_assoc. reflexivity.
Qed.

Lemma loaded_entries_tags env g loads :
  map TEXTURE_INFO.tag (loaded_entries env g loads) = map snd loads.
Proof.
  revert g; induction loads as [| [f tag] rest IH]; intros g; cbn;
    [reflexivity | f_equal; apply IH].
Qed.

Lemma loaded_entries_nth env g loads i f tag :
  nth_error loads i = Some (f, tag) ->
  nth_error (loaded_entries env g loads) i
  = Some (TEXTURE_INFO.make tag (gl_fresh env (g + i))).
Proof.
  revert g i; induction loads as [| [f' tag'] rest IH]; intros g [| i] H;
    cbn in *; try discriminate.
  - injection H as -> ->. rewrite Nat.add_0_r. reflexivity.
  - rewrite (IH (S g) i H). do 3 f_equal. lia.
Qed.

Lemma int_of_GLuint_small h : 0 <= h < 2 ^ 31 -> int_of_GLuint h = h.
Proof.
  intros H. unfold int_of_GLuint.
  rewrite Z.mod_small by lia. lia.
Qed.

Lemma registered_ctor p pm : registered (SceneManager_ctor p pm) = [].
Proof. reflexivity. Qed.

Lemma registry_ok_ctor p pm : registry_ok (SceneManager_ctor p pm).
Proof. unfold registry_ok; cbn. lia. Qed.

(** (C2) Slots follow load order.  Start from a freshly constructed scene
    manager and run any sequence of loads with pairwise-distinct tags that
    all return true.  Then the load at position i of the sequence (i loads
    succeeded before it) stored, in slot i, its tag with the name the
    driver handed out during that load; [FindTextureSlot] of its tag
    returns i, and [FindTextureID] returns that stored name (through the
    [int] return type, which changes nothing for names below 2^31). *)
Theorem slots_follow_load_order env pShader pMeshes g0 loads results w' tr :
  load_all env loads
    {| this := SceneManager_ctor pShader pMeshes; gl_generated := g0 |}
  = Done (results, w', tr) ->
  Forall (fun b => b = true) results ->
  NoDup (map snd loads) ->
  forall i filename tag,
    nth_error loads i = Some (filename, tag) ->
    let h := gl_fresh env (g0 + i) in
    nth_error (registered (this w')) i = Some (TEXTURE_INFO.make tag h) /\
    FindTextureSlot tag (this w') = Done (Z.of_nat i) /\
    FindTextureID tag (this w') = Done (int_of_GLuint h) /\
    (0 <= h < 2 ^ 31 -> FindTextureID tag (this w') = Done h).
Proof.
  intros Hrun Hall Hnd i filename tag Hi h.
  destruct (load_all_successful _ _ _ _ _ _ Hrun Hall (registry_ok_ctor _ _))
    as [Hok Hreg].
  cbn [this gl_generated] in Hreg. rewrite registered_ctor in Hreg. cbn in Hreg.
  assert (Hnth : nth_error (registered (this w')) i = Some (TEXTURE_INFO.make tag h)).
  { rewrite Hreg. apply (loaded_entries_nth _ _ _ _ _ _ Hi). }
  assert (Hfm : first_match tag (registered (this w'))
                = Some (i, TEXTURE_INFO.make tag h)).
  { apply first_match_nth; [| exact Hnth | reflexivity].
    rewrite Hreg, loaded_entries_tags. exact Hnd. }
  split; [exact Hnth |].
  rewrite FindTextureSlot_spec, FindTextureID_spec by exact Hok.
  rewrite Hfm. cbn [TEXTURE_INFO.ID].
  repeat split. intros Hh. rewrite int_of_GLuint_small by exact Hh. reflexivity.
Qed.

(** The end-to-end example of the specification: textures "marble",
    "glass", "can" get slots 0, 1, 2, and the slot of "can" is 2. *)
Lemma slots_follow_load_order_witness :
  FindTextureSlot "can" (this (final_world (load_all example_env example_loads example_start) example_start))
  = Done 2.
Proof.
  refine (proj1 (proj2
    (@slots_follow_load_order example_env (Some 1%positive) 1%positive 0%nat
       example_loads [true; true; true]
       (final_world (load_all example_env example_loads example_start) example_start)
       (issued (load_all example_env example_loads example_start))
       _ _ _ 2%nat "can.jpg" "can" _))).
  - reflexivity.
  - repeat constructor.
  - repeat constructor; cbn; intuition discriminate.
  - reflexivity.
Defined.


(** *** Lookups of a tag that is not registered *)

Lemma FindTextureSlot_absent tag s :
  registry_ok s -> absent_tag tag s -> FindTextureSlot tag s = Done (-1).
Proof.
  intros Hok Habs. rewrite FindTextureSlot_spec by exact Hok.
  rewrite first_match_absent by exact Habs. reflexivity.
Qed.

Lemma FindTextureID_absent tag s :
  registry_ok s -> absent_tag tag s -> FindTextureID tag s = Done (-1).
Proof.
  intros Hok Habs. rewrite FindTextureID_spec by exact Hok.
  rewrite first_match_absent by exact Habs. reflexivity.
Qed.

Lemma SetShaderTexture_attached tag w p slot_index :
  m_pShaderManager (this w) = Some p ->
  FindTextureSlot tag (this w) = Done slot_index ->
  SetShaderTexture tag w =
  Done (tt, w, [setIntValue g_UseTextureName 1;
                setSampler2DValue g_TextureValueName slot_index]).
Proof.
  intros Hp Hslot.
  unfold SetShaderTexture, shader, lift, bind, self, emit. cbn.
  rewrite Hp. cbn. rewrite Hp, Hslot. cbn. rewrite Hp. reflexivity.
Qed.

(** *** Teardown *)

Lemma DestroyGLTextures_from_no_delete env n :
  forall i w w' tr,
    DestroyGLTextures_from env n i w = Done (tt, w', tr) ->
    forall name, ~ In (glDeleteTextures name) tr.
Proof.
  induction n as [| n IH]; intros i w w' tr Hrun name Hin.
  - cbn in Hrun. injection Hrun as <- <-. destruct Hin.
  - cbn [DestroyGLTextures_from] in Hrun.
    apply bind_Done in Hrun as (e & w1 & t1 & t2 & H1 & Hrun & ->).
    apply bind_Done in Hrun as (h & w2 & t3 & t4 & H2 & Hrun & ->).
    apply bind_Done in Hrun as (s & w3 & t5 & t6 & H3 & Hrun & ->).
    apply bind_Done in Hrun as ([] & w4 & t7 & t8 & H4 & Hrun & ->).
    assert (E1 : t1 = []).
    { unfold slot, bind, self, ret, undefined in H1. cbn in H1.
      destruct (i <? 0); [discriminate |].
      destruct (nth_error (m_textureIDs (this w)) (Z.to_nat i)); [| discriminate].
      cbn in H1. congruence. }
    assert (E3 : t3 = [glGenTextures h]).
    { unfold gen_texture in H2. congruence. }
    assert (E5 : t5 = []) by (unfold self in H3; congruence).
    assert (E7 : t7 = []) by (unfold update_self in H4; congruence).
    subst. cbn in Hin. destruct Hin as [Hin | Hin]; [discriminate |].
    exact (IH _ _ _ _ Hrun name Hin).
Qed.

(** Whatever the state, the teardown never asks the driver to delete a
    texture. *)
Lemma DestroyGLTextures_never_deletes env w w' tr :
  DestroyGLTextures env w = Done (tt, w', tr) ->
  forall name, ~ In (glDeleteTextures name) tr.
Proof.
  unfold DestroyGLTextures. intros Hrun.
  apply bind_Done in Hrun as (s & w1 & t1 & t2 & H1 & Hrun & ->).
  unfold self in H1. injection H1 as <- <- <-. cbn.
  exact (DestroyGLTextures_from_no_delete _ _ _ _ _ _ Hrun).
Qed.

(** (C6) The teardown at a failing input: one texture, "marble", was
    loaded and holds the driver name 1.  [DestroyGLTextures] issues a
    single driver call, [glGenTextures], which allocates the new name 2;
    it writes 2 over the stored name 1 and never deletes name 1. *)
Theorem DestroyGLTextures_allocates_instead_of_deleting :
  let loaded := final_world (CreateGLTexture example_env "marble.jpg" "marble" example_start)
                            example_start in
  registered (this loaded) = [TEXTURE_INFO.make "marble" 1] /\
  issued (DestroyGLTextures example_env loaded) = [glGenTextures 2] /\
  ~ In (glDeleteTextures 1) (issued (DestroyGLTextures example_env loaded)) /\
  registered (this (final_world (DestroyGLTextures example_env loaded) loaded))
  = [TEXTURE_INFO.make "marble" 2].
Proof.
  cbn zeta. split; [reflexivity |]. split; [reflexivity |]. split; [| reflexivity].
  cbn. intros [H | []]. discriminate.
Qed.

End TextureRegistry.

(** ** The render phase *)

Module RenderPhase.
Import TextureRegistry MaterialRegistry.

(** *** The one-pass check implies the invariant *)

Lemma no_draw_cons k ks i :
  k <> DrawStep ->
  (forall d, (d < i)%nat -> nth_error ks d <> Some DrawStep) ->
  forall d, (d < S i)%nat -> nth_error (k :: ks) d <> Some DrawStep.
Proof.
  intros Hk H [| d] Hd; cbn.
  - congruence.
  - apply H. lia.
Qed.

Lemma scan_sound ks :
  forall st, scan st ks = true ->
  forall i, nth_error ks i = Some DrawStep ->
    (exists j k, (j < k < i)%nat /\
       nth_error ks j = Some TransformPush /\
       nth_error ks k = Some SurfacePush /\
       forall d, (j <= d < i)%nat -> nth_error ks d <> Some DrawStep)
    \/ (st = Ready /\ forall d, (d < i)%nat -> nth_error ks d <> Some DrawStep)
    \/ (st = Transformed /\
        exists k, (k < i)%nat /\ nth_error ks k = Some SurfacePush /\
          forall d, (d < i)%nat -> nth_error ks d <> Some DrawStep).
Proof.
  induction ks as [| k ks IH]; intros st Hscan [| i] Hi; cbn in Hi;
    try discriminate.
  - (* the draw is the head: the check passed only from [Ready] *)
    injection Hi as ->. destruct st; cbn in Hscan; try discriminate.
    right; left. split; [reflexivity |]. intros d Hd. lia.
  - (* the draw is further on *)
    assert (Hnext : exists st', scan st' ks = true /\
              ((st' = st /\ k <> DrawStep) \/
               (st = Fresh /\ k = TransformPush /\ st' = Transformed) \/
               (st = Transformed /\ k = SurfacePush /\ st' = Ready) \/
               (k = DrawStep /\ st' = Fresh))).
    { destruct k, st; cbn in Hscan; try discriminate;
        eexists; (split; [exact Hscan |]); intuition congruence. }
    destruct Hnext as (st' & Hscan' & Hstep).
    destruct (IH st' Hscan' i Hi)
      as [(j & k' & Hjk & Hj & Hk' & Hnd)
         | [(Hst' & Hnd) | (Hst' & k' & Hk'i & Hk' & Hnd)]].
    + left. exists (S j), (S k'). cbn. repeat split; try lia; try assumption.
      intros [| d] Hd; [lia |]. cbn. apply Hnd. lia.
    + subst st'.
      destruct Hstep as [[-> Hk] | [(_ & _ & E) | [(-> & -> & _) | (_ & E)]]];
        try discriminate.
      * right; left. split; [reflexivity |]. apply no_draw_cons; assumption.
      * right; right. split; [reflexivity |]. exists 0%nat. cbn.
        repeat split; try lia. apply no_draw_cons; [discriminate | assumption].
    + subst st'.
      destruct Hstep as [[-> Hk] | [(-> & -> & _) | [(_ & _ & E) | (_ & E)]]];
        try discriminate.
      * right; right. split; [reflexivity |]. exists (S k'). cbn.
        repeat split; try lia; try assumption. apply no_draw_cons; assumption.
      * left. exists 0%nat, (S k'). cbn. repeat split; try lia; try assumption.
        intros d Hd. apply (no_draw_cons TransformPush ks i);
          [discriminate | assumption | lia].
Qed.

Lemma scan_draw_prepared ks : scan Fresh ks = true -> draw_prepared ks.
Proof.
  intros Hscan i Hi.
  destruct (scan_sound ks Fresh Hscan i Hi) as [H | [[E _] | [E _]]];
    [exact H | discriminate | discriminate].
Qed.


(** *** Sequencing *)

Lemma bind_ok {A B} (c : M A) (k : A -> M B) (w : World) (Q R : World -> Prop) :
  (exists a w1 t1, c w = Done (a, w1, t1) /\ Q w1) ->
  (forall a w1, Q w1 -> exists b w2 t2, k a w1 = Done (b, w2, t2) /\ R w2) ->
  exists b w2 t, bind c k w = Done (b, w2, t) /\ R w2.
Proof.
  intros (a & w1 & t1 & Hc & HQ) Hk.
  destruct (Hk a w1 HQ) as (b & w2 & t2 & Hk' & HR).
  exists b, w2, (t1 ++ t2). unfold bind. rewrite Hc, Hk'. auto.
Qed.

(** Two steps that leave the world alone. *)
Lemma bind_same {A B} (c : M A) (k : A -> M B) (w : World) a t1 b t2 :
  c w = Done (a, w, t1) -> k a w = Done (b, w, t2) ->
  bind c k w = Done (b, w, t1 ++ t2).
Proof. intros Hc Hk. unfold bind. rewrite Hc, Hk. reflexivity. Qed.

Lemma bind_ext {A B} (c : M A) (k k' : A -> M B) (w : World) :
  (forall a w1, k a w1 = k' a w1) -> bind c k w = bind c k' w.
Proof.
  intros H. unfold bind. destruct (c w) as [[[a w1] t1] | f]; [| reflexivity].
  rewrite H. reflexivity.
Qed.

Lemma perform_app {libm : Libm} (a b : list call) :
  forall w, perform (a ++ b) w = (perform a ;; perform b) w.
Proof.
  induction a as [| c a IH]; intros w.
  - cbn. unfold bind, ret.
    destruct (perform b w) as [[[[] w2] t2] | f]; reflexivity.
  - cbn [app perform]. unfold bind.
    destruct (exec c w) as [[[[] w1] t1] | f]; [| reflexivity].
    rewrite IH. unfold bind.
    destruct (perform a w1) as [[[[] w2] t2] | f]; [| reflexivity].
    destruct (perform b w2) as [[[[] w3] t3] | f]; [| reflexivity].
    rewrite app_assoc. reflexivity.
Qed.

(** [RenderScene] runs the calls of its five routines one after the
    other. *)
Lemma RenderScene_perform {libm : Libm} (w : World) :
  RenderScene w = perform RenderScene_calls w.
Proof.
  unfold RenderScene, RenderScene_calls, RenderDesktop, RenderLegoMan,
    RenderSodaCan, RenderHeadPhones, RenderLampBase.
  rewrite perform_app. apply bind_ext; intros _ w1.
  rewrite perform_app. apply bind_ext; intros _ w2.
  rewrite perform_app. apply bind_ext; intros _ w3.
  rewrite perform_app. reflexivity.
Qed.

(** *** One call in a prepared scene *)

Lemma shader_attached e w p :
  m_pShaderManager (this w) = Some p -> shader e w = Done (tt, w, [e]).
Proof. intros Hp. unfold shader, bind, self, emit. cbn. rewrite Hp. reflexivity. Qed.

Lemma meshes_attached e w p :
  m_basicMeshes (this w) = Some p -> meshes e w = Done (tt, w, [e]).
Proof. intros Hp. unfold meshes, bind, self, emit. cbn. rewrite Hp. reflexivity. Qed.

Lemma SetShaderColor_attached r g b a w p :
  m_pShaderManager (this w) = Some p ->
  SetShaderColor r g b a w =
  Done (tt, w, [setIntValue g_UseTextureName 0;
                setVec4Value g_ColorValueName (GLM.Vec4 r g b a)]).
Proof.
  intros Hp. unfold SetShaderColor, shader, bind, self, emit. cbn.
  rewrite Hp. cbn. rewrite Hp. cbn. rewrite Hp. reflexivity.
Qed.

Lemma SetTextureUVScale_attached u v w p :
  m_pShaderManager (this w) = Some p ->
  SetTextureUVScale u v w = Done (tt, w, [setVec2Value "UVscale" (GLM.Vec2 u v)]).
Proof.
  intros Hp. unfold SetTextureUVScale, shader, bind, self, emit. cbn.
  rewrite Hp. cbn. rewrite Hp. reflexivity.
Qed.

Lemma FindTextureSlot_total tag s :
  registry_ok s -> exists slot_index, FindTextureSlot tag s = Done slot_index.
Proof. intros Hok. rewrite FindTextureSlot_spec by exact Hok. eauto. Qed.

Lemma defined_tag_first tag l :
  defined_tag tag l ->
  exists before m after,
    l = before ++ m :: after /\ undefined_tag tag before /\
    OBJECT_MATERIAL.tag m = tag.
Proof.
  induction l as [| a l IH]; intros (m & Hin & Htag); [destruct Hin |].
  destruct (String.eqb_spec (OBJECT_MATERIAL.tag a) tag) as [E | NE].
  - exists [], a, l. repeat split; [| exact E]. intros m' [].
  - destruct Hin as [-> | Hin]; [congruence |].
    destruct (IH (ex_intro _ m (conj Hin Htag)))
      as (before & m' & after & -> & Hno & Htag').
    exists (a :: before), m', after. repeat split; [| exact Htag'].
    intros m'' [<- | Hin'']; [exact NE | exact (Hno m'' Hin'')].
Qed.

(** With the tag defined, the five members of the first material that
    carries it are pushed, in this order. *)
Lemma SetShaderMaterial_defined tag w p :
  m_pShaderManager (this w) = Some p ->
  defined_tag tag (m_objectMaterials (this w)) ->
  exists m,
    In m (m_objectMaterials (this w)) /\ OBJECT_MATERIAL.tag m = tag /\
    SetShaderMaterial tag w =
    Done (tt, w,
          [setVec3Value "material.ambientColor" (OBJECT_MATERIAL.ambientColor m);
           setFloatValue "material.ambientStrength" (OBJECT_MATERIAL.ambientStrength m);
           setVec3Value "material.diffuseColor" (OBJECT_MATERIAL.diffuseColor m);
           setVec3Value "material.specularColor" (OBJECT_MATERIAL.specularColor m);
           setFloatValue "material.shininess" (OBJECT_MATERIAL.shininess m)]).
Proof.
  intros Hp Hdef.
  destruct (defined_tag_first _ _ Hdef) as (before & m & after & Hl & Hno & Htag).
  exists m. split; [rewrite Hl; apply in_elt |]. split; [exact Htag |].
  unfold SetShaderMaterial. unfold bind at 1. unfold self at 1.
  rewrite (FindMaterial_found tag OBJECT_MATERIAL.declared (this w) before m after
             Hl Hno Htag).
  assert (Hlen : (0 <? List.length (m_objectMaterials (this w)))%nat = true).
  { apply Nat.ltb_lt. rewrite Hl, length_app. cbn. lia. }
  rewrite Hlen. cbn [copy_into OBJECT_MATERIAL.r_ambientColor
    OBJECT_MATERIAL.r_ambientStrength OBJECT_MATERIAL.r_diffuseColor
    OBJECT_MATERIAL.r_specularColor OBJECT_MATERIAL.r_shininess read].
  unfold bind, ret. rewrite !(shader_attached _ w p Hp). reflexivity.
Qed.

(** In a prepared scene every render call finishes, changes nothing, and
    issues calls of the kinds listed by [emitted_kinds]. *)
Lemma exec_prepared {libm : Libm} c w :
  m_pShaderManager (this w) <> None -> m_basicMeshes (this w) <> None ->
  registry_ok (this w) -> call_ok (this w) c ->
  exists tr, exec c w = Done (tt, w, tr) /\ map event_kind tr = emitted_kinds c.
Proof.
  intros Hs Hm Hok Hc.
  destruct (m_pShaderManager (this w)) as [p |] eqn:Hp; [| congruence].
  destruct (m_basicMeshes (this w)) as [pm |] eqn:Hpm; [| congruence].
  destruct c as [s rx ry rz t | r g b a | tag | u v | tag | m]; cbn [exec].
  - rewrite (TransformBuilder.SetTransformations_attached s rx ry rz t w p Hp).
    eexists; split; reflexivity.
  - rewrite (SetShaderColor_attached r g b a w p Hp).
    eexists; split; reflexivity.
  - destruct (FindTextureSlot_total tag (this w) Hok) as [i Hi].
    rewrite (SetShaderTexture_attached tag w p i Hp Hi).
    eexists; split; reflexivity.
  - rewrite (SetTextureUVScale_attached u v w p Hp).
    eexists; split; reflexivity.
  - destruct (SetShaderMaterial_defined tag w p Hp Hc) as (m & _ & _ & ->).
    eexists; split; reflexivity.
  - rewrite (meshes_attached (DrawMesh m) w pm Hpm).
    eexists; split; reflexivity.
Qed.

Lemma perform_prepared {libm : Libm} cs w :
  m_pShaderManager (this w) <> None -> m_basicMeshes (this w) <> None ->
  registry_ok (this w) -> Forall (call_ok (this w)) cs ->
  exists tr, perform cs w = Done (tt, w, tr) /\
             map event_kind tr = List.concat (map emitted_kinds cs).
Proof.
  intros Hs Hm Hok. induction cs as [| c cs IH]; intros Hall.
  - exists []. split; reflexivity.
  - inversion Hall as [| ? ? Hc Hcs]; subst.
    destruct (exec_prepared c w Hs Hm Hok Hc) as (t1 & H1 & K1).
    destruct (IH Hcs) as (t2 & H2 & K2).
    exists (t1 ++ t2). cbn [perform map List.concat].
    rewrite (bind_same _ _ w tt t1 tt t2 H1 H2).
    rewrite map_app, K1, K2. split; reflexivity.
Qed.

Lemma RenderScene_prepared {libm : Libm} w :
  prepared w ->
  exists tr, RenderScene w = Done (tt, w, tr) /\
             map event_kind tr = List.concat (map emitted_kinds RenderScene_calls).
Proof.
  intros (Hs & Hm & Hok & Hall). rewrite RenderScene_perform.
  apply perform_prepared; assumption.
Qed.


(** *** Scene preparation *)

Lemma CreateGLTexture_loading env f tag allowed s0 k w :
  loading allowed s0 k (this w) ->
  k < Z.of_nat (List.length (m_textureIDs s0)) ->
  In tag allowed ->
  exists b w' tr,
    CreateGLTexture env f tag w = Done (b, w', tr) /\
    loading allowed s0 (k + 1) (this w').
Proof.
  intros (Hs & Hm & Hmat & Hlen & Hcnt & Htags) Hk Htag.
  assert (Hkeep : loading allowed s0 (k + 1) (this w)).
  { unfold loading. repeat split; try assumption; lia. }
  destruct (stbi_load env f) as [img |] eqn:Himg.
  2:{ rewrite (CreateGLTexture_undecodable env f tag w Himg). eauto. }
  destruct (Z.eq_dec (colorChannels img) 3) as [E3 | N3];
    [| destruct (Z.eq_dec (colorChannels img) 4) as [E4 | N4]].
  3:{ rewrite (CreateGLTexture_bad_channels env f tag w img Himg N3 N4). eauto. }
  all: assert (Hrange : 0 <= m_loadedTextures (this w)
                        < Z.of_nat (List.length (m_textureIDs (this w)))) by lia.
  all: destruct (CreateGLTexture_success env f tag w img Himg
                   ltac:(tauto) Hrange) as [tr Hrun].
  all: rewrite Hrun; do 3 eexists; split; [reflexivity |].
  all: cbn [this]; unfold loading;
    rewrite (registered_state_registered _ _ _ Hrange).
  all: unfold registered_state; cbn; rewrite store_length.
  all: repeat split; try assumption; try lia.
  all: intros e Hin; apply in_app_or in Hin as [Hin | [<- | []]];
    [apply Htags; exact Hin | exact Htag].
Qed.

Lemma BindGLTextures_from_total n :
  forall i w,
    0 <= i -> (Z.to_nat i + n <= List.length (m_textureIDs (this w)))%nat ->
    exists tr, BindGLTextures_from n i w = Done (tt, w, tr).
Proof.
  induction n as [| n IH]; intros i w Hi Hle; cbn [BindGLTextures_from].
  - eexists; reflexivity.
  - destruct (nth_error (m_textureIDs (this w)) (Z.to_nat i)) as [e |] eqn:E.
    2:{ apply nth_error_None in E. lia. }
    destruct (IH (i + 1) w ltac:(lia) ltac:(lia)) as [tr Htr].
    assert (Hneg : (i <? 0) = false) by (apply Z.ltb_ge; lia).
    unfold slot, emit, ret, self, bind. cbn. rewrite Hneg, E. cbn.
    rewrite Htr. eexists; reflexivity.
Qed.

Lemma BindGLTextures_total w :
  registry_ok (this w) -> exists tr, BindGLTextures w = Done (tt, w, tr).
Proof.
  intros [H0 H1]. unfold BindGLTextures. unfold bind at 1, self at 1.
  destruct (BindGLTextures_from_total (Z.to_nat (m_loadedTextures (this w)))
              0 w ltac:(lia) ltac:(cbn; lia)) as [tr Htr].
  rewrite Htr. eexists; reflexivity.
Qed.

Lemma loading_registry_ok allowed s0 k s :
  loading allowed s0 k s -> k <= Z.of_nat (List.length (m_textureIDs s0)) ->
  registry_ok s.
Proof.
  intros (_ & _ & _ & Hlen & Hcnt & _) Hk. unfold registry_ok. lia.
Qed.

Lemma LoadSceneTextures_loading env w :
  loading scene_texture_tags (this w) 0 (this w) ->
  6 <= Z.of_nat (List.length (m_textureIDs (this w))) ->
  exists w' tr,
    LoadSceneTextures env w = Done (tt, w', tr) /\
    loading scene_texture_tags (this w) 6 (this w').
Proof.
  intros H0 Hlen. unfold LoadSceneTextures.
  assert (Hstep : forall k f tag (rest : M unit) w1,
    In tag scene_texture_tags -> k < 6 ->
    loading scene_texture_tags (this w) k (this w1) ->
    (forall w2, loading scene_texture_tags (this w) (k + 1) (this w2) ->
       exists b w' tr, rest w2 = Done (b, w', tr) /\
                       loading scene_texture_tags (this w) 6 (this w')) ->
    exists b w' tr,
      (bReturn <- CreateGLTexture env f tag ;; rest) w1 = Done (b, w', tr) /\
      loading scene_texture_tags (this w) 6 (this w')).
  { intros k f tag rest w1 Htag Hk Hinv Hrest.
    apply (bind_ok _ _ w1
             (fun w2 => loading scene_texture_tags (this w) (k + 1) (this w2))).
    - apply (CreateGLTexture_loading env f tag scene_texture_tags (this w) k w1 Hinv);
        [lia | exact Htag].
    - intros _ w2 Hw2. apply Hrest. exact Hw2. }
  assert (Hall : exists b w' tr,
    (bReturn <- CreateGLTexture env "../../Utilities/textures/marble.jpg" "marble" ;;
     bReturn <- CreateGLTexture env "../../Utilities/textures/superhero-face.jpg" "face" ;;
     bReturn <- CreateGLTexture env "../../Utilities/textures/superhero-body.jpg" "body" ;;
     bReturn <- CreateGLTexture env "../../Utilities/textures/superhero-arm.jpg" "arm" ;;
     bReturn <- CreateGLTexture env "../../Utilities/textures/superhero-leg.jpg" "leg" ;;
     bReturn <- CreateGLTexture env "../../Utilities/textures/soda-can.jpg" "can" ;;
     BindGLTextures) w = Done (b, w', tr) /\
    loading scene_texture_tags (this w) 6 (this w')).
  { apply (Hstep 0); [cbn; tauto | lia | exact H0 |]. intros w1 H1.
    apply (Hstep 1); [cbn; tauto | lia | exact H1 |]. intros w2 H2.
    apply (Hstep 2); [cbn; tauto | lia | exact H2 |]. intros w3 H3.
    apply (Hstep 3); [cbn; tauto | lia | exact H3 |]. intros w4 H4.
    apply (Hstep 4); [cbn; tauto | lia | exact H4 |]. intros w5 H5.
    apply (Hstep 5); [cbn; tauto | lia | exact H5 |]. intros w6 H6.
    destruct (BindGLTextures_total w6
                (loading_registry_ok _ _ _ _ H6 Hlen)) as [tr Htr].
    exists tt, w6, tr. split; [exact Htr | exact H6]. }
  destruct Hall as ([] & w' & tr & Hrun & Hinv). eauto.
Qed.

Lemma DefineObjectMaterials_run w :
  DefineObjectMaterials w =
  Done (tt,
        {| this :=
             push_back matteMaterial
               (push_back glassMaterial
                  (push_back clothMaterial
                     (push_back metalMaterial
                        (push_back plasticMaterial (this w)))));
           gl_generated := gl_generated w |},
        []).
Proof. reflexivity. Qed.

Lemma SetupSceneLights_attached w p :
  m_pShaderManager (this w) = Some p ->
  exists tr, SetupSceneLights w = Done (tt, w, tr).
Proof.
  intros Hp. unfold SetupSceneLights. eexists.
  repeat (eapply bind_same; [apply (shader_attached _ w p Hp) |]).
  apply (shader_attached _ w p Hp).
Qed.


Lemma bind_run {A B} (c : M A) (k : A -> M B) (w : World) a w1 t1 b w2 t2 :
  c w = Done (a, w1, t1) -> k a w1 = Done (b, w2, t2) ->
  bind c k w = Done (b, w2, t1 ++ t2).
Proof. intros Hc Hk. unfold bind. rewrite Hc, Hk. reflexivity. Qed.

(** The materials of [DefineObjectMaterials] cover every material tag
    the render routines ask for. *)
Lemma render_calls_ok s :
  m_objectMaterials s =
    [plasticMaterial; metalMaterial; clothMaterial; glassMaterial; matteMaterial] ->
  Forall (call_ok s) RenderScene_calls.
Proof.
  intros Hmat.
  assert (Hp : defined_tag "plastic" (m_objectMaterials s))
    by (exists plasticMaterial; rewrite Hmat; cbn; auto 6).
  assert (Hm : defined_tag "metal" (m_objectMaterials s))
    by (exists metalMaterial; rewrite Hmat; cbn; auto 6).
  assert (Hc : defined_tag "cloth" (m_objectMaterials s))
    by (exists clothMaterial; rewrite Hmat; cbn; auto 6).
  assert (Hf : defined_tag "matteFinish" (m_objectMaterials s))
    by (exists matteMaterial; rewrite Hmat; cbn; auto 8).
  unfold RenderScene_calls, RenderDesktop_calls, RenderLegoMan_calls,
    RenderSodaCan_calls, RenderHeadPhones_calls, RenderLampBase_calls.
  cbn [app].
  repeat (apply Forall_cons; [first [exact I | assumption] |]).
  apply Forall_nil.
Qed.

(** Whatever the files on disk are, [PrepareScene] on a freshly
    constructed scene manager with a shader manager attached finishes, and
    the result is a prepared scene whose registered textures carry tags
    of [LoadSceneTextures] only. *)
Lemma PrepareScene_prepared env p pm g :
  exists w1 tr,
    PrepareScene env {| this := SceneManager_ctor (Some p) pm; gl_generated := g |}
    = Done (tt, w1, tr) /\
    prepared w1 /\
    m_pShaderManager (this w1) = Some p /\
    m_basicMeshes (this w1) = Some pm /\
    forall e, In e (registered (this w1)) ->
              In (TEXTURE_INFO.tag e) scene_texture_tags.
Proof.
  set (w0 := {| this := SceneManager_ctor (Some p) pm; gl_generated := g |}).
  destruct (LoadSceneTextures_loading env w0) as (w' & trT & Hload & Hinv).
  { unfold loading. cbn. repeat split; try lia; try (intros e []). }
  { cbn. lia. }
  destruct Hinv as (Hs & Hm & Hmat & Hlen & Hcnt & Htags).
  cbn in Hs, Hm, Hmat, Hlen.
  set (w2 := {| this :=
                  push_back matteMaterial
                    (push_back glassMaterial
                       (push_back clothMaterial
                          (push_back metalMaterial
                             (push_back plasticMaterial (this w')))));
                gl_generated := gl_generated w' |}).
  assert (Hs2 : m_pShaderManager (this w2) = Some p) by exact Hs.
  assert (Hm2 : m_basicMeshes (this w2) = Some pm) by exact Hm.
  destruct (SetupSceneLights_attached w2 p Hs2) as [trL Hlights].
  exists w2. eexists. split; [| split; [| split; [| split]]].
  - unfold PrepareScene.
    eapply bind_run; [exact Hload |].
    eapply bind_run; [apply DefineObjectMaterials_run |].
    eapply bind_run; [exact Hlights |].
    repeat (eapply bind_run; [apply (meshes_attached _ w2 pm Hm2) |]).
    apply (meshes_attached _ w2 pm Hm2).
  - unfold prepared. rewrite Hs2, Hm2.
    split; [discriminate |]. split; [discriminate |]. split.
    + unfold registry_ok. cbn. lia.
    + apply render_calls_ok. cbn. rewrite Hmat. reflexivity.
  - exact Hs2.
  - exact Hm2.
  - exact Htags.
Qed.

(** The desk surface: the second [SetShaderTexture] replaces the sampler
    of "marble" before anything is drawn, and with "glass" not
    registered the plane is drawn with sampler -1 bound. *)
Lemma RenderDesktop_glass {libm : Libm} w p pm :
  m_pShaderManager (this w) = Some p -> m_basicMeshes (this w) = Some pm ->
  registry_ok (this w) -> absent_tag "glass" (this w) ->
  exists model marble_slot,
    RenderDesktop w =
    Done (tt, w,
          [setMat4Value g_ModelName model;
           setIntValue g_UseTextureName 1;
           setSampler2DValue g_TextureValueName marble_slot;
           setVec2Value "UVscale" (GLM.Vec2 1 1);
           setIntValue g_UseTextureName 1;
           setSampler2DValue g_TextureValueName (-1);
           DrawMesh Plane]).
Proof.
  intros Hp Hpm Hok Habs.
  destruct (FindTextureSlot_total "marble" (this w) Hok) as [i Hi].
  unfold RenderDesktop, RenderDesktop_calls. cbn [perform exec].
  do 2 eexists.
  erewrite bind_same;
    [| apply (TransformBuilder.SetTransformations_attached _ _ _ _ _ w p Hp) |].
  2:{ erewrite bind_same; [| apply (SetShaderTexture_attached _ w p i Hp Hi) |].
      2:{ erewrite bind_same; [| apply (SetTextureUVScale_attached _ _ w p Hp) |].
          2:{ erewrite bind_same;
                [| apply (SetShaderTexture_attached "glass" w p (-1) Hp
                            (FindTextureSlot_absent "glass" (this w) Hok Habs)) |].
              2:{ erewrite bind_same;
                    [| apply (meshes_attached _ w pm Hpm) | reflexivity].
                  reflexivity. }
              reflexivity. }
          reflexivity. }
      reflexivity. }
  reflexivity.
Qed.

(** (C4) Missing texture tag.  For every state whose counter is within
    the array and every tag carried by no registered texture,
    [FindTextureSlot] and [FindTextureID] return -1, and
    [SetShaderTexture], when a shader manager is attached, switches
    texture mode on and binds sampler index -1 without any check.  In the
    render phase this happens for the desk surface: whatever files exist,
    after [PrepareScene] no texture is tagged "glass", [RenderDesktop]
    asks for it, and the plane is drawn with sampler -1 bound. *)
Theorem missing_texture_tag {libm : Libm} :
  (forall tag w,
     registry_ok (this w) -> absent_tag tag (this w) ->
     FindTextureSlot tag (this w) = Done (-1) /\
     FindTextureID tag (this w) = Done (-1) /\
     forall p, m_pShaderManager (this w) = Some p ->
       SetShaderTexture tag w =
       Done (tt, w, [setIntValue "bUseTexture" 1;
                     setSampler2DValue "objectTexture" (-1)])) /\
  (forall env p pm g,
     exists w1 tr,
       PrepareScene env {| this := SceneManager_ctor (Some p) pm; gl_generated := g |}
       = Done (tt, w1, tr) /\
       absent_tag "glass" (this w1) /\
       In (call_SetShaderTexture "glass") RenderDesktop_calls /\
       exists model marble_slot,
         RenderDesktop w1 =
         Done (tt, w1,
               [setMat4Value "model" model;
                setIntValue "bUseTexture" 1;
                setSampler2DValue "objectTexture" marble_slot;
                setVec2Value "UVscale" (GLM.Vec2 1 1);
                setIntValue "bUseTexture" 1;
                setSampler2DValue "objectTexture" (-1);
                DrawMesh Plane])).
Proof.
  split.
  - intros tag w Hok Habs.
    split; [exact (FindTextureSlot_absent tag (this w) Hok Habs) |].
    split; [exact (FindTextureID_absent tag (this w) Hok Habs) |].
    intros p Hp.
    exact (SetShaderTexture_attached tag w p (-1) Hp
             (FindTextureSlot_absent tag (this w) Hok Habs)).
  - intros env p pm g.
    destruct (PrepareScene_prepared env p pm g)
      as (w1 & tr & Hrun & (_ & _ & Hok & _) & Hp & Hpm & Htags).
    assert (Habs : absent_tag "glass" (this w1)).
    { intros e Hin Htag. apply Htags in Hin. rewrite Htag in Hin.
      cbn in Hin. intuition discriminate. }
    exists w1, tr. split; [exact Hrun |]. split; [exact Habs |].
    split; [cbn; auto |].
    exact (RenderDesktop_glass w1 p pm Hp Hpm Hok Habs).
Qed.

Lemma missing_texture_tag_witness :
  FindTextureSlot "glass" (this example_prepared) = Done (-1) /\
  FindTextureID "glass" (this example_prepared) = Done (-1) /\
  SetShaderTexture "glass" example_prepared =
  Done (tt, example_prepared,
        [setIntValue "bUseTexture" 1; setSampler2DValue "objectTexture" (-1)]).
Proof.
  assert (Hok : registry_ok (this example_prepared))
    by (unfold registry_ok; split; vm_compute; discriminate).
  assert (Habs : absent_tag "glass" (this example_prepared)).
  { intros e Hin. vm_compute in Hin.
    repeat (destruct Hin as [<- | Hin]; [cbn; discriminate |]). destruct Hin. }
  destruct (proj1 (@missing_texture_tag example_libm) "glass" example_prepared Hok Habs)
    as (Hslot & Hid & Hset).
  split; [exact Hslot |]. split; [exact Hid |].
  exact (Hset 1%positive eq_refl).
Defined.

(** (C7) Draw preparation.  In the sequence of calls that one
    [RenderScene] invocation makes, every mesh draw is preceded, since
    the previous draw or the start, by a [SetTransformations] call and,
    after it, by at least one of [SetShaderMaterial], [SetShaderTexture],
    [SetShaderColor].  In a prepared scene the same holds for what
    reaches the collaborators: the invocation finishes, and every mesh
    draw is preceded by the write of the model matrix and, after it, by a
    write of a material member, of the texture sampler or of the object
    colour. *)
Theorem draws_are_prepared {libm : Libm} :
  draw_prepared (map call_kind RenderScene_calls) /\
  (forall w, prepared w ->
     exists tr, RenderScene w = Done (tt, w, tr) /\
                draw_prepared (map event_kind tr)).
Proof.
  split.
  - apply scan_draw_prepared. reflexivity.
  - intros w Hw. destruct (RenderScene_prepared w Hw) as (tr & Hrun & Hk).
    exists tr. split; [exact Hrun |].
    rewrite Hk. apply scan_draw_prepared. reflexivity.
Qed.

Lemma example_prepared_prepared : prepared example_prepared.
Proof.
  unfold prepared.
  split; [vm_compute; discriminate |]. split; [vm_compute; discriminate |].
  split; [unfold registry_ok; split; vm_compute; discriminate |].
  apply render_calls_ok. reflexivity.
Defined.

Lemma draws_are_prepared_witness :
  exists tr, @RenderScene example_libm example_prepared = Done (tt, example_prepared, tr) /\
             draw_prepared (map event_kind tr).
Proof.
  apply (proj2 (@draws_are_prepared example_libm) example_prepared).
  exact example_prepared_prepared.
Defined.

(** (C8) Render idempotence.  From a prepared scene, two successive
    [RenderScene] invocations both finish and issue the same sequence of
    calls (transform, material, texture, colour and draw operations
    alike), and after each of them the texture slots, the loaded-texture
    count and the materials are what they were before. *)
Theorem render_twice_identical {libm : Libm} w :
  prepared w ->
  exists w1 tr1 w2 tr2,
    RenderScene w = Done (tt, w1, tr1) /\
    RenderScene w1 = Done (tt, w2, tr2) /\
    tr1 = tr2 /\
    registries w1 = registries w /\
    registries w2 = registries w.
Proof.
  intros Hw. destruct (RenderScene_prepared w Hw) as (tr & Hrun & _).
  exists w, tr, w, tr. repeat split; assumption.
Qed.

Lemma render_twice_identical_witness :
  exists w1 tr1 w2 tr2,
    @RenderScene example_libm example_prepared = Done (tt, w1, tr1) /\
    @RenderScene example_libm w1 = Done (tt, w2, tr2) /\
    tr1 = tr2 /\
    registries w1 = registries example_prepared /\
    registries w2 = registries example_prepared.
Proof.
  apply (@render_twice_identical example_libm example_prepared).
  exact example_prepared_prepared.
Defined.


(** *** The example scene, run *)

(** All six textures load, in the order of [LoadSceneTextures]. *)
Example example_registered_tags :
  map TEXTURE_INFO.tag (registered (this example_prepared)) = scene_texture_tags.
Proof. vm_compute. reflexivity. Qed.

(** The desk surface binds the sampler of "marble" (slot 0), then -1 for
    "glass", and draws the plane. *)
Example example_desktop_samplers :
  samplers (issued (@RenderDesktop example_libm example_prepared)) = [0; -1] /\
  drawn (issued (@RenderDesktop example_libm example_prepared)) = [Plane].
Proof. split; reflexivity. Qed.

(** One frame draws twenty meshes; the textured parts bind the slots of
    "leg", "body", "face", "arm" and "can". *)
Example example_frame :
  drawn (issued (@RenderScene example_libm example_prepared)) =
    [Plane;
     Box; Box; Box; Cylinder; Cylinder; Cylinder; Sphere; Cylinder; Cylinder;
     Sphere; Sphere;
     Cylinder; TaperedCylinder;
     HalfTorus; Cylinder; Cylinder;
     Box; Box; Prism] /\
  samplers (issued (@RenderScene example_libm example_prepared)) =
    [0; -1; 4; 4; 4; 2; 1; 3; 3; 5].
Proof. split; reflexivity. Qed.

End RenderPhase.

(** ** Further properties of the texture registry *)

Module RegistryLaws.
Import TextureRegistry.

(** *** More array facts *)

Lemma skipn_succ_store {A} (l : list A) n x :
  skipn (S n) (store l n x) = skipn (S n) l.
Proof.
  revert n; induction l as [| a l IH]; intros [| n]; cbn; auto.
  apply IH.
Qed.

Lemma firstn_skipn_succ {A} (l : list A) n m e :
  nth_error l n = Some e ->
  firstn (S m) (skipn n l) = e :: firstn m (skipn (S n) l).
Proof. intros H. rewrite (skipn_nth_error _ _ _ H). reflexivity. Qed.

Lemma first_match_app tag l l' j e :
  first_match tag l = Some (j, e) -> first_match tag (l ++ l') = Some (j, e).
Proof.
  revert j e; induction l as [| a l IH]; intros j e H; cbn in *; [discriminate |].
  destruct (TEXTURE_INFO.tag a =? tag)%string; [exact H |].
  destruct (first_match tag l) as [[j' e'] |]; [| discriminate].
  rewrite (IH j' e' eq_refl). exact H.
Qed.

Lemma first_match_sound tag l j e :
  first_match tag l = Some (j, e) ->
  nth_error l j = Some e /\ TEXTURE_INFO.tag e = tag /\
  forall k e', (k < j)%nat -> nth_error l k = Some e' -> TEXTURE_INFO.tag e' <> tag.
Proof.
  revert j e; induction l as [| a l IH]; intros j e H; cbn in H; [discriminate |].
  destruct (String.eqb_spec (TEXTURE_INFO.tag a) tag) as [E | NE].
  - injection H as <- <-. repeat split; [exact E |]. intros k e' Hk. lia.
  - destruct (first_match tag l) as [[j' e''] |]; [| discriminate].
    injection H as <- <-.
    destruct (IH j' e'' eq_refl) as (Hn & Ht & Hbefore).
    repeat split; [exact Hn | exact Ht |].
    intros [| k] e' Hk Hnth; cbn in Hnth.
    + injection Hnth as <-. exact NE.
    + apply (Hbefore k e'); [lia | exact Hnth].
Qed.

Lemma first_match_none tag l :
  first_match tag l = None -> forall e, In e l -> TEXTURE_INFO.tag e <> tag.
Proof.
  induction l as [| a l IH]; intros H e Hin; [destruct Hin |].
  cbn in H.
  destruct (String.eqb_spec (TEXTURE_INFO.tag a) tag) as [E | NE]; [discriminate |].
  destruct (first_match tag l) as [[j' e''] |] eqn:F; [discriminate |].
  destruct Hin as [<- | Hin]; [exact NE | exact (IH eq_refl e Hin)].
Qed.

Lemma registered_length s :
  registry_ok s -> List.length (registered s) = Z.to_nat (m_loadedTextures s).
Proof.
  intros [H0 H1]. unfold registered. rewrite firstn_length_le; [reflexivity | lia].
Qed.

Lemma registered_nth s k e :
  nth_error (registered s) k = Some e -> nth_error (m_textureIDs s) k = Some e.
Proof.
  unfold registered. revert k. generalize (Z.to_nat (m_loadedTextures s)) as n.
  induction (m_textureIDs s) as [| a l IH]; intros [| n] [| k] H; cbn in *;
    try discriminate; auto.
  apply (IH n k H).
Qed.

(** *** Every way [CreateGLTexture] can finish *)

Ltac run_in H :=
  unfold register, slot, gen_texture, update_self, lift,
    shader, meshes, emit, undefined, ret, self, bind in H; cbn in H.

Lemma CreateGLTexture_Done env f tag w b w' tr :
  CreateGLTexture env f tag w = Done (b, w', tr) ->
  (stbi_load env f = None /\ b = false /\ w' = w /\
   tr = [stbi_set_flip_vertically_on_load true; cout (could_not_load f)])
  \/
  (exists img,
     stbi_load env f = Some img /\
     colorChannels img <> 3 /\ colorChannels img <> 4 /\
     b = false /\
     w' = {| this := this w; gl_generated := S (gl_generated w) |} /\
     tr = [stbi_set_flip_vertically_on_load true;
           cout (loaded_image f img);
           glGenTextures (gl_fresh env (gl_generated w));
           glBindTexture (gl_fresh env (gl_generated w));
           glWrapRepeat GL_TEXTURE_WRAP_S; glWrapRepeat GL_TEXTURE_WRAP_T;
           glFilterLinear GL_TEXTURE_MIN_FILTER; glFilterLinear GL_TEXTURE_MAG_FILTER;
           cout (channels_not_handled (colorChannels img))])
  \/
  (exists img fmt,
     stbi_load env f = Some img /\
     ((colorChannels img = 3 /\ fmt = GL_RGB) \/
      (colorChannels img = 4 /\ fmt = GL_RGBA)) /\
     0 <= m_loadedTextures (this w) < Z.of_nat (List.length (m_textureIDs (this w))) /\
     b = true /\
     w' = {| this := registered_state tag (gl_fresh env (gl_generated w)) (this w);
             gl_generated := S (gl_generated w) |} /\
     tr = [stbi_set_flip_vertically_on_load true;
           cout (loaded_image f img);
           glGenTextures (gl_fresh env (gl_generated w));
           glBindTexture (gl_fresh env (gl_generated w));
           glWrapRepeat GL_TEXTURE_WRAP_S; glWrapRepeat GL_TEXTURE_WRAP_T;
           glFilterLinear GL_TEXTURE_MIN_FILTER; glFilterLinear GL_TEXTURE_MAG_FILTER;
           glTexImage2D fmt (width img) (height img);
           glGenerateMipmap; stbi_image_free; glBindTexture 0]).
Proof.
  intros Hrun.
  destruct (stbi_load env f) as [img |] eqn:Himg.
  2:{ rewrite (CreateGLTexture_undecodable env f tag w Himg) in Hrun.
      injection Hrun as <- <- <-. left. auto. }
  right.
  destruct (Z.eq_dec (colorChannels img) 3) as [E3 | N3];
    [| destruct (Z.eq_dec (colorChannels img) 4) as [E4 | N4]].
  3:{ rewrite (CreateGLTexture_bad_channels env f tag w img Himg N3 N4) in Hrun.
      injection Hrun as <- <- <-. left. exists img. auto 8. }
  all: right.
  all: unfold CreateGLTexture in Hrun; rewrite Himg in Hrun.
  - rewrite E3 in Hrun. cbn [Z.eqb Pos.eqb] in Hrun. run_in Hrun.
    destruct (m_loadedTextures (this w) <? 0) eqn:Hneg; [discriminate |].
    destruct (nth_error (m_textureIDs (this w)) (Z.to_nat (m_loadedTextures (this w))))
      as [e |] eqn:He; [| discriminate].
    cbn in Hrun. injection Hrun as <- <- <-.
    exists img, GL_RGB. apply Z.ltb_ge in Hneg.
    assert (Hlt : (Z.to_nat (m_loadedTextures (this w))
                   < List.length (m_textureIDs (this w)))%nat)
      by (apply nth_error_Some; congruence).
    repeat split; auto; lia.
  - rewrite E4 in Hrun. cbn [Z.eqb Pos.eqb] in Hrun. run_in Hrun.
    destruct (m_loadedTextures (this w) <? 0) eqn:Hneg; [discriminate |].
    destruct (nth_error (m_textureIDs (this w)) (Z.to_nat (m_loadedTextures (this w))))
      as [e |] eqn:He; [| discriminate].
    cbn in Hrun. injection Hrun as <- <- <-.
    exists img, GL_RGBA. apply Z.ltb_ge in Hneg.
    assert (Hlt : (Z.to_nat (m_loadedTextures (this w))
                   < List.length (m_textureIDs (this w)))%nat)
      by (apply nth_error_Some; congruence).
    repeat split; auto; lia.
Qed.


(** *** Lookups *)

(** (X1) In every state whose counter is within the array, the two
    lookups agree: either no registered texture carries the tag and both
    return -1, or both answer for the same slot, the first one carrying
    the tag: [FindTextureSlot] returns its index, which lies below
    [m_loadedTextures], and [FindTextureID] returns its name. *)
Theorem lookups_agree (tag : string) (s : SceneManager) :
  registry_ok s ->
  (absent_tag tag s /\
   FindTextureSlot tag s = Done (-1) /\ FindTextureID tag s = Done (-1))
  \/
  (exists j e,
     0 <= j < m_loadedTextures s /\
     nth_error (m_textureIDs s) (Z.to_nat j) = Some e /\
     TEXTURE_INFO.tag e = tag /\
     (forall k e', (k < Z.to_nat j)%nat ->
        nth_error (m_textureIDs s) k = Some e' -> TEXTURE_INFO.tag e' <> tag) /\
     FindTextureSlot tag s = Done j /\
     FindTextureID tag s = Done (int_of_GLuint (TEXTURE_INFO.ID e))).
Proof.
  intros Hok.
  rewrite (FindTextureSlot_spec tag s Hok), (FindTextureID_spec tag s Hok).
  destruct (first_match tag (registered s)) as [[j e] |] eqn:F.
  - right. destruct (first_match_sound _ _ _ _ F) as (Hn & Ht & Hbefore).
    assert (Hj : (j < List.length (registered s))%nat)
      by (apply nth_error_Some; congruence).
    rewrite (registered_length s Hok) in Hj.
    exists (Z.of_nat j), e. rewrite Nat2Z.id.
    repeat split; try lia.
    + exact (registered_nth s j e Hn).
    + exact Ht.
    + intros k e' Hk Hnth. apply (Hbefore k e' Hk).
      unfold registered.
      rewrite nth_error_firstn.
      destruct (Nat.ltb_spec k (Z.to_nat (m_loadedTextures s))); [exact Hnth | lia].
  - left. split; [exact (first_match_none _ _ F) |]. split; reflexivity.
Qed.

Lemma lookups_agree_witness :
  (absent_tag "can" (this example_prepared) /\
   FindTextureSlot "can" (this example_prepared) = Done (-1) /\
   FindTextureID "can" (this example_prepared) = Done (-1))
  \/
  (exists j e,
     0 <= j < m_loadedTextures (this example_prepared) /\
     nth_error (m_textureIDs (this example_prepared)) (Z.to_nat j) = Some e /\
     TEXTURE_INFO.tag e = "can" /\
     (forall k e', (k < Z.to_nat j)%nat ->
        nth_error (m_textureIDs (this example_prepared)) k = Some e' ->
        TEXTURE_INFO.tag e' <> "can") /\
     FindTextureSlot "can" (this example_prepared) = Done j /\
     FindTextureID "can" (this example_prepared)
     = Done (int_of_GLuint (TEXTURE_INFO.ID e))).
Proof.
  apply (lookups_agree "can" (this example_prepared)).
  unfold registry_ok; split; vm_compute; discriminate.
Defined.

(** *** One load *)

(** (X2) Whenever [CreateGLTexture] finishes, the counter is still within
    the array and has grown by one exactly when true was returned; the
    registered entries before the call are all kept, with the new entry
    (the tag and the name the driver just handed out) appended on
    success; pointers, materials and array size are untouched; and every
    tag that was found before is still found at the same slot with the
    same name. *)
Theorem CreateGLTexture_extends env filename tag w b w' tr :
  registry_ok (this w) ->
  CreateGLTexture env filename tag w = Done (b, w', tr) ->
  registry_ok (this w') /\
  m_pShaderManager (this w') = m_pShaderManager (this w) /\
  m_basicMeshes (this w') = m_basicMeshes (this w) /\
  m_objectMaterials (this w') = m_objectMaterials (this w) /\
  List.length (m_textureIDs (this w')) = List.length (m_textureIDs (this w)) /\
  m_loadedTextures (this w') = m_loadedTextures (this w) + (if b then 1 else 0) /\
  registered (this w') =
    registered (this w) ++
    (if b then [TEXTURE_INFO.make tag (gl_fresh env (gl_generated w))] else []) /\
  (forall tag0 j,
     FindTextureSlot tag0 (this w) = Done j -> j <> -1 ->
     FindTextureSlot tag0 (this w') = Done j /\
     FindTextureID tag0 (this w') = FindTextureID tag0 (this w)).
Proof.
  intros Hok Hrun.
  assert (Hcases :
    (b = false /\ this w' = this w) \/
    (b = true /\
     0 <= m_loadedTextures (this w) < Z.of_nat (List.length (m_textureIDs (this w))) /\
     this w' = registered_state tag (gl_fresh env (gl_generated w)) (this w))).
  { destruct (CreateGLTexture_Done _ _ _ _ _ _ _ Hrun)
      as [(_ & -> & -> & _) | [(img & _ & _ & _ & -> & -> & _)
                              | (img & fmt & _ & _ & Hr & -> & -> & _)]];
      cbn; auto. }
  destruct Hcases as [(-> & Hsame) | (-> & Hrange & Hnew)].
  - rewrite Hsame. rewrite app_nil_r, Z.add_0_r.
    split; [exact Hok |]. repeat split; auto.
  - rewrite Hnew. rewrite (registered_state_registered _ _ _ Hrange).
    split; [exact (registered_state_ok _ _ _ Hrange) |].
    unfold registered_state at 1 2 3 4 5; cbn. rewrite store_length.
    repeat split.
    + rewrite (FindTextureSlot_spec tag0 (this w) Hok) in H.
      rewrite (FindTextureSlot_spec _ _ (registered_state_ok _ _ _ Hrange)).
      rewrite (registered_state_registered _ _ _ Hrange).
      destruct (first_match tag0 (registered (this w))) as [[j0 e0] |] eqn:F.
      * rewrite (first_match_app _ _ _ _ _ F). exact H.
      * injection H as <-. congruence.
    + rewrite (FindTextureSlot_spec tag0 (this w) Hok) in H.
      rewrite (FindTextureID_spec tag0 (this w) Hok).
      rewrite (FindTextureID_spec _ _ (registered_state_ok _ _ _ Hrange)).
      rewrite (registered_state_registered _ _ _ Hrange).
      destruct (first_match tag0 (registered (this w))) as [[j0 e0] |] eqn:F.
      * rewrite (first_match_app _ _ _ _ _ F). reflexivity.
      * injection H as <-. congruence.
Qed.

Lemma CreateGLTexture_extends_witness :
  let w' := final_world (CreateGLTexture example_env "marble.jpg" "marble" example_start)
                        example_start in
  m_loadedTextures (this w') = m_loadedTextures (this example_start) + 1 /\
  registered (this w') =
    registered (this example_start) ++
    [TEXTURE_INFO.make "marble" (gl_fresh example_env (gl_generated example_start))].
Proof.
  intros w'.
  destruct (CreateGLTexture_extends example_env "marble.jpg" "marble" example_start
              true w'
              (issued (CreateGLTexture example_env "marble.jpg" "marble" example_start)))
    as (_ & _ & _ & _ & _ & Hcount & Hreg & _).
  - unfold registry_ok; split; vm_compute; discriminate.
  - reflexivity.
  - split; [exact Hcount | exact Hreg].
Defined.

(** (X3) The array has no overflow check: when the counter does not
    point into the array (sixteen textures are registered), loading one
    more RGB or RGBA image writes out of range, which is undefined
    behaviour, instead of being refused. *)
Theorem CreateGLTexture_overflow env filename tag w :
  loadable env filename = true ->
  ~ (0 <= m_loadedTextures (this w) < Z.of_nat (List.length (m_textureIDs (this w)))) ->
  CreateGLTexture env filename tag w = Undefined IndexOutOfRange.
Proof.
  unfold loadable. intros Hload Hfull.
  destruct (stbi_load env filename) as [img |] eqn:Himg; [| discriminate].
  unfold CreateGLTexture. rewrite Himg.
  assert (Hslot :
    (m_loadedTextures (this w) <? 0) = true \/
    ((m_loadedTextures (this w) <? 0) = false /\
     nth_error (m_textureIDs (this w)) (Z.to_nat (m_loadedTextures (this w))) = None)).
  { destruct (Z.ltb_spec (m_loadedTextures (this w)) 0); [left; reflexivity |].
    right. split; [reflexivity |]. apply nth_error_None. lia. }
  destruct (colorChannels img =? 3) eqn:E3;
    [| destruct (colorChannels img =? 4) eqn:E4; [| discriminate]];
    run; destruct Hslot as [-> | [-> ->]]; reflexivity.
Qed.

Lemma CreateGLTexture_overflow_witness :
  m_loadedTextures (this example_full) = 16 /\
  CreateGLTexture example_env "texture.jpg" "t16" example_full
  = Undefined IndexOutOfRange.
Proof.
  split; [reflexivity |].
  apply (CreateGLTexture_overflow example_env "texture.jpg" "t16" example_full).
  - reflexivity.
  - vm_compute. intros [_ H]. discriminate.
Defined.

(** (X4) What a finished load costs.  The driver hands out one texture
    name exactly when the file decodes, also when the image is then
    rejected for its channel count; that name is bound; the decoded image
    is freed exactly when true is returned; and no texture is ever
    deleted.  So the rejected-image path keeps the image and the texture
    name it took. *)
Theorem CreateGLTexture_resources env filename tag w b w' tr :
  CreateGLTexture env filename tag w = Done (b, w', tr) ->
  gl_generated w' =
    (if decodes env filename then S (gl_generated w) else gl_generated w) /\
  generated tr =
    (if decodes env filename then [gl_fresh env (gl_generated w)] else []) /\
  (decodes env filename = true ->
   In (glBindTexture (gl_fresh env (gl_generated w))) tr) /\
  (In stbi_image_free tr <-> b = true) /\
  (forall name, ~ In (glDeleteTextures name) tr).
Proof.
  intros Hrun. unfold decodes.
  destruct (CreateGLTexture_Done _ _ _ _ _ _ _ Hrun)
    as [(-> & -> & -> & ->) | [(img & -> & _ & _ & -> & -> & ->)
                              | (img & fmt & -> & _ & _ & -> & -> & ->)]];
    cbn; repeat split; auto; try discriminate;
    try (intros H; repeat (destruct H as [H | H]; try discriminate); tauto);
    try (intros name H; repeat (destruct H as [H | H]; try discriminate); tauto).
Qed.

Lemma CreateGLTexture_resources_witness :
  let o := CreateGLTexture example_env "gray.png" "gray" example_start in
  gl_generated (final_world o example_start) = 1%nat /\
  generated (issued o) = [1] /\
  ~ In stbi_image_free (issued o).
Proof.
  intros o.
  destruct (CreateGLTexture_resources example_env "gray.png" "gray" example_start
              false (final_world o example_start) (issued o) eq_refl)
    as (Hg & Hn & _ & Hfree & _).
  split; [exact Hg |]. split; [exact Hn |].
  intros Hin. apply Hfree in Hin. discriminate.
Defined.


(** *** Binding *)

Lemma BindGLTextures_from_calls n :
  forall i w,
    0 <= i -> (Z.to_nat i + n <= List.length (m_textureIDs (this w)))%nat ->
    BindGLTextures_from n i w =
    Done (tt, w,
          binding_calls i (firstn n (skipn (Z.to_nat i) (m_textureIDs (this w))))).
Proof.
  induction n as [| n IH]; intros i w Hi Hle; cbn [BindGLTextures_from].
  - reflexivity.
  - destruct (nth_error (m_textureIDs (this w)) (Z.to_nat i)) as [e |] eqn:E.
    2:{ apply nth_error_None in E. lia. }
    assert (Hneg : (i <? 0) = false) by (apply Z.ltb_ge; lia).
    rewrite (firstn_skipn_succ _ _ n _ E). cbn [binding_calls].
    pose proof (IH (i + 1) w ltac:(lia) ltac:(lia)) as Hrest.
    replace (Z.to_nat (i + 1)) with (S (Z.to_nat i)) in Hrest by lia.
    unfold slot, emit, ret, self, bind. cbn [this]. rewrite Hneg, E.
    rewrite Hrest. reflexivity.
Qed.

Lemma binding_calls_nth l :
  forall i k e,
    nth_error l k = Some e ->
    exists before after,
      binding_calls i l =
      before ++ glActiveTexture (i + Z.of_nat k)
             :: glBindTexture (TEXTURE_INFO.ID e) :: after.
Proof.
  induction l as [| a l IH]; intros i [| k] e H; cbn in H; try discriminate.
  - injection H as ->. exists [], (binding_calls (i + 1) l).
    cbn. rewrite Z.add_0_r. reflexivity.
  - destruct (IH (i + 1) k e H) as (before & after & Heq).
    exists (glActiveTexture i :: glBindTexture (TEXTURE_INFO.ID a) :: before), after.
    cbn [binding_calls app]. rewrite Heq.
    replace (i + 1 + Z.of_nat k) with (i + Z.of_nat (S k)) by lia.
    reflexivity.
Qed.

(** (X5) With the counter within the array, [BindGLTextures] changes
    nothing in the scene manager and binds, for each registered slot in
    increasing order, texture unit i to the name stored in slot i, and
    nothing else: two driver calls per registered texture. *)
Theorem BindGLTextures_binds_slots (w : World) :
  registry_ok (this w) ->
  BindGLTextures w = Done (tt, w, binding_calls 0 (registered (this w))) /\
  List.length (binding_calls 0 (registered (this w)))
  = (2 * Z.to_nat (m_loadedTextures (this w)))%nat.
Proof.
  intros Hok. split.
  - destruct Hok as [H0 H1].
    unfold BindGLTextures. unfold bind at 1, self at 1.
    rewrite (BindGLTextures_from_calls (Z.to_nat (m_loadedTextures (this w))) 0 w ltac:(lia) ltac:(cbn; lia)).
    reflexivity.
  - rewrite <- (registered_length _ Hok).
    generalize 0 as i. induction (registered (this w)) as [| e l IH]; intros i.
    + reflexivity.
    + cbn [binding_calls List.length]. rewrite IH. lia.
Qed.

Lemma BindGLTextures_binds_slots_witness :
  BindGLTextures example_prepared =
  Done (tt, example_prepared,
        [glActiveTexture 0; glBindTexture 1; glActiveTexture 1; glBindTexture 2;
         glActiveTexture 2; glBindTexture 3; glActiveTexture 3; glBindTexture 4;
         glActiveTexture 4; glBindTexture 5; glActiveTexture 5; glBindTexture 6]).
Proof.
  refine (proj1 (BindGLTextures_binds_slots example_prepared _)).
  unfold registry_ok; split; vm_compute; discriminate.
Defined.

(** (X6) Sampler indices and texture units agree.  When a tag is found,
    the index [SetShaderTexture] pushes as sampler is a texture unit that
    [BindGLTextures] binds, and it binds it to the name stored with that
    tag, the one [FindTextureID] reports. *)
Theorem sampler_is_bound_unit (tag : string) (w : World) (p : positive) (j : Z) :
  registry_ok (this w) ->
  m_pShaderManager (this w) = Some p ->
  FindTextureSlot tag (this w) = Done j -> j <> -1 ->
  exists e before after,
    nth_error (m_textureIDs (this w)) (Z.to_nat j) = Some e /\
    TEXTURE_INFO.tag e = tag /\
    FindTextureID tag (this w) = Done (int_of_GLuint (TEXTURE_INFO.ID e)) /\
    SetShaderTexture tag w =
      Done (tt, w, [setIntValue "bUseTexture" 1; setSampler2DValue "objectTexture" j]) /\
    BindGLTextures w =
      Done (tt, w,
            before ++ glActiveTexture j :: glBindTexture (TEXTURE_INFO.ID e) :: after).
Proof.
  intros Hok Hp Hslot Hfound.
  pose proof Hslot as Hslot'.
  rewrite (FindTextureSlot_spec tag (this w) Hok) in Hslot'.
  destruct (first_match tag (registered (this w))) as [[k e] |] eqn:F.
  2:{ injection Hslot' as <-. congruence. }
  injection Hslot' as <-.
  destruct (first_match_sound _ _ _ _ F) as (Hn & Ht & _).
  destruct (binding_calls_nth (registered (this w)) 0 k e Hn)
    as (before & after & Hcalls).
  exists e, before, after. rewrite Nat2Z.id.
  split; [exact (registered_nth _ _ _ Hn) |]. split; [exact Ht |].
  split; [rewrite (FindTextureID_spec tag (this w) Hok), F; reflexivity |].
  split; [exact (SetShaderTexture_attached tag w p (Z.of_nat k) Hp Hslot) |].
  destruct Hok as [H0 H1].
  unfold BindGLTextures. unfold bind at 1, self at 1.
  rewrite (BindGLTextures_from_calls (Z.to_nat (m_loadedTextures (this w))) 0 w ltac:(lia) ltac:(cbn; lia)).
  cbn [Z.to_nat skipn]. fold (registered (this w)). rewrite Hcalls. reflexivity.
Qed.

Lemma sampler_is_bound_unit_witness :
  exists e before after,
    nth_error (m_textureIDs (this example_prepared)) (Z.to_nat 5) = Some e /\
    TEXTURE_INFO.tag e = "can" /\
    FindTextureID "can" (this example_prepared)
    = Done (int_of_GLuint (TEXTURE_INFO.ID e)) /\
    SetShaderTexture "can" example_prepared =
      Done (tt, example_prepared,
            [setIntValue "bUseTexture" 1; setSampler2DValue "objectTexture" 5]) /\
    BindGLTextures example_prepared =
      Done (tt, example_prepared,
            before ++ glActiveTexture 5 :: glBindTexture (TEXTURE_INFO.ID e) :: after).
Proof.
  apply (sampler_is_bound_unit "can" example_prepared 1%positive 5).
  - unfold registry_ok; split; vm_compute; discriminate.
  - reflexivity.
  - reflexivity.
  - discriminate.
Defined.


(** *** Teardown *)

Lemma world_eta (w : World) :
  {| this := set_textures (m_textureIDs (this w)) (m_loadedTextures (this w)) (this w);
     gl_generated := gl_generated w |} = w.
Proof. destruct w as [[] g]. reflexivity. Qed.

Lemma DestroyGLTextures_from_run env n :
  forall i w,
    0 <= i -> (Z.to_nat i + n <= List.length (m_textureIDs (this w)))%nat ->
    DestroyGLTextures_from env n i w =
    Done (tt,
          {| this :=
               set_textures
                 (firstn (Z.to_nat i) (m_textureIDs (this w)) ++
                  renamed env (gl_generated w)
                    (firstn n (skipn (Z.to_nat i) (m_textureIDs (this w)))) ++
                  skipn (Z.to_nat i + n) (m_textureIDs (this w)))
                 (m_loadedTextures (this w)) (this w);
             gl_generated := (gl_generated w + n)%nat |},
          map glGenTextures
            (map TEXTURE_INFO.ID
               (renamed env (gl_generated w)
                  (firstn n (skipn (Z.to_nat i) (m_textureIDs (this w))))))).
Proof.
  induction n as [| n IH]; intros i w Hi Hle.
  - cbn [DestroyGLTextures_from firstn renamed map app]. unfold ret.
    rewrite !Nat.add_0_r, firstn_skipn. rewrite world_eta. reflexivity.
  - destruct (nth_error (m_textureIDs (this w)) (Z.to_nat i)) as [e |] eqn:E.
    2:{ apply nth_error_None in E. lia. }
    assert (Hneg : (i <? 0) = false) by (apply Z.ltb_ge; lia).
    assert (Hlt : (Z.to_nat i < List.length (m_textureIDs (this w)))%nat) by lia.
    set (x := TEXTURE_INFO.make (TEXTURE_INFO.tag e) (gl_fresh env (gl_generated w))).
    set (w1 := {| this := set_textures (store (m_textureIDs (this w)) (Z.to_nat i) x)
                            (m_loadedTextures (this w)) (this w);
                  gl_generated := S (gl_generated w) |}).
    pose proof (IH (i + 1) w1 ltac:(lia)) as Hrest.
    replace (Z.to_nat (i + 1)) with (S (Z.to_nat i)) in Hrest by lia.
    cbn [this gl_generated m_textureIDs m_loadedTextures set_textures w1] in Hrest.
    rewrite store_length in Hrest. specialize (Hrest ltac:(lia)).
    rewrite (firstn_succ_store _ _ x Hlt) in Hrest.
    rewrite skipn_succ_store in Hrest.
    assert (Hskip : skipn (S (Z.to_nat i) + n) (store (m_textureIDs (this w)) (Z.to_nat i) x)
                    = skipn (Z.to_nat i + S n) (m_textureIDs (this w))).
    { replace (S (Z.to_nat i) + n)%nat with (n + S (Z.to_nat i))%nat by lia.
      rewrite <- skipn_skipn, skipn_succ_store, skipn_skipn. f_equal. lia. }
    rewrite Hskip in Hrest.
    cbn [DestroyGLTextures_from].
    unfold slot, gen_texture, update_self, self, ret, bind at 1 2 3 4 5.
    cbn [this gl_generated]. rewrite Hneg, E.
    fold x. fold w1. rewrite Hrest.
    rewrite (firstn_skipn_succ _ _ n _ E). cbn [renamed map app]. fold x.
    rewrite <- app_assoc. cbn [app].
    replace (gl_generated w + S n)%nat with (S (gl_generated w) + n)%nat by lia.
    reflexivity.
Qed.

Lemma first_match_renamed tag env l :
  forall g,
    match first_match tag l, first_match tag (renamed env g l) with
    | Some (j, _), Some (j', _) => j = j'
    | None, None => True
    | _, _ => False
    end.
Proof.
  induction l as [| a l IH]; intros g; cbn; [exact I |].
  destruct (TEXTURE_INFO.tag a =? tag)%string; [reflexivity |].
  specialize (IH (S g)).
  destruct (first_match tag l) as [[j e] |],
           (first_match tag (renamed env (S g) l)) as [[j' e'] |];
    try contradiction; [congruence | exact I].
Qed.

Lemma renamed_tags env l : forall g,
  map TEXTURE_INFO.tag (renamed env g l) = map TEXTURE_INFO.tag l.
Proof.
  induction l as [| a l IH]; intros g; cbn; [reflexivity | f_equal; apply IH].
Qed.

Lemma renamed_length env l : forall g,
  List.length (renamed env g l) = List.length l.
Proof.
  induction l as [| a l IH]; intros g; cbn; [reflexivity | f_equal; apply IH].
Qed.

(** (X7) With the counter within the array, [DestroyGLTextures] finishes
    and does not empty the registry: the counter and every tag stay, so
    [FindTextureSlot] answers exactly as before; pointers and materials
    are untouched.  What changes is each registered name, replaced by one
    the driver newly hands out: as many new names as there are registered
    textures, and no other driver call. *)
Theorem DestroyGLTextures_keeps_registry env (w : World) :
  registry_ok (this w) ->
  exists w',
    DestroyGLTextures env w =
      Done (tt, w', map glGenTextures (map TEXTURE_INFO.ID (registered (this w')))) /\
    m_loadedTextures (this w') = m_loadedTextures (this w) /\
    registered (this w') = renamed env (gl_generated w) (registered (this w)) /\
    map TEXTURE_INFO.tag (registered (this w'))
    = map TEXTURE_INFO.tag (registered (this w)) /\
    gl_generated w' = (gl_generated w + Z.to_nat (m_loadedTextures (this w)))%nat /\
    m_pShaderManager (this w') = m_pShaderManager (this w) /\
    m_basicMeshes (this w') = m_basicMeshes (this w) /\
    m_objectMaterials (this w') = m_objectMaterials (this w) /\
    (forall tag, FindTextureSlot tag (this w') = FindTextureSlot tag (this w)).
Proof.
  intros Hok. pose proof Hok as [H0 H1].
  set (n := Z.to_nat (m_loadedTextures (this w))).
  pose proof (DestroyGLTextures_from_run env n 0 w ltac:(lia) ltac:(cbn; lia)) as Hrun.
  cbn [Z.to_nat firstn skipn app Nat.add] in Hrun.
  fold (registered (this w)) in Hrun.
  exists {| this :=
              set_textures
                (renamed env (gl_generated w) (registered (this w)) ++
                 skipn n (m_textureIDs (this w)))
                (m_loadedTextures (this w)) (this w);
            gl_generated := (gl_generated w + n)%nat |}.
  unfold DestroyGLTextures. unfold bind at 1, self at 1.
  fold n. rewrite Hrun. cbn [this gl_generated].
  assert (Hreg : registered
            (set_textures
               (renamed env (gl_generated w) (registered (this w)) ++
                skipn n (m_textureIDs (this w)))
               (m_loadedTextures (this w)) (this w))
          = renamed env (gl_generated w) (registered (this w))).
  { unfold registered at 1. cbn [m_loadedTextures m_textureIDs set_textures]. fold n.
    rewrite firstn_app.
    assert (Hlen : List.length (renamed env (gl_generated w) (registered (this w))) = n).
    { rewrite renamed_length. apply (registered_length _ Hok). }
    rewrite Hlen, Nat.sub_diag. cbn [firstn]. rewrite app_nil_r.
    rewrite <- Hlen at 1. apply firstn_all. }
  assert (Hok' : registry_ok
            (set_textures
               (renamed env (gl_generated w) (registered (this w)) ++
                skipn n (m_textureIDs (this w)))
               (m_loadedTextures (this w)) (this w))).
  { unfold registry_ok. cbn [m_loadedTextures m_textureIDs set_textures].
    rewrite length_app, renamed_length, (registered_length _ Hok), length_skipn.
    fold n. lia. }
  rewrite Hreg. split; [reflexivity |].
  split; [reflexivity |]. split; [reflexivity |].
  split; [apply renamed_tags |]. split; [reflexivity |].
  split; [reflexivity |]. split; [reflexivity |]. split; [reflexivity |].
  intros tag.
  rewrite (FindTextureSlot_spec tag _ Hok'), (FindTextureSlot_spec tag _ Hok), Hreg.
  pose proof (first_match_renamed tag env (registered (this w)) (gl_generated w)) as Hfm.
  destruct (first_match tag (registered (this w))) as [[j e] |],
           (first_match tag (renamed env (gl_generated w) (registered (this w))))
             as [[j' e'] |]; try contradiction; [subst; reflexivity | reflexivity].
Qed.

Lemma DestroyGLTextures_keeps_registry_witness :
  exists w',
    DestroyGLTextures example_env example_prepared =
      Done (tt, w', map glGenTextures (map TEXTURE_INFO.ID (registered (this w')))) /\
    m_loadedTextures (this w') = m_loadedTextures (this example_prepared) /\
    registered (this w')
    = renamed example_env (gl_generated example_prepared)
        (registered (this example_prepared)) /\
    map TEXTURE_INFO.tag (registered (this w'))
    = map TEXTURE_INFO.tag (registered (this example_prepared)) /\
    gl_generated w' =
      (gl_generated example_prepared
       + Z.to_nat (m_loadedTextures (this example_prepared)))%nat /\
    m_pShaderManager (this w') = m_pShaderManager (this example_prepared) /\
    m_basicMeshes (this w') = m_basicMeshes (this example_prepared) /\
    m_objectMaterials (this w') = m_objectMaterials (this example_prepared) /\
    (forall tag, FindTextureSlot tag (this w')
                 = FindTextureSlot tag (this example_prepared)).
Proof.
  apply (DestroyGLTextures_keeps_registry example_env example_prepared).
  unfold registry_ok; split; vm_compute; discriminate.
Defined.

End RegistryLaws.

(** ** Further properties of scene preparation *)

Module Preparation.
Import TextureRegistry MaterialRegistry RenderPhase RegistryLaws.

Lemma world_same (w : World) :
  {| this := this w; gl_generated := gl_generated w |} = w.
Proof. destruct w. reflexivity. Qed.

(** [CreateGLTexture] with room in the array always finishes, and what
    it does is decided by the file alone. *)
Lemma CreateGLTexture_run env f tag w :
  0 <= m_loadedTextures (this w) < Z.of_nat (List.length (m_textureIDs (this w))) ->
  exists tr,
    CreateGLTexture env f tag w =
    Done (loadable env f,
          {| this := if loadable env f
                     then registered_state tag (gl_fresh env (gl_generated w)) (this w)
                     else this w;
             gl_generated := if decodes env f then S (gl_generated w)
                             else gl_generated w |},
          tr) /\
    loaded_meshes tr = [].
Proof.
  intros Hrange. unfold loadable, decodes.
  destruct (stbi_load env f) as [img |] eqn:Himg.
  2:{ rewrite (CreateGLTexture_undecodable env f tag w Himg), world_same.
      eexists; split; reflexivity. }
  destruct (Z.eq_dec (colorChannels img) 3) as [E3 | N3];
    [| destruct (Z.eq_dec (colorChannels img) 4) as [E4 | N4]].
  3:{ rewrite (CreateGLTexture_bad_channels env f tag w img Himg N3 N4).
      apply Z.eqb_neq in N3, N4. rewrite N3, N4. cbn [orb].
      eexists; split; reflexivity. }
  all: destruct (CreateGLTexture_success env f tag w img Himg ltac:(tauto) Hrange)
         as [tr Hrun].
  all: exists tr.
  all: destruct (CreateGLTexture_Done _ _ _ _ _ _ _ Hrun)
         as [(_ & Hb & _) | [(_ & _ & _ & _ & Hb & _)
                            | (img' & fmt & _ & _ & _ & _ & _ & ->)]];
         try discriminate.
  - rewrite Hrun, E3. split; reflexivity.
  - rewrite Hrun, E4. rewrite Bool.orb_true_r. split; reflexivity.
Qed.

Lemma loaded_meshes_app t1 t2 :
  loaded_meshes (t1 ++ t2) = loaded_meshes t1 ++ loaded_meshes t2.
Proof.
  induction t1 as [| e t1 IH]; [reflexivity |].
  destruct e; cbn; rewrite IH; reflexivity.
Qed.

Lemma load_all_run env loads :
  forall w,
    registry_ok (this w) ->
    m_loadedTextures (this w) + Z.of_nat (List.length loads)
      <= Z.of_nat (List.length (m_textureIDs (this w))) ->
    exists w' tr,
      load_all env loads w = Done (map (loadable_load env) loads, w', tr) /\
      registry_ok (this w') /\
      registered (this w') =
        registered (this w) ++ written_entries env (gl_generated w) loads /\
      gl_generated w' = names_after env (gl_generated w) loads /\
      m_pShaderManager (this w') = m_pShaderManager (this w) /\
      m_basicMeshes (this w') = m_basicMeshes (this w) /\
      m_objectMaterials (this w') = m_objectMaterials (this w) /\
      List.length (m_textureIDs (this w')) = List.length (m_textureIDs (this w)) /\
      loaded_meshes tr = [].
Proof.
  induction loads as [| [f tag] rest IH]; intros w Hok Hroom.
  - exists w, []. cbn. rewrite app_nil_r. repeat split; auto; apply Hok.
  - cbn [List.length] in Hroom. destruct Hok as [H0 H1].
    assert (Hrange : 0 <= m_loadedTextures (this w)
                     < Z.of_nat (List.length (m_textureIDs (this w)))) by lia.
    destruct (CreateGLTexture_run env f tag w Hrange) as (t1 & Hrun & Ht1).
    set (w1 := {| this := if loadable env f
                          then registered_state tag (gl_fresh env (gl_generated w)) (this w)
                          else this w;
                  gl_generated := if decodes env f then S (gl_generated w)
                                  else gl_generated w |}) in *.
    assert (Hw1 :
      registry_ok (this w1) /\
      m_loadedTextures (this w1) <= m_loadedTextures (this w) + 1 /\
      List.length (m_textureIDs (this w1)) = List.length (m_textureIDs (this w)) /\
      m_pShaderManager (this w1) = m_pShaderManager (this w) /\
      m_basicMeshes (this w1) = m_basicMeshes (this w) /\
      m_objectMaterials (this w1) = m_objectMaterials (this w) /\
      registered (this w1) =
        registered (this w) ++
        (if loadable env f
         then [TEXTURE_INFO.make tag (gl_fresh env (gl_generated w))] else [])).
    { unfold w1; cbn [this]. destruct (loadable env f).
      - split; [exact (registered_state_ok _ _ _ Hrange) |].
        rewrite (registered_state_registered _ _ _ Hrange).
        unfold registered_state; cbn. rewrite store_length.
        repeat split; lia.
      - rewrite app_nil_r. unfold registry_ok. repeat split; lia. }
    destruct Hw1 as (Hok1 & Hc1 & Hl1 & Hs1 & Hm1 & Hmat1 & Hreg1).
    destruct (IH w1 Hok1 ltac:(lia))
      as (w' & t2 & Hrest & Hok' & Hreg' & Hg' & Hs' & Hm' & Hmat' & Hl' & Ht2).
    exists w', (t1 ++ (t2 ++ [])).
    split.
    { cbn [load_all map]. unfold bind at 1. rewrite Hrun.
      unfold bind at 1. fold w1. rewrite Hrest. reflexivity. }
    split; [exact Hok' |].
    split.
    { rewrite Hreg', Hreg1, <- app_assoc. f_equal.
      cbn [written_entries]. unfold w1; cbn [gl_generated].
      unfold loadable, decodes.
      destruct (stbi_load env f) as [img |]; [| reflexivity].
      destruct ((colorChannels img =? 3) || (colorChannels img =? 4));
        reflexivity. }
    split; [rewrite Hg'; reflexivity |].
    split; [congruence |]. split; [congruence |]. split; [congruence |].
    split; [congruence |].
    rewrite !loaded_meshes_app, Ht1, Ht2. reflexivity.
Qed.

Lemma written_entries_tags env loads : forall g,
  map TEXTURE_INFO.tag (written_entries env g loads)
  = map snd (filter (loadable_load env) loads).
Proof.
  induction loads as [| [f tag] rest IH]; intros g; [reflexivity |].
  cbn [written_entries filter]. unfold loadable_load at 1. cbn [fst].
  destruct (loadable env f).
  - cbn. f_equal. apply IH.
  - destruct (decodes env f); apply IH.
Qed.

Lemma first_match_tags tag l :
  forall A B,
    map TEXTURE_INFO.tag l = A ++ tag :: B -> ~ In tag A ->
    exists e, first_match tag l = Some (List.length A, e).
Proof.
  induction l as [| a l IH]; intros A B Hmap Hnot.
  - destruct A; discriminate.
  - destruct A as [| t A]; cbn in Hmap; injection Hmap as Ha Hl.
    + cbn. rewrite (proj2 (String.eqb_eq _ _) Ha). eauto.
    + cbn [first_match].
      destruct (String.eqb_spec (TEXTURE_INFO.tag a) tag) as [E | NE].
      * exfalso. apply Hnot. left. congruence.
      * destruct (IH A B Hl) as [e He]; [intros Hin; apply Hnot; right; exact Hin |].
        rewrite He. eauto.
Qed.

(** (X8) Any sequence of at most sixteen loads on a fresh scene manager
    finishes, whatever the files are.  Each call returns true exactly
    when its file decodes to RGB or RGBA; failed calls leave no gap: the
    registered tags are the tags of the successful calls in call order,
    and a successful call whose tag no earlier successful call used gets
    as its slot the number of successful calls before it. *)
Theorem loads_register_in_order env pShader pMeshes g0 loads :
  (List.length loads <= 16)%nat ->
  exists w' tr,
    load_all env loads
      {| this := SceneManager_ctor pShader pMeshes; gl_generated := g0 |}
    = Done (map (loadable_load env) loads, w', tr) /\
    map TEXTURE_INFO.tag (registered (this w'))
    = map snd (filter (loadable_load env) loads) /\
    m_loadedTextures (this w')
    = Z.of_nat (List.length (filter (loadable_load env) loads)) /\
    forall i filename tag,
      nth_error loads i = Some (filename, tag) ->
      loadable env filename = true ->
      ~ In tag (map snd (filter (loadable_load env) (firstn i loads))) ->
      FindTextureSlot tag (this w')
      = Done (Z.of_nat (List.length (filter (loadable_load env) (firstn i loads)))).
Proof.
  intros Hlen.
  destruct (load_all_run env loads
              {| this := SceneManager_ctor pShader pMeshes; gl_generated := g0 |}
              (registry_ok_ctor _ _) ltac:(cbn; lia))
    as (w' & tr & Hrun & Hok & Hreg & _).
  cbn [this gl_generated] in Hreg. rewrite registered_ctor in Hreg. cbn [app] in Hreg.
  assert (Htags : map TEXTURE_INFO.tag (registered (this w'))
                  = map snd (filter (loadable_load env) loads))
    by (rewrite Hreg; apply written_entries_tags).
  exists w', tr. split; [exact Hrun |]. split; [exact Htags |].
  split.
  { pose proof (registered_length _ Hok) as Hl.
    rewrite <- (length_map TEXTURE_INFO.tag), Htags, length_map in Hl.
    destruct Hok as [H0 _]. lia. }
  intros i filename tag Hi Hload Hfresh.
  assert (Hf : filter (loadable_load env) loads
               = filter (loadable_load env) (firstn i loads)
                 ++ (filename, tag) :: filter (loadable_load env) (skipn (S i) loads)).
  { rewrite <- (firstn_skipn i loads) at 1.
    rewrite filter_app, (skipn_nth_error _ _ _ Hi). cbn [filter].
    unfold loadable_load at 2. cbn [fst]. rewrite Hload. reflexivity. }
  rewrite Hf, map_app in Htags. cbn [map snd] in Htags.
  destruct (first_match_tags tag (registered (this w')) _ _ Htags Hfresh) as [e He].
  rewrite (FindTextureSlot_spec tag _ Hok), He, length_map. reflexivity.
Qed.

(** With "gray.png" (one channel) and "missing.png" in between, "can"
    gets slot 1 on a fresh manager. *)
Lemma loads_register_in_order_witness :
  exists w' tr,
    load_all example_env
      [("marble.jpg", "marble"); ("gray.png", "gray");
       ("missing.png", "missing"); ("can.jpg", "can")]
      example_start
    = Done ([true; false; false; true], w', tr) /\
    FindTextureSlot "can" (this w') = Done 1.
Proof.
  destruct (loads_register_in_order example_env (Some 1%positive) 1%positive 0%nat
              [("marble.jpg", "marble"); ("gray.png", "gray");
               ("missing.png", "missing"); ("can.jpg", "can")] ltac:(cbn; lia))
    as (w' & tr & Hrun & _ & _ & Hslot).
  exists w', tr. split; [exact Hrun |].
  apply (Hslot 3%nat "can.jpg" "can"); [reflexivity | reflexivity |].
  cbn. intros [H | []]. discriminate.
Defined.


(** [LoadSceneTextures] is the sequence of its six loads followed by
    [BindGLTextures]. *)
Lemma LoadSceneTextures_loads env w :
  LoadSceneTextures env w = (load_all env scene_loads ;; BindGLTextures) w.
Proof.
  unfold LoadSceneTextures, scene_loads. cbn [load_all]. unfold bind, ret.
  repeat match goal with
         | |- context [CreateGLTexture env ?f ?t ?w0] =>
             destruct (CreateGLTexture env f t w0) as [[[? ?] ?] |];
             [| reflexivity]
         end.
  match goal with
  | |- context [BindGLTextures ?w0] =>
      destruct (BindGLTextures w0) as [[[[] ?] ?] |]; [| reflexivity]
  end.
  rewrite ?app_nil_r, <- ?app_assoc. reflexivity.
Qed.

Lemma LoadSceneTextures_run env w :
  registry_ok (this w) ->
  m_loadedTextures (this w) + 6 <= Z.of_nat (List.length (m_textureIDs (this w))) ->
  exists w' tr,
    LoadSceneTextures env w =
      Done (tt, w', tr ++ binding_calls 0 (registered (this w'))) /\
    registry_ok (this w') /\
    registered (this w') =
      registered (this w) ++ written_entries env (gl_generated w) scene_loads /\
    gl_generated w' = names_after env (gl_generated w) scene_loads /\
    m_pShaderManager (this w') = m_pShaderManager (this w) /\
    m_basicMeshes (this w') = m_basicMeshes (this w) /\
    m_objectMaterials (this w') = m_objectMaterials (this w) /\
    List.length (m_textureIDs (this w')) = List.length (m_textureIDs (this w)) /\
    loaded_meshes tr = [].
Proof.
  intros Hok Hroom.
  destruct (load_all_run env scene_loads w Hok ltac:(cbn; lia))
    as (w' & tr & Hrun & Hok' & Hrest).
  exists w', tr. split; [| split; [exact Hok' |]].
  - rewrite LoadSceneTextures_loads.
    destruct Hok' as [H0 H1].
    pose proof (BindGLTextures_from_calls
                  (Z.to_nat (m_loadedTextures (this w'))) 0 w'
                  ltac:(lia) ltac:(cbn; lia)) as Hbind.
    unfold bind at 1. rewrite Hrun.
    unfold BindGLTextures. unfold bind at 1, self at 1. rewrite Hbind.
    reflexivity.
  - decompose [and] Hrest. repeat split; assumption.
Qed.

(** (X9) Whatever the six image files are, [LoadSceneTextures] on a
    fresh scene manager finishes.  It registers exactly the scene
    textures whose file decodes to RGB or RGBA, in source order and
    without gaps, so a texture's slot is the number of scene textures
    before it that loaded; then it binds each registered texture to the
    unit of its slot.  Pointers and materials are untouched. *)
Theorem LoadSceneTextures_registers_loadable env pShader pMeshes g0 :
  exists w' tr,
    LoadSceneTextures env
      {| this := SceneManager_ctor pShader pMeshes; gl_generated := g0 |}
    = Done (tt, w', tr ++ binding_calls 0 (registered (this w'))) /\
    map TEXTURE_INFO.tag (registered (this w'))
    = map snd (filter (loadable_load env) scene_loads) /\
    m_loadedTextures (this w')
    = Z.of_nat (List.length (filter (loadable_load env) scene_loads)) /\
    m_pShaderManager (this w') = pShader /\
    m_basicMeshes (this w') = Some pMeshes /\
    m_objectMaterials (this w') = [] /\
    (forall i filename tag,
       nth_error scene_loads i = Some (filename, tag) ->
       FindTextureSlot tag (this w') =
       Done (if loadable env filename
             then Z.of_nat (List.length
                              (filter (loadable_load env) (firstn i scene_loads)))
             else -1)).
Proof.
  destruct (LoadSceneTextures_run env
              {| this := SceneManager_ctor pShader pMeshes; gl_generated := g0 |}
              (registry_ok_ctor _ _) ltac:(cbn; lia))
    as (w' & tr & Hrun & Hok & Hreg & _ & Hs & Hm & Hmat & _).
  cbn [this gl_generated] in Hreg. rewrite registered_ctor in Hreg. cbn [app] in Hreg.
  assert (Htags : map TEXTURE_INFO.tag (registered (this w'))
                  = map snd (filter (loadable_load env) scene_loads))
    by (rewrite Hreg; apply written_entries_tags).
  exists w', tr. split; [exact Hrun |]. split; [exact Htags |].
  split.
  { pose proof (registered_length _ Hok) as Hl.
    rewrite <- (length_map TEXTURE_INFO.tag), Htags, length_map in Hl.
    destruct Hok as [H0 _]. lia. }
  split; [exact Hs |]. split; [exact Hm |]. split; [exact Hmat |].
  intros i filename tag Hi.
  assert (Hdistinct : ~ In tag (map snd (firstn i scene_loads))).
  { do 6 (destruct i as [| i]; [cbn in Hi; injection Hi as <- <-; cbn;
                                  intuition discriminate |]).
    destruct i; discriminate. }
  assert (Hlater : ~ In tag (map snd (skipn (S i) scene_loads))).
  { do 6 (destruct i as [| i]; [cbn in Hi; injection Hi as <- <-; cbn;
                                  intuition discriminate |]).
    destruct i; discriminate. }
  assert (Hsub : forall l : list (string * string),
            ~ In tag (map snd l) -> ~ In tag (map snd (filter (loadable_load env) l))).
  { intros l Hn Hin. apply Hn. apply in_map_iff in Hin as ((f & t) & Ht & Hin).
    apply filter_In in Hin as [Hin _]. apply in_map_iff. exists (f, t). auto. }
  assert (Hf : filter (loadable_load env) scene_loads
               = filter (loadable_load env) (firstn i scene_loads)
                 ++ (if loadable env filename then [(filename, tag)] else [])
                 ++ filter (loadable_load env) (skipn (S i) scene_loads)).
  { rewrite <- (firstn_skipn i scene_loads) at 1.
    rewrite filter_app, (skipn_nth_error _ _ _ Hi). cbn [filter].
    unfold loadable_load at 2. cbn [fst].
    destruct (loadable env filename); reflexivity. }
  rewrite (FindTextureSlot_spec tag _ Hok).
  destruct (loadable env filename) eqn:Hload.
  - rewrite Hf, map_app in Htags. cbn [map snd app] in Htags.
    destruct (first_match_tags tag (registered (this w')) _ _ Htags
                (Hsub _ Hdistinct)) as [e He].
    rewrite He, length_map. reflexivity.
  - rewrite first_match_absent; [reflexivity |].
    intros e Hin Htag. apply (in_map TEXTURE_INFO.tag) in Hin.
    rewrite Htags, Hf, Htag in Hin. cbn [app] in Hin.
    rewrite map_app in Hin. apply in_app_or in Hin as [Hin | Hin].
    + exact (Hsub _ Hdistinct Hin).
    + exact (Hsub _ Hlater Hin).
Qed.

Lemma shader_null e w :
  m_pShaderManager (this w) = None -> shader e w = Undefined NullPointerDereference.
Proof. intros Hp. unfold shader, bind, self. cbn. rewrite Hp. reflexivity. Qed.

Lemma bind_undefined {A B} (c : M A) (k : A -> M B) w f :
  c w = Undefined f -> bind c k w = Undefined f.
Proof. intros H. unfold bind. rewrite H. reflexivity. Qed.

Lemma bind_then_undefined {A B} (c : M A) (k : A -> M B) w a w1 t1 f :
  c w = Done (a, w1, t1) -> k a w1 = Undefined f -> bind c k w = Undefined f.
Proof. intros H1 H2. unfold bind. rewrite H1, H2. reflexivity. Qed.

(** (X10) [PrepareScene] needs a shader manager: on a scene manager
    constructed with a null shader-manager pointer it loads the textures
    and defines the materials, then [SetupSceneLights] dereferences the
    null pointer.  Unlike the four guarded setters, it has no check. *)
Theorem PrepareScene_null_shader_manager env pMeshes g0 :
  PrepareScene env {| this := SceneManager_ctor None pMeshes; gl_generated := g0 |}
  = Undefined NullPointerDereference /\
  forall w, m_pShaderManager (this w) = None ->
            SetupSceneLights w = Undefined NullPointerDereference.
Proof.
  assert (Hlights : forall w, m_pShaderManager (this w) = None ->
                              SetupSceneLights w = Undefined NullPointerDereference).
  { intros w Hp. unfold SetupSceneLights.
    apply bind_undefined. apply shader_null. exact Hp. }
  split; [| exact Hlights].
  destruct (LoadSceneTextures_run env
              {| this := SceneManager_ctor None pMeshes; gl_generated := g0 |}
              (registry_ok_ctor _ _) ltac:(cbn; lia))
    as (w' & tr & Hrun & _ & _ & _ & Hs & _).
  unfold PrepareScene.
  eapply bind_then_undefined; [exact Hrun |].
  eapply bind_then_undefined; [apply DefineObjectMaterials_run |].
  apply bind_undefined. apply Hlights. exact Hs.
Qed.

Lemma SetupSceneLights_calls w p :
  m_pShaderManager (this w) = Some p ->
  exists tr, SetupSceneLights w = Done (tt, w, tr) /\
             loaded_meshes tr = [] /\ List.length tr = 25%nat.
Proof.
  intros Hp. unfold SetupSceneLights. eexists. split.
  - repeat (eapply bind_same; [apply (shader_attached _ w p Hp) |]).
    apply (shader_attached _ w p Hp).
  - split; reflexivity.
Qed.

Lemma binding_calls_no_mesh l : forall i, loaded_meshes (binding_calls i l) = [].
Proof. induction l as [| e l IH]; intros i; cbn; auto. Qed.

(** Everything [PrepareScene] does on a fresh scene manager with a
    shader manager attached. *)
Lemma PrepareScene_run env p pm g :
  exists w1 tr,
    PrepareScene env {| this := SceneManager_ctor (Some p) pm; gl_generated := g |}
    = Done (tt, w1, tr) /\
    m_pShaderManager (this w1) = Some p /\
    m_basicMeshes (this w1) = Some pm /\
    registry_ok (this w1) /\
    map TEXTURE_INFO.tag (registered (this w1))
    = map snd (filter (loadable_load env) scene_loads) /\
    m_objectMaterials (this w1) = scene_materials /\
    gl_generated w1 = names_after env g scene_loads /\
    loaded_meshes tr =
      [Box; Plane; Cylinder; Cone; Prism; Pyramid4; Sphere; TaperedCylinder; Torus].
Proof.
  set (w0 := {| this := SceneManager_ctor (Some p) pm; gl_generated := g |}).
  destruct (LoadSceneTextures_run env w0 (registry_ok_ctor _ _) ltac:(cbn; lia))
    as (w' & trT & Hload & Hok & Hreg & Hg & Hs & Hm & Hmat & Hlen & HtrT).
  cbn [this gl_generated w0] in Hreg, Hg, Hs, Hm, Hmat, Hlen.
  rewrite registered_ctor in Hreg. cbn [app] in Hreg.
  set (w2 := {| this :=
                  push_back matteMaterial
                    (push_back glassMaterial
                       (push_back clothMaterial
                          (push_back metalMaterial
                             (push_back plasticMaterial (this w')))));
                gl_generated := gl_generated w' |}).
  assert (Hs2 : m_pShaderManager (this w2) = Some p) by exact Hs.
  assert (Hm2 : m_basicMeshes (this w2) = Some pm) by exact Hm.
  destruct (SetupSceneLights_calls w2 p Hs2) as (trL & Hlights & HtrL & _).
  exists w2. eexists. split.
  { unfold PrepareScene.
    eapply bind_run; [exact Hload |].
    eapply bind_run; [apply DefineObjectMaterials_run |].
    eapply bind_run; [exact Hlights |].
    repeat (eapply bind_run; [apply (meshes_attached _ w2 pm Hm2) |]).
    apply (meshes_attached _ w2 pm Hm2). }
  split; [exact Hs2 |]. split; [exact Hm2 |].
  split; [exact Hok |].
  split; [change (registered (this w2)) with (registered (this w'));
          rewrite Hreg; apply written_entries_tags |].
  split; [cbn; rewrite Hmat; reflexivity |].
  split; [exact Hg |].
  rewrite !loaded_meshes_app, HtrT, binding_calls_no_mesh, HtrL. reflexivity.
Qed.

(** (X11) Whatever the image files are, [PrepareScene] on a fresh scene
    manager with a shader manager attached finishes.  Afterwards the
    materials are exactly the five of [DefineObjectMaterials] in their
    order, the registered textures are exactly the scene textures that
    loaded, one driver name was taken per file that decoded, and the
    state is a prepared scene: [RenderScene] can run on it. *)
Theorem PrepareScene_establishes {libm : Libm} env p pm g :
  exists w1 tr,
    PrepareScene env {| this := SceneManager_ctor (Some p) pm; gl_generated := g |}
    = Done (tt, w1, tr) /\
    m_objectMaterials (this w1) = scene_materials /\
    map TEXTURE_INFO.tag (registered (this w1))
    = map snd (filter (loadable_load env) scene_loads) /\
    gl_generated w1 = names_after env g scene_loads /\
    prepared w1 /\
    exists frame, RenderScene w1 = Done (tt, w1, frame).
Proof.
  destruct (PrepareScene_run env p pm g)
    as (w1 & tr & Hrun & Hs & Hm & Hok & Htags & Hmat & Hg & _).
  assert (Hprep : prepared w1).
  { unfold prepared. rewrite Hs, Hm.
    split; [discriminate |]. split; [discriminate |]. split; [exact Hok |].
    apply render_calls_ok. exact Hmat. }
  exists w1, tr. split; [exact Hrun |]. split; [exact Hmat |].
  split; [exact Htags |]. split; [exact Hg |]. split; [exact Hprep |].
  destruct (RenderScene_prepared w1 Hprep) as (frame & Hframe & _).
  exists frame. exact Hframe.
Qed.

End Preparation.

(** ** What a frame sets before each draw *)

Module FrameState.
Import TextureRegistry MaterialRegistry RenderPhase RegistryLaws Preparation.

Lemma exec_steps {libm : Libm} c w :
  m_pShaderManager (this w) <> None -> m_basicMeshes (this w) <> None ->
  registry_ok (this w) -> call_ok (this w) c ->
  exists tr, exec c w = Done (tt, w, tr) /\
             map frame_step_of tr = issued_steps (this w) c.
Proof.
  intros Hs Hm Hok Hc.
  destruct (m_pShaderManager (this w)) as [p |] eqn:Hp; [| congruence].
  destruct (m_basicMeshes (this w)) as [pm |] eqn:Hpm; [| congruence].
  destruct c as [s rx ry rz t | r g b a | tag | u v | tag | m];
    cbn [exec issued_steps].
  - rewrite (TransformBuilder.SetTransformations_attached s rx ry rz t w p Hp).
    eexists; split; reflexivity.
  - rewrite (SetShaderColor_attached r g b a w p Hp).
    eexists; split; reflexivity.
  - destruct (FindTextureSlot_total tag (this w) Hok) as [i Hi].
    rewrite (SetShaderTexture_attached tag w p i Hp Hi).
    unfold pushed_slot. rewrite Hi. eexists; split; reflexivity.
  - rewrite (SetTextureUVScale_attached u v w p Hp).
    eexists; split; reflexivity.
  - destruct (SetShaderMaterial_defined tag w p Hp Hc) as (m & _ & _ & ->).
    eexists; split; reflexivity.
  - rewrite (meshes_attached (DrawMesh m) w pm Hpm).
    eexists; split; reflexivity.
Qed.

Lemma perform_steps {libm : Libm} cs w :
  m_pShaderManager (this w) <> None -> m_basicMeshes (this w) <> None ->
  registry_ok (this w) -> Forall (call_ok (this w)) cs ->
  exists tr, perform cs w = Done (tt, w, tr) /\
             map frame_step_of tr = List.concat (map (issued_steps (this w)) cs).
Proof.
  intros Hs Hm Hok. induction cs as [| c cs IH]; intros Hall.
  - exists []. split; reflexivity.
  - inversion Hall as [| ? ? Hc Hcs]; subst.
    destruct (exec_steps c w Hs Hm Hok Hc) as (t1 & H1 & K1).
    destruct (IH Hcs) as (t2 & H2 & K2).
    exists (t1 ++ t2). cbn [perform map List.concat].
    rewrite (bind_same _ _ w tt t1 tt t2 H1 H2).
    rewrite map_app, K1, K2. split; reflexivity.
Qed.

Lemma RenderScene_steps {libm : Libm} w :
  prepared w ->
  exists tr, RenderScene w = Done (tt, w, tr) /\
             map frame_step_of tr
             = List.concat (map (issued_steps (this w)) RenderScene_calls).
Proof.
  intros (Hs & Hm & Hok & Hall). rewrite RenderScene_perform.
  apply perform_steps; assumption.
Qed.

Lemma drawn_steps tr : drawn tr = step_draws (map frame_step_of tr).
Proof.
  induction tr as [| e tr IH]; [reflexivity |].
  destruct e; cbn [drawn map frame_step_of step_draws]; try exact IH;
    try (match goal with
         | |- context [if ?b then _ else _] => destruct b
         end; exact IH).
  f_equal. exact IH.
Qed.

(** (X12) In a prepared scene every one of the twenty draws of a frame
    has the texture mode "bUseTexture" written since the previous draw:
    no part relies on the mode an earlier part left.  The modes in force
    are: textured for the desk plane, the legs, hip, body, head and arms
    of the figure and the can body (whose flat colour is overridden by
    the texture pushed after it); flat colour for all other parts. *)
Theorem texture_mode_set_for_every_draw {libm : Libm} (w : World) :
  prepared w ->
  exists tr,
    RenderScene w = Done (tt, w, tr) /\
    modes_at_draws None (map frame_step_of tr) =
      [Some 1;
       Some 1; Some 1; Some 1; Some 1; Some 0; Some 0; Some 1; Some 1; Some 1;
       Some 0; Some 0;
       Some 1; Some 0;
       Some 0; Some 0; Some 0;
       Some 0; Some 0; Some 0] /\
    List.length (drawn tr) = 20%nat.
Proof.
  intros Hw. destruct (RenderScene_steps w Hw) as (tr & Hrun & Hsteps).
  exists tr. split; [exact Hrun |].
  rewrite drawn_steps, Hsteps. split; reflexivity.
Qed.

Lemma texture_mode_set_for_every_draw_witness :
  exists tr,
    @RenderScene example_libm example_prepared = Done (tt, example_prepared, tr) /\
    modes_at_draws None (map frame_step_of tr) =
      [Some 1;
       Some 1; Some 1; Some 1; Some 1; Some 0; Some 0; Some 1; Some 1; Some 1;
       Some 0; Some 0;
       Some 1; Some 0;
       Some 0; Some 0; Some 0;
       Some 0; Some 0; Some 0] /\
    List.length (drawn tr) = 20%nat.
Proof.
  apply (@texture_mode_set_for_every_draw example_libm example_prepared).
  exact example_prepared_prepared.
Defined.

(** (X13) The material is not set for every draw.  In a prepared scene
    four of the twenty draws of a frame are issued with no material
    member written since the previous draw: the desk plane, both arms
    and the right hand of the figure.  These draws use whatever
    material values the shader was left with; for the desk plane, drawn
    first, no material write of the frame precedes it at all. *)
Theorem material_not_set_for_every_draw {libm : Libm} (w : World) :
  prepared w ->
  exists tr,
    RenderScene w = Done (tt, w, tr) /\
    material_at_draws false (map frame_step_of tr) =
      [false;
       true; true; true; true; true; true; true; false; false; true; false;
       true; true;
       true; true; true;
       true; true; true] /\
    drawn tr =
      [Plane;
       Box; Box; Box; Cylinder; Cylinder; Cylinder; Sphere; Cylinder; Cylinder;
       Sphere; Sphere;
       Cylinder; TaperedCylinder;
       HalfTorus; Cylinder; Cylinder;
       Box; Box; Prism].
Proof.
  intros Hw. destruct (RenderScene_steps w Hw) as (tr & Hrun & Hsteps).
  exists tr. split; [exact Hrun |].
  rewrite drawn_steps, Hsteps. split; reflexivity.
Qed.

Lemma material_not_set_for_every_draw_witness :
  exists tr,
    @RenderScene example_libm example_prepared = Done (tt, example_prepared, tr) /\
    material_at_draws false (map frame_step_of tr) =
      [false;
       true; true; true; true; true; true; true; false; false; true; false;
       true; true;
       true; true; true;
       true; true; true] /\
    drawn tr =
      [Plane;
       Box; Box; Box; Cylinder; Cylinder; Cylinder; Sphere; Cylinder; Cylinder;
       Sphere; Sphere;
       Cylinder; TaperedCylinder;
       HalfTorus; Cylinder; Cylinder;
       Box; Box; Prism].
Proof.
  apply (@material_not_set_for_every_draw example_libm example_prepared).
  exact example_prepared_prepared.
Defined.

End FrameState.
(** ** The shape of the model matrix *)

Module ModelMatrix.
Import Binary32 GLM TransformBuilder.

(** With an infinite scale component the first column, bottom row
    included, is NaN: zero times infinity. *)
Example infinite_scale :
  col0 (@model_matrix example_libm (Vec3 (S754_infinity false) 1 1) 0 0 0
          (Vec3 0 0 0))
  = Vec4 S754_nan S754_nan S754_nan S754_nan.
Proof. reflexivity. Qed.

(** (X15) Shape of the model matrix.  Whatever [cosf] and [sinf] return,
    if scale and position are finite and nothing on the way to
    [modelView] overflows (the three rotation matrices and the partial
    products have finite entries), the matrix [SetTransformations]
    pushes has bottom row 0 0 0 1, the zeros of either sign, and its
    last column holds the position. *)
Theorem model_matrix_affine {libm : Libm}
    (s : vec3) (rx ry rz : float) (t : vec3) :
  finite3 s -> finite3 t -> no_overflow rx ry rz t = true ->
  (forall w p, m_pShaderManager (this w) = Some p ->
     SetTransformations s rx ry rz t w
     = Done (tt, w, [setMat4Value "model" (model_matrix s rx ry rz t)])) /\
  bottom_row (model_matrix s rx ry rz t) /\
  last_column (model_matrix s rx ry rz t) t.
Proof.
  intros Hs Ht Hno. unfold no_overflow in Hno. cbv zeta in Hno.
  apply andb_prop in Hno. destruct Hno as [Hno F3].
  apply andb_prop in Hno. destruct Hno as [Hno F2].
  apply andb_prop in Hno. destruct Hno as [Hno F1].
  apply andb_prop in Hno. destruct Hno as [Hno FZ].
  apply andb_prop in Hno. destruct Hno as [FX FY].
  destruct (translate_shape t Ht) as (BT & LT & FT).
  destruct (rotate_shape (radians rx) (Vec3 1 0 0)) as (CX & BX).
  destruct (rotate_shape (radians ry) (Vec3 0 1 0)) as (CY & BY).
  destruct (rotate_shape (radians rz) (Vec3 0 0 1)) as (CZ & BZ).
  destruct (scale_shape s Hs) as (CS & BS & FS).
  split.
  { intros w p Hp. exact (SetTransformations_attached s rx ry rz t w p Hp). }
  unfold model_matrix. split.
  - apply mul_bottom_row; [| exact BS | exact FS].
    apply mul_bottom_row; [| exact (BZ FZ) | exact FZ].
    apply mul_bottom_row; [| exact (BY FY) | exact FY].
    apply mul_bottom_row; [exact BT | exact (BX FX) | exact FX].
  - apply mul_last_column; [| exact Ht | exact F3 | exact CS].
    apply mul_last_column; [| exact Ht | exact F2 | exact CZ].
    apply mul_last_column; [| exact Ht | exact F1 | exact CY].
    apply mul_last_column; [exact LT | exact Ht | exact FT | exact CX].
Qed.

Lemma model_matrix_affine_witness :
  (forall w p, m_pShaderManager (this w) = Some p ->
     @SetTransformations example_libm (Vec3 5 16 7) 90 (-7.5) 255
       (Vec3 10 2.75 (-3)) w
     = Done (tt, w, [setMat4Value "model"
                       (@model_matrix example_libm (Vec3 5 16 7) 90 (-7.5) 255
                          (Vec3 10 2.75 (-3)))])) /\
  bottom_row (@model_matrix example_libm (Vec3 5 16 7) 90 (-7.5) 255
                (Vec3 10 2.75 (-3))) /\
  last_column (@model_matrix example_libm (Vec3 5 16 7) 90 (-7.5) 255
                 (Vec3 10 2.75 (-3)))
              (Vec3 10 2.75 (-3)).
Proof.
  apply (@model_matrix_affine example_libm); repeat split; vm_compute; reflexivity.
Defined.

End ModelMatrix.

(** ** Further properties of the material registry *)

Module MaterialLaws.
Import MaterialRegistry RenderPhase.

Lemma tag_defined_or_not tag l : defined_tag tag l \/ undefined_tag tag l.
Proof.
  induction l as [| a l IH].
  - right. intros m [].
  - destruct (String.eqb_spec (OBJECT_MATERIAL.tag a) tag) as [E | NE].
    + left. exists a. split; [left; reflexivity | exact E].
    + destruct IH as [(m & Hin & Ht) | Hno].
      * left. exists m. split; [right; exact Hin | exact Ht].
      * right. intros m [<- | Hin]; [exact NE | exact (Hno m Hin)].
Qed.

Lemma FindMaterial_from_app_defined tag l l' out :
  defined_tag tag l ->
  FindMaterial_from (l ++ l') tag out = FindMaterial_from l tag out.
Proof.
  intros Hdef.
  destruct (defined_tag_first tag l Hdef) as (before & m & after & -> & Hno & Ht).
  rewrite <- app_assoc. cbn [app].
  rewrite !FindMaterial_from_first by assumption. reflexivity.
Qed.

Lemma FindMaterial_app_defined tag out s s' l' :
  m_objectMaterials s' = m_objectMaterials s ++ l' ->
  defined_tag tag (m_objectMaterials s) ->
  FindMaterial tag out s' = FindMaterial tag out s.
Proof.
  intros Happ Hdef. unfold FindMaterial. rewrite Happ.
  rewrite (FindMaterial_from_app_defined tag _ l' out Hdef).
  destruct Hdef as (m & Hin & _).
  destruct (m_objectMaterials s) as [| a l]; [destruct Hin |]. reflexivity.
Qed.

Lemma undefined_tag_app tag l l' :
  undefined_tag tag l -> undefined_tag tag l' -> undefined_tag tag (l ++ l').
Proof.
  intros H H' m Hin. apply in_app_or in Hin as [Hin | Hin]; auto.
Qed.

(** (X18) [DefineObjectMaterials] only ever adds: from any state it
    appends its five materials after the ones already defined and
    touches nothing else.  A tag that was defined before keeps its
    lookup result (the earlier material shadows the new one); each of
    the five tags not defined before is then found with exactly the
    values written in the source; and calling [DefineObjectMaterials] a
    second time changes the result of no lookup. *)
Theorem DefineObjectMaterials_appends (w : World) :
  exists w',
    DefineObjectMaterials w = Done (tt, w', []) /\
    m_objectMaterials (this w') = m_objectMaterials (this w) ++ scene_materials /\
    m_textureIDs (this w') = m_textureIDs (this w) /\
    m_loadedTextures (this w') = m_loadedTextures (this w) /\
    m_pShaderManager (this w') = m_pShaderManager (this w) /\
    m_basicMeshes (this w') = m_basicMeshes (this w) /\
    gl_generated w' = gl_generated w /\
    (forall tag out,
       defined_tag tag (m_objectMaterials (this w)) ->
       FindMaterial tag out (this w') = FindMaterial tag out (this w)) /\
    (forall m out,
       In m scene_materials ->
       undefined_tag (OBJECT_MATERIAL.tag m) (m_objectMaterials (this w)) ->
       FindMaterial (OBJECT_MATERIAL.tag m) out (this w') = (true, copy_into out m)) /\
    (exists w'',
       DefineObjectMaterials w' = Done (tt, w'', []) /\
       forall tag out, FindMaterial tag out (this w'') = FindMaterial tag out (this w')).
Proof.
  rewrite DefineObjectMaterials_run.
  set (s1 := push_back matteMaterial
               (push_back glassMaterial
                  (push_back clothMaterial
                     (push_back metalMaterial
                        (push_back plasticMaterial (this w)))))).
  assert (Hmat : m_objectMaterials s1 = m_objectMaterials (this w) ++ scene_materials).
  { unfold s1, scene_materials. cbn. rewrite <- !app_assoc. reflexivity. }
  eexists. split; [reflexivity |]. cbn [this gl_generated]. fold s1.
  split; [exact Hmat |].
  do 5 (split; [reflexivity |]).
  split; [| split].
  - intros tag out Hdef.
    exact (FindMaterial_app_defined tag out (this w) s1 scene_materials Hmat Hdef).
  - intros m out Hin Hno.
    assert (Hsplit : exists pre post,
              scene_materials = pre ++ m :: post /\
              undefined_tag (OBJECT_MATERIAL.tag m) pre).
    { unfold scene_materials in *. cbn in Hin.
      destruct Hin as [<- | [<- | [<- | [<- | [<- | []]]]]].
      - exists [], [metalMaterial; clothMaterial; glassMaterial; matteMaterial].
        split; [reflexivity |]. intros m' [].
      - exists [plasticMaterial], [clothMaterial; glassMaterial; matteMaterial].
        split; [reflexivity |].
        intros m' Hin'; cbn in Hin';
          repeat (destruct Hin' as [<- | Hin']; [cbn; discriminate |]); destruct Hin'.
      - exists [plasticMaterial; metalMaterial], [glassMaterial; matteMaterial].
        split; [reflexivity |].
        intros m' Hin'; cbn in Hin';
          repeat (destruct Hin' as [<- | Hin']; [cbn; discriminate |]); destruct Hin'.
      - exists [plasticMaterial; metalMaterial; clothMaterial], [matteMaterial].
        split; [reflexivity |].
        intros m' Hin'; cbn in Hin';
          repeat (destruct Hin' as [<- | Hin']; [cbn; discriminate |]); destruct Hin'.
      - exists [plasticMaterial; metalMaterial; clothMaterial; glassMaterial], [].
        split; [reflexivity |].
        intros m' Hin'; cbn in Hin';
          repeat (destruct Hin' as [<- | Hin']; [cbn; discriminate |]); destruct Hin'. }
    destruct Hsplit as (pre & post & Hsc & Hpre).
    apply (FindMaterial_found (OBJECT_MATERIAL.tag m) out s1
             (m_objectMaterials (this w) ++ pre) m post).
    + rewrite Hmat, Hsc, <- app_assoc. reflexivity.
    + apply undefined_tag_app; assumption.
    + reflexivity.
  - rewrite DefineObjectMaterials_run. cbn [this gl_generated]. fold s1.
    set (s2 := push_back matteMaterial
                 (push_back glassMaterial
                    (push_back clothMaterial
                       (push_back metalMaterial
                          (push_back plasticMaterial s1))))).
    assert (Hmat2 : m_objectMaterials s2 = m_objectMaterials s1 ++ scene_materials).
    { unfold s2, scene_materials. cbn. rewrite <- !app_assoc. reflexivity. }
    eexists. split; [reflexivity |]. cbn [this].
    intros tag out.
    destruct (tag_defined_or_not tag (m_objectMaterials s1)) as [Hdef | Hno].
    + exact (FindMaterial_app_defined tag out s1 s2 scene_materials Hmat2 Hdef).
    + assert (Hno2 : undefined_tag tag (m_objectMaterials s2)).
      { rewrite Hmat2. apply undefined_tag_app; [exact Hno |].
        intros m Hin. apply Hno. rewrite Hmat. apply in_or_app. right. exact Hin. }
      rewrite (FindMaterial_miss_nonempty tag out s2), (FindMaterial_miss_nonempty tag out s1);
        try assumption; try reflexivity.
      * rewrite Hmat. unfold scene_materials. intros E. apply app_eq_nil in E as [_ E].
        discriminate.
      * rewrite Hmat2. unfold scene_materials. intros E. apply app_eq_nil in E as [_ E].
        discriminate.
Qed.

(** (X19) The three ways [SetShaderMaterial] can go.  With no material
    defined it does nothing, for every tag and even with a null shader
    manager.  With the tag defined and a shader manager attached it
    pushes the five values of the first material carrying the tag, as
    "material.ambientColor", "material.ambientStrength",
    "material.diffuseColor", "material.specularColor" and
    "material.shininess", in this order, and changes nothing.  With any
    material defined and a null shader manager it never returns
    normally: it has no null check. *)
Theorem SetShaderMaterial_cases (tag : string) (w : World) :
  (m_objectMaterials (this w) = [] -> SetShaderMaterial tag w = Done (tt, w, [])) /\
  (forall p before m after,
     m_pShaderManager (this w) = Some p ->
     m_objectMaterials (this w) = before ++ m :: after ->
     undefined_tag tag before -> OBJECT_MATERIAL.tag m = tag ->
     SetShaderMaterial tag w =
     Done (tt, w,
           [setVec3Value "material.ambientColor" (OBJECT_MATERIAL.ambientColor m);
            setFloatValue "material.ambientStrength" (OBJECT_MATERIAL.ambientStrength m);
            setVec3Value "material.diffuseColor" (OBJECT_MATERIAL.diffuseColor m);
            setVec3Value "material.specularColor" (OBJECT_MATERIAL.specularColor m);
            setFloatValue "material.shininess" (OBJECT_MATERIAL.shininess m)])) /\
  (m_objectMaterials (this w) <> [] -> m_pShaderManager (this w) = None ->
   exists f, SetShaderMaterial tag w = Undefined f).
Proof.
  split; [| split].
  - intros Hempty. unfold SetShaderMaterial. unfold bind at 1, self at 1.
    rewrite Hempty. reflexivity.
  - intros p before m after Hp Hl Hno Ht.
    unfold SetShaderMaterial. unfold bind at 1. unfold self at 1.
    rewrite (FindMaterial_found tag OBJECT_MATERIAL.declared (this w) before m after
               Hl Hno Ht).
    assert (Hlen : (0 <? List.length (m_objectMaterials (this w)))%nat = true).
    { apply Nat.ltb_lt. rewrite Hl, length_app. cbn. lia. }
    rewrite Hlen. cbn [copy_into OBJECT_MATERIAL.r_ambientColor
      OBJECT_MATERIAL.r_ambientStrength OBJECT_MATERIAL.r_diffuseColor
      OBJECT_MATERIAL.r_specularColor OBJECT_MATERIAL.r_shininess read].
    unfold bind, ret. rewrite !(shader_attached _ w p Hp). reflexivity.
  - intros Hne Hnull.
    assert (Hlen : (0 <? List.length (m_objectMaterials (this w)))%nat = true).
    { apply Nat.ltb_lt. destruct (m_objectMaterials (this w)); [congruence | cbn; lia]. }
    unfold SetShaderMaterial. unfold bind at 1. unfold self at 1. rewrite Hlen.
    destruct (tag_defined_or_not tag (m_objectMaterials (this w))) as [Hdef | Hno].
    + destruct (defined_tag_first tag _ Hdef) as (before & m & after & Hl & Hb & Ht).
      rewrite (FindMaterial_found tag OBJECT_MATERIAL.declared (this w) before m after
                 Hl Hb Ht).
      exists NullPointerDereference.
      cbn [copy_into OBJECT_MATERIAL.r_ambientColor read].
      unfold bind at 1. unfold ret at 1.
      unfold bind at 1. rewrite (Preparation.shader_null _ w Hnull). reflexivity.
    + rewrite (FindMaterial_miss_nonempty tag OBJECT_MATERIAL.declared (this w) Hne Hno).
      exists IndeterminateRead. reflexivity.
Qed.

End MaterialLaws.
